(** * math_agent: the retrieval-augmented answer pipeline

    A shallow embedding of the guardrail filter, the result parser and the
    [ask] orchestrator of the math agent, in its two implementations:

    - [backend/backend/main.py]  (module [Main]),
    - [backend/routes/ask.py] with [backend/utils/guardrails.py]
      (module [Routes]),

    and of the code around them: the feedback route
    ([backend/routes/feedback.py], module [Feedback]), the evaluator
    ([backend/jee_evaluator.py], module [Evaluator]) with its endpoint
    ([backend/main.py], module [App]), and the two generators
    ([backend/utils/core.py], module [Core]; [backend/backend/utils.py],
    module [Utils]).

    Text is modelled as lists of Latin-1 code points ([ascii]); the Python
    string methods and the regular expressions of the source are written out
    on that range.  Floats are modelled by rational numbers.
    The three collaborators ([kb_search], [web_search_fallback],
    [generate_with_gemini]) are external: [ask] is a program tree whose nodes
    are the calls it issues, interpreted against an environment of oracles.
    The generators are modelled from the text of the model's reply on; the
    request itself is an oracle. *)

From Stdlib Require Import Ascii String List ZArith NArith QArith Qround Qminmax Qabs.
From Stdlib Require Import Bool Lia Lqa DecimalString DecimalNat.
Import ListNotations.

Set Implicit Arguments.

(** ** Python text primitives *)

Module PyText.

Definition str := list ascii.

Definition lit (s : string) : str := list_ascii_of_string s.

Definition ord (c : ascii) : N := N_of_ascii c.

Definition chr (n : N) : ascii := ascii_of_N n.

Definition in_range (lo hi : N) (c : ascii) : bool :=
  ((lo <=? ord c) && (ord c <=? hi))%N.

Definition is_char (n : N) (c : ascii) : bool := (ord c =? n)%N.

(** [str.isspace] on one code point; also the class [\s] of [re]. *)
Definition isspace (c : ascii) : bool :=
  in_range 9 13 c || in_range 28 32 c || is_char 133 c || is_char 160 c.

(** The line boundaries of [str.splitlines]. *)
Definition is_linebreak (c : ascii) : bool :=
  in_range 10 13 c || in_range 28 30 c || is_char 133 c.

(** The class [\d] of [re]. *)
Definition isdigit (c : ascii) : bool := in_range 48 57 c.

Definition is_ascii_upper (c : ascii) : bool := in_range 65 90 c.

Definition is_ascii_lower (c : ascii) : bool := in_range 97 122 c.

Definition is_ascii_alnum (c : ascii) : bool :=
  is_ascii_upper c || is_ascii_lower c || isdigit c.

(** The class [\w] of [re]: [str.isalnum] or the underscore. *)
Definition is_word (c : ascii) : bool :=
  is_ascii_alnum c || is_char 95 c
  || is_char 170 c || is_char 178 c || is_char 179 c || is_char 181 c
  || is_char 185 c || is_char 186 c || in_range 188 190 c
  || in_range 192 214 c || in_range 216 246 c || in_range 248 255 c.

(** [str.lower] on one code point. *)
Definition lower_char (c : ascii) : ascii :=
  if is_ascii_upper c || (in_range 192 222 c && negb (is_char 215 c))
  then chr (ord c + 32) else c.

Definition lower (s : str) : str := map lower_char s.

Fixpoint dropWhile (p : ascii -> bool) (s : str) : str :=
  match s with
  | [] => []
  | c :: r => if p c then dropWhile p r else s
  end.

Fixpoint takeWhile (p : ascii -> bool) (s : str) : str :=
  match s with
  | [] => []
  | c :: r => if p c then c :: takeWhile p r else []
  end.

Definition lstrip (s : str) : str := dropWhile isspace s.

Definition rstrip (s : str) : str := rev (dropWhile isspace (rev s)).

(** [s.strip()] *)
Definition strip (s : str) : str := rstrip (lstrip s).

(** Python truthiness of a string or a list. *)
Definition truthy {A} (l : list A) : bool :=
  match l with [] => false | _ :: _ => true end.

(** [s.splitlines()]: a carriage return directly followed by a line feed is
    one boundary; no empty last line is produced after a final boundary. *)
Fixpoint splitlines (s : str) : list str :=
  match s with
  | [] => []
  | c :: r =>
      if is_linebreak c then
        match r with
        | d :: r' =>
            if is_char 13 c && is_char 10 d then [] :: splitlines r'
            else [] :: splitlines r
        | [] => [[]]
        end
      else
        match splitlines r with
        | [] => [[c]]
        | l :: ls => (c :: l) :: ls
        end
  end.

(** [len(s.split())]: the number of maximal runs of non-space characters. *)
Fixpoint count_tokens_from (in_token : bool) (s : str) : nat :=
  match s with
  | [] => 0
  | c :: r =>
      if isspace c then count_tokens_from false r
      else if in_token then count_tokens_from true r
      else S (count_tokens_from true r)
  end.

Definition count_tokens (s : str) : nat := count_tokens_from false s.

Fixpoint starts_with (p s : str) : bool :=
  match p, s with
  | [], _ => true
  | _ :: _, [] => false
  | a :: p', b :: s' => Ascii.eqb a b && starts_with p' s'
  end.

(** [sub in s] *)
Fixpoint contains (sub s : str) : bool :=
  starts_with sub s ||
  match s with
  | [] => false
  | _ :: r => contains sub r
  end.

(** [sep.join(parts)] *)
Fixpoint join (sep : str) (parts : list str) : str :=
  match parts with
  | [] => []
  | [p] => p
  | p :: rest => p ++ sep ++ join sep rest
  end.

(** [str(n)] for an integer. *)
Definition str_of_Z (z : Z) : str :=
  lit (NilEmpty.string_of_int (Z.to_int z)).

Definition str_of_nat (n : nat) : str :=
  lit (NilEmpty.string_of_uint (Nat.to_uint n)).

Definition backslash : ascii := chr 92.
Definition squote : ascii := chr 39.
Definition dquote : ascii := chr 34.
Definition nl : ascii := chr 10.

Definition hex_digit (n : N) : ascii :=
  if (n <? 10)%N then chr (48 + n) else chr (87 + n).

(** [repr] of a string, as [str] of a list prints its elements. *)
Definition repr_char (quote c : ascii) : str :=
  if Ascii.eqb c backslash || Ascii.eqb c quote then [backslash; c]
  else if is_char 9 c then [backslash; chr 116]
  else if is_char 10 c then [backslash; chr 110]
  else if is_char 13 c then [backslash; chr 114]
  else if in_range 0 31 c || in_range 127 160 c || is_char 173 c
  then [backslash; chr 120; hex_digit (ord c / 16); hex_digit (ord c mod 16)]
  else [c].

Definition repr_str (s : str) : str :=
  let quote :=
    if existsb (Ascii.eqb squote) s && negb (existsb (Ascii.eqb dquote) s)
    then dquote else squote in
  quote :: flat_map (repr_char quote) s ++ [quote].

(** [str(l)] for a list of strings. *)
Definition str_of_list (l : list str) : str :=
  lit "[" ++ join (lit ", ") (map repr_str l) ++ lit "]".

End PyText.

Import PyText.

(** ** Guardrail filter (the same text in both implementations) *)

Module Guardrails.

Definition allowed_keywords : list str :=
  map lit
    [ "integrate"; "differentiate"; "derivative"; "equation"; "matrix";
      "limit"; "solve"; "find"; "function"; "value"; "graph"; "area";
      "volume" ]%string.

Definition banned_keywords : list str :=
  map lit
    [ "violence"; "religion"; "politics"; "hack"; "illegal"; "suicide" ]%string.

(** [any(word in question.lower() for word in allowed_keywords)] *)
Definition input_guardrail (question : str) : bool :=
  existsb (fun word => contains word (lower question)) allowed_keywords.

(** [not any(bad in text.lower() for bad in banned_keywords)] *)
Definition output_guardrail (text : str) : bool :=
  negb (existsb (fun bad => contains bad (lower text)) banned_keywords).

End Guardrails.

Import Guardrails.

(** ** Data model and the program monad *)

(** An attribute or dictionary entry of a Python object: absent, [None], or a
    value. *)
Inductive attr (A : Type) : Type :=
| Absent
| PyNone
| Val (a : A).

Arguments Absent {A}.
Arguments PyNone {A}.

(** [d.get(key)]: absent reads as [None]. *)
Definition dict_get {A} (a : attr A) : option A :=
  match a with
  | Val v => Some v
  | _ => None
  end.

(** [x or ""] on an optional string. *)
Definition or_empty (o : option str) : str :=
  match o with
  | Some s => s
  | None => []
  end.

(** How an f-string prints an optional string. *)
Definition fmt (o : option str) : str :=
  match o with
  | Some s => s
  | None => lit "None"
  end.

Inductive point_id : Type :=
| IdInt (n : Z)
| IdStr (s : str).

Definition str_of_id (i : point_id) : str :=
  match i with
  | IdInt n => str_of_Z n
  | IdStr s => s
  end.

Record Payload : Type := mkPayload {
  p_question : attr str;
  p_steps : attr str;
  p_final_answer : attr str
}.

(** A retrieval hit, as returned by the vector database client. *)
Record ScoredPoint : Type := mkScoredPoint {
  id : point_id;
  score : attr Q;
  payload : Payload
}.

Record AskIn : Type := mkAskIn {
  question : str;
  explain_level : str;
  user_id : option str
}.

Record AskOut : Type := mkAskOut {
  steps : list str;
  final_answer : str;
  sources : list str;
  confidence : Q
}.

Record Config : Type := mkConfig {
  KB_THRESHOLD : Q;
  KB_TOPK : Z
}.

(** [KB_THRESHOLD] and [KB_TOPK] when the environment sets neither. *)
Definition default_config : Config := mkConfig (78 # 100) 3.

Inductive exn : Type :=
| HTTPException (status_code : Z) (detail : str)
| UnboundLocalError (name : str)
| KeyError (key : str)
| CollaboratorError (msg : str).

(** The programs [ask] can be: a result, an exception, or a call to one of
    the three collaborators followed by the rest of the request. Optional
    arguments left out at the call site are [None]. *)
Inductive Prog (A : Type) : Type :=
| Ret (a : A)
| Raise (e : exn)
| Call_kb_search (query : str) (top_k : Z) (k : list ScoredPoint -> Prog A)
| Call_web_search_fallback (query : str) (k : str -> Prog A)
| Call_generate_with_gemini (prompt : str) (max_tokens : option Z)
    (temperature : option Q) (k : str -> Prog A).

Arguments Raise {A}.
Arguments Call_kb_search {A}.
Arguments Call_web_search_fallback {A}.
Arguments Call_generate_with_gemini {A}.

Inductive call : Type :=
| KbSearch (query : str) (top_k : Z)
| WebSearch (query : str)
| Generate (prompt : str) (max_tokens : option Z) (temperature : option Q).

(** The collaborators; each may fail with an exception of its own. *)
Record Env : Type := mkEnv {
  kb_search : str -> Z -> exn + list ScoredPoint;
  web_search_fallback : str -> exn + str;
  generate_with_gemini : str -> option Z -> option Q -> exn + str
}.

(** Running a request: the calls issued, in order, and the outcome. *)
Fixpoint run {A} (env : Env) (p : Prog A) : list call * (exn + A) :=
  match p with
  | Ret a => ([], inr a)
  | Raise e => ([], inl e)
  | Call_kb_search q n k =>
      match kb_search env q n with
      | inl e => ([KbSearch q n], inl e)
      | inr hits => let (t, r) := run env (k hits) in (KbSearch q n :: t, r)
      end
  | Call_web_search_fallback q k =>
      match web_search_fallback env q with
      | inl e => ([WebSearch q], inl e)
      | inr ctx => let (t, r) := run env (k ctx) in (WebSearch q :: t, r)
      end
  | Call_generate_with_gemini p m t k =>
      match generate_with_gemini env p m t with
      | inl e => ([Generate p m t], inl e)
      | inr txt => let (tr, r) := run env (k txt) in (Generate p m t :: tr, r)
      end
  end.

(** ** Floats *)

(** A float is modelled by a rational number: a decimal literal by the
    decimal it spells, comparison and [max] exactly, [round] as rounding of
    the exact value. *)

(** [max(a, b)]: the first argument unless the second is greater. *)
Definition py_max (a b : Q) : Q :=
  match (a ?= b)%Q with
  | Lt => b
  | _ => a
  end.

(** Rounding to the nearest integer, ties to the even one. *)
Definition round_half_even (x : Q) : Z :=
  let f := Qfloor x in
  match (x - inject_Z f ?= 1 # 2)%Q with
  | Lt => f
  | Gt => (f + 1)%Z
  | Eq => if Z.even f then f else (f + 1)%Z
  end.

(** [round(x, 3)]: the nearest multiple of one thousandth. *)
Definition round3 (x : Q) : Q := (round_half_even (x * 1000)%Q # 1000)%Q.

(** [float(getattr(top, "score", 0.0) or 0.0)] *)
Definition top_score (top : ScoredPoint) : Q :=
  match score top with
  | Val x => if Qeq_bool x 0 then 0%Q else x
  | _ => 0%Q
  end.

(** ** backend/backend/main.py *)

Module Main.

(** [re.match] of the numbered-step pattern, [^(\d+)\s*[\.\)]\s*]
    followed by group 2, [.*], up to [$]: group 2 of the match. The
    three classes are disjoint, so the greedy match is the only one. The
    lines this is applied to come out of [splitlines] and hold no line
    feed, so the last group takes the rest of the line. *)
Definition match_numbered (ln : str) : option str :=
  match takeWhile isdigit ln with
  | [] => None
  | _ :: _ =>
      match dropWhile isspace (dropWhile isdigit ln) with
      | c :: r =>
          if is_char 46 c || is_char 41 c then Some (dropWhile isspace r)
          else None
      | [] => None
      end
  end.

(** A literal of a pattern compiled with [re.I] against the head of [s];
    returns what follows the literal. *)
Fixpoint match_literal_nocase (literal s : str) : option str :=
  match literal, s with
  | [], _ => Some s
  | _ :: _, [] => None
  | a :: l', b :: s' =>
      if Ascii.eqb a (lower_char b) then match_literal_nocase l' s' else None
  end.

(** The tail of the final-answer pattern, after the keyword: blanks, a
    colon or a hyphen, blanks, and the captured rest. *)
Definition match_separator (r : str) : option str :=
  match dropWhile isspace r with
  | c :: r' =>
      if is_char 58 c || is_char 45 c then Some (dropWhile isspace r')
      else None
  | [] => None
  end.

Definition match_final_with (keyword ln : str) : option str :=
  match match_literal_nocase keyword ln with
  | Some r => match_separator r
  | None => None
  end.

(** [re.match] of the final-answer pattern under [re.I],
    [^(final answer|answer)\s*[:\-]\s*] followed by group 2, [.*], up to
    [$]: group 2 of the match, the alternatives tried in order. *)
Definition match_final (ln : str) : option str :=
  match match_final_with (lit "final answer") ln with
  | Some g => Some g
  | None => match_final_with (lit "answer") ln
  end.

Definition is_math_op (c : ascii) : bool :=
  is_char 61 c || is_char 94 c || is_char 42 c || is_char 47 c.

Definition not_word (o : option ascii) : bool :=
  match o with
  | Some c => negb (is_word c)
  | None => true
  end.

(** [re.search(r'[=\^\*/]|\\[a-z]+|\bC\b', ln)], with the character before
    the current position. *)
Fixpoint search_math_from (prev : option ascii) (s : str) : bool :=
  match s with
  | [] => false
  | c :: r =>
      is_math_op c
      || (Ascii.eqb c backslash
          && match r with d :: _ => is_ascii_lower d | [] => false end)
      || (is_char 67 c && not_word prev && not_word (hd_error r))
      || search_math_from (Some c) r
  end.

Definition search_math (ln : str) : bool := search_math_from None ln.

(** One turn of the loop over the lines, on the pair of the two
    accumulators. *)
Definition parse_line (st : list str * str) (ln : str) : list str * str :=
  match match_numbered ln with
  | Some g => (fst st ++ [strip g], snd st)
  | None =>
      match match_final ln with
      | Some g => (fst st, strip g)
      | None =>
          if search_math ln then (fst st ++ [ln], snd st) else st
      end
  end.

(** The class [[A-Za-z0-9\-\+\/*\^\(\)\s\._]]. *)
Definition in_final_class (c : ascii) : bool :=
  is_ascii_alnum c
  || is_char 45 c || is_char 43 c || is_char 47 c || is_char 42 c
  || is_char 94 c || is_char 40 c || is_char 41 c || isspace c
  || is_char 46 c || is_char 95 c.

(** [re.match(r'^[A-Za-z0-9\-\+\/*\^\(\)\s\._]+$', s)] *)
Definition match_final_class (s : str) : bool :=
  truthy s && forallb in_final_class s.

(** The guess made after the loop when no final answer was found. *)
Definition post_pass (st : list str * str) : list str * str :=
  if negb (truthy (snd st)) && truthy (fst st) then
    let last_step := last (fst st) [] in
    if match_final_class last_step && (count_tokens last_step <=? 8)%nat
    then (removelast (fst st), last_step)
    else st
  else st.

(** [[ln.strip() for ln in txt.splitlines() if ln.strip()]] *)
Definition lines_of (txt : str) : list str :=
  map strip (filter (fun ln => truthy (strip ln)) (splitlines txt)).

Definition parse_loop (lines : list str) : list str * str :=
  fold_left parse_line lines ([], []).

(** [parse_generation_result], on the text [generate_with_gemini] returns. *)
Definition parse_generation_result (gen_text : str) : list str * str * Q :=
  let st := post_pass (parse_loop (lines_of gen_text)) in
  (fst st, snd st, 6 # 10).

Definition indent (n : nat) : str := repeat (chr 32) n.

Definition hit_context (p : Payload) (kb_steps kb_answer : str) : str :=
  lit "Retrieved example:" ++ [nl]
  ++ lit "Question: " ++ fmt (dict_get (p_question p)) ++ [nl]
  ++ lit "Steps: " ++ kb_steps ++ [nl]
  ++ lit "Answer: " ++ kb_answer ++ [nl].

Definition hit_prompt (q level context : str) : str :=
  [nl]
  ++ indent 12 ++ lit "You are a patient math professor." ++ [nl]
  ++ indent 12 ++ lit "The student's question is: " ++ q ++ [nl]
  ++ indent 12
  ++ lit "Use the retrieved example below to produce a clear, step-by-step solution."
  ++ [nl]
  ++ indent 12 ++ lit "Keep it " ++ level ++ lit "." ++ [nl]
  ++ indent 12 ++ lit "Use numbered steps and give the final answer clearly."
  ++ [nl]
  ++ indent 12 ++ context ++ [nl]
  ++ indent 12.

Definition fallback_prompt (q context : str) : str :=
  if truthy context then
    [nl]
    ++ indent 8 ++ lit "You are a helpful math professor." ++ [nl]
    ++ indent 8 ++ lit "Student asked: " ++ q ++ [nl]
    ++ indent 8 ++ lit "Here are some search snippets that might help:" ++ [nl]
    ++ indent 8 ++ context ++ [nl]
    ++ [nl]
    ++ indent 8
    ++ lit "Use this context to provide a clear, step-by-step solution." ++ [nl]
    ++ indent 8
    ++ lit "Number each step and clearly show the 'Final Answer:' at the end."
    ++ [nl]
    ++ indent 8
  else
    [nl]
    ++ indent 8 ++ lit "You are a math professor." ++ [nl]
    ++ indent 8 ++ lit "Student asked: " ++ q ++ [nl]
    ++ indent 8 ++ lit "No relevant context found." ++ [nl]
    ++ indent 8
    ++ lit "Please attempt to solve it step-by-step using standard math rules."
    ++ [nl]
    ++ indent 8.

Definition empty_question : exn :=
  HTTPException 400 (lit "Empty question provided.").

Definition off_domain : exn :=
  HTTPException 400 (lit "This AI agent only supports mathematical questions.").

Definition unsafe_output_hit : exn :=
  HTTPException 400
    (lit "Unsafe or off-topic content detected in model output.").

Definition unsafe_output_fallback : exn :=
  HTTPException 400
    (lit "Unsafe or irrelevant content detected in model output.").

(** The branch taken when the top score reaches the threshold. *)
Definition retrieval_hit (req : AskIn) (q : str) (top : ScoredPoint)
    (score : Q) : Prog AskOut :=
  let payload := payload top in
  let kb_steps := or_empty (dict_get (p_steps payload)) in
  let kb_answer := or_empty (dict_get (p_final_answer payload)) in
  let context := hit_context payload kb_steps kb_answer in
  let prompt := hit_prompt q (explain_level req) context in
  Call_generate_with_gemini prompt None None (fun gen =>
    let '(steps, final_answer, conf) := parse_generation_result gen in
    if negb (output_guardrail (str_of_list steps ++ final_answer)) then
      Raise unsafe_output_hit
    else
      let steps :=
        if truthy steps then steps
        else if truthy kb_steps then [kb_steps] else [] in
      let final_answer :=
        if truthy final_answer then final_answer else kb_answer in
      let reported_conf := round3 (py_max conf score) in
      Ret (mkAskOut steps final_answer [str_of_id (id top)] reported_conf)).

(** The rest of the function, reached on a miss. The local [gen] is bound
    only inside the retrieval-hit branch, which always returns or raises:
    here it holds no value, which [gen = None] records. *)
Definition fallback (q : str) (gen : option str) : Prog AskOut :=
  Call_web_search_fallback q (fun context =>
    let prompt := fallback_prompt q context in
    Call_generate_with_gemini prompt (Some 512%Z) (Some 0%Q) (fun gen_text =>
      let '(steps, final_answer, conf) := parse_generation_result gen_text in
      if negb (output_guardrail (str_of_list steps ++ final_answer)) then
        Raise unsafe_output_fallback
      else if truthy steps then
        Ret (mkAskOut steps final_answer [] (round3 conf))
      else
        match gen with
        | Some g => Ret (mkAskOut [g] final_answer [] (round3 conf))
        | None => Raise (UnboundLocalError (lit "gen"))
        end)).

(** What [ask] does with the hits [kb_search] returned. *)
Definition after_search (cfg : Config) (req : AskIn) (q : str)
    (hits : list ScoredPoint) : Prog AskOut :=
  match hits with
  | top :: _ =>
      let score := top_score top in
      if Qle_bool (KB_THRESHOLD cfg) score then retrieval_hit req q top score
      else fallback q None
  | [] => fallback q None
  end.

Definition ask (cfg : Config) (req : AskIn) : Prog AskOut :=
  let q := strip (question req) in
  if negb (truthy q) then Raise empty_question
  else if negb (input_guardrail q) then Raise off_domain
  else Call_kb_search q (KB_TOPK cfg) (after_search cfg req q).

End Main.

(** ** backend/routes/ask.py *)

Module Routes.

(** [re.match(r'^\d+\.', ln)] *)
Definition match_numbered (ln : str) : bool :=
  match takeWhile isdigit ln with
  | [] => false
  | _ :: _ =>
      match dropWhile isdigit ln with
      | c :: _ => is_char 46 c
      | [] => false
      end
  end.

(** [re.match(r'^(final answer|answer)', ln, re.I)] *)
Definition match_final (ln : str) : bool :=
  match Main.match_literal_nocase (lit "final answer") ln with
  | Some _ => true
  | None =>
      match Main.match_literal_nocase (lit "answer") ln with
      | Some _ => true
      | None => false
      end
  end.

(** [ln.split(':', 1)[-1]]: what follows the first colon, or the whole line
    when it has none. *)
Fixpoint after_first_colon (s : str) : option str :=
  match s with
  | [] => None
  | c :: r => if is_char 58 c then Some r else after_first_colon r
  end.

Definition split_colon_last (ln : str) : str :=
  match after_first_colon ln with
  | Some r => r
  | None => ln
  end.

Definition parse_line (st : list str * str) (ln : str) : list str * str :=
  if match_numbered ln then (fst st ++ [ln], snd st)
  else if match_final ln then (fst st, strip (split_colon_last ln))
  else st.

Definition parse_generation_result (gen_text : str) : list str * str * Q :=
  let st := fold_left parse_line (Main.lines_of gen_text) ([], []) in
  (fst st, snd st, 6 # 10).

Definition only_math : exn :=
  HTTPException 400 (lit "Only math questions are allowed.").

Definition unsafe_output : exn :=
  HTTPException 400 (lit "Unsafe output detected.").

(** [payload[key]] inside the f-string. *)
Definition subscript (key : string) (a : attr str) : exn + str :=
  match a with
  | Absent => inl (KeyError (lit key))
  | PyNone => inr (lit "None")
  | Val s => inr s
  end.

Definition hit_context (p : Payload) : exn + str :=
  match subscript "question" (p_question p) with
  | inl e => inl e
  | inr pq =>
      match subscript "steps" (p_steps p) with
      | inl e => inl e
      | inr ps =>
          match subscript "final_answer" (p_final_answer p) with
          | inl e => inl e
          | inr pa =>
              inr (lit "Question: " ++ pq ++ [nl] ++ lit "Steps: " ++ ps
                   ++ [nl] ++ lit "Answer: " ++ pa)
          end
      end
  end.

Definition hit_prompt (q context : str) : str :=
  lit "Use this context to answer: " ++ q ++ [nl] ++ context ++ [nl]
  ++ lit "Give step-by-step answer and final answer clearly.".

Definition fallback_prompt (q context : str) : str :=
  lit "Student asked: " ++ q ++ [nl] ++ lit "Context: " ++ context ++ [nl]
  ++ lit "Answer step-by-step with 'Final Answer:' line.".

Definition retrieval_hit (q : str) (top : ScoredPoint) (score : Q)
    : Prog AskOut :=
  match hit_context (payload top) with
  | inl e => Raise e
  | inr context =>
      Call_generate_with_gemini (hit_prompt q context) None None
        (fun gen_text =>
           let '(steps, final_answer, conf) :=
             parse_generation_result gen_text in
           if negb (output_guardrail (str_of_list steps ++ final_answer)) then
             Raise unsafe_output
           else
             Ret (mkAskOut steps final_answer [str_of_id (id top)]
                    (round3 (py_max conf score))))
  end.

Definition fallback (q : str) : Prog AskOut :=
  Call_web_search_fallback q (fun context =>
    Call_generate_with_gemini (fallback_prompt q context) None None
      (fun gen_text =>
         let '(steps, final_answer, conf) :=
           parse_generation_result gen_text in
         Ret (mkAskOut steps final_answer [] (round3 conf)))).

Definition after_search (cfg : Config) (q : str) (hits : list ScoredPoint)
    : Prog AskOut :=
  match hits with
  | top :: _ =>
      let score := top_score top in
      if Qle_bool (KB_THRESHOLD cfg) score then retrieval_hit q top score
      else fallback q
  | [] => fallback q
  end.

Definition ask (cfg : Config) (req : AskIn) : Prog AskOut :=
  let q := strip (question req) in
  if negb (truthy q) || negb (input_guardrail q) then Raise only_math
  else Call_kb_search q (KB_TOPK cfg) (after_search cfg q).

End Routes.

(** ** backend/routes/feedback.py *)

Module Feedback.

Record FeedbackIn : Type := mkFeedbackIn {
  in_user_id : str;
  in_question : str;
  in_feedback : option str;
  in_rating : Z
}.

(** One row of [data/feedback_log.csv]: the request and the time it was
    written. *)
Record row : Type := mkRow {
  r_user_id : str;
  r_question : str;
  r_feedback : option str;
  r_rating : Z;
  r_timestamp : str
}.

Definition RETRAIN_TRIGGER_COUNT : Z := 10.

(** The two answers of the endpoint. *)
Inductive message : Type :=
| Recorded
| RecordedRetrainingStarted.

(** [len(df[df["rating"] >= 4])] *)
Definition high_ratings (log : list row) : Z :=
  Z.of_nat (length (filter (fun r => (4 <=? r_rating r)%Z) log)).

(** [feedback], on the rows of the log file: the log after the call, whether
    the retraining script was started, and the answer. [now] is
    [datetime.now().isoformat()]. *)
Definition feedback (now : str) (req : FeedbackIn) (log : list row)
    : list row * bool * message :=
  let log' :=
    log ++ [mkRow (in_user_id req) (in_question req) (in_feedback req)
              (in_rating req) now] in
  if (high_ratings log' mod RETRAIN_TRIGGER_COUNT =? 0)%Z
  then (log', true, RecordedRetrainingStarted)
  else (log', false, Recorded).

(** A sequence of calls, oldest first: the final log and, per call, whether
    retraining was started. *)
Fixpoint feedback_all (reqs : list (str * FeedbackIn)) (log : list row)
    : list row * list bool :=
  match reqs with
  | [] => (log, [])
  | (now, req) :: rest =>
      let '(log', started, _) := feedback now req log in
      let (final, flags) := feedback_all rest log' in
      (final, started :: flags)
  end.

End Feedback.

(** ** backend/jee_evaluator.py *)

Module Evaluator.

(** [re.sub(r'\s+', ' ', s)]: every run of blanks becomes one space;
    [in_run] tells that the previous character was a blank. *)
Fixpoint collapse_blanks_from (in_run : bool) (s : str) : str :=
  match s with
  | [] => []
  | c :: r =>
      if isspace c then
        if in_run then collapse_blanks_from true r
        else chr 32 :: collapse_blanks_from true r
      else c :: collapse_blanks_from false r
  end.

Definition collapse_blanks (s : str) : str := collapse_blanks_from false s.

Definition normalize_text (s : str) : str :=
  lower (collapse_blanks (strip s)).

(** The class [[A-D]] under [re.I]. *)
Definition is_option_letter (c : ascii) : bool :=
  in_range 97 100 (lower_char c).

(** [str.upper] on a letter of that class. *)
Definition upper_option (c : ascii) : ascii := chr (ord (lower_char c) - 32).

(** [re.search(r'\b([A-D])\b', s, flags=re.I)]: group 1 of the first match,
    with the character before the current position. *)
Fixpoint search_option_from (prev : option ascii) (s : str) : option ascii :=
  match s with
  | [] => None
  | c :: r =>
      if is_option_letter c && Main.not_word prev
         && Main.not_word (hd_error r)
      then Some c
      else search_option_from (Some c) r
  end.

Definition extract_first_option (answer_text : str) : str :=
  if negb (truthy answer_text) then []
  else
    match search_option_from None answer_text with
    | Some c => [upper_option c]
    | None => []
    end.

Definition is_sign (c : ascii) : bool := is_char 45 c || is_char 43 c.

(** The three alternatives [\d+\.\d+ | \d+\/\d+ | \d+] at the head of [s],
    tried in that order: the text matched. *)
Definition match_unsigned_number (s : str) : option str :=
  match takeWhile isdigit s with
  | [] => None
  | d :: ds =>
      match dropWhile isdigit s with
      | c :: r =>
          match takeWhile isdigit r with
          | [] => Some (d :: ds)
          | e :: es =>
              if is_char 46 c || is_char 47 c
              then Some ((d :: ds) ++ c :: e :: es)
              else Some (d :: ds)
          end
      | [] => Some (d :: ds)
      end
  end.

(** One of [[-+]?\d+\.\d+ | [-+]?\d+\/\d+ | [-+]?\d+] at the head of [s]. *)
Definition match_number (s : str) : option str :=
  match s with
  | c :: r =>
      if is_sign c then
        match match_unsigned_number r with
        | Some m => Some (c :: m)
        | None => None
        end
      else match_unsigned_number s
  | [] => None
  end.

(** [re.findall]: matches from left to right, none overlapping; [skip] is
    the number of characters still covered by the last match. *)
Fixpoint findall_numbers_from (skip : nat) (s : str) : list str :=
  match s with
  | [] => []
  | _ :: r =>
      match skip with
      | S k => findall_numbers_from k r
      | O =>
          match match_number s with
          | Some m => m :: findall_numbers_from (length m - 1) r
          | None => findall_numbers_from 0 r
          end
      end
  end.

Definition extract_numbers (s : str) : list str :=
  if negb (truthy s) then [] else findall_numbers_from 0 s.

(** The value of a run of decimal digits. *)
Definition Z_of_digits (ds : str) : Z :=
  fold_left (fun acc c => (acc * 10 + Z.of_N (ord c - 48))%Z) ds 0%Z.

(** [float(tok)] for a token [[-+]?\d+(\.\d+)?]. *)
Definition float_of_token (tok : str) : Q :=
  let negative := match tok with c :: _ => is_char 45 c | [] => false end in
  let body := match tok with
              | c :: r => if is_sign c then r else tok
              | [] => []
              end in
  let int_part := takeWhile isdigit body in
  let frac_part := match dropWhile isdigit body with
                   | _ :: f => f
                   | [] => []
                   end in
  let v := (Z_of_digits (int_part ++ frac_part)
            # Pos.of_nat (10 ^ length frac_part))%Q in
  if negative then (- v)%Q else v.

(** [tok.split("/")] for a token with one slash. *)
Definition split_slash (tok : str) : str * str :=
  (takeWhile (fun c => negb (is_char 47 c)) tok,
   match dropWhile (fun c => negb (is_char 47 c)) tok with
   | _ :: d => d
   | [] => []
   end).

(** [parse_num]: [None] when the division raises. *)
Definition parse_num (tok : str) : option Q :=
  if existsb (is_char 47) tok then
    let (n, d) := split_slash tok in
    if Qeq_bool (float_of_token d) 0 then None
    else Some (float_of_token n / float_of_token d)%Q
  else Some (float_of_token tok).

Definition tol : Q := (1 # 1000)%Q.

(** [numeric_equal], in exact arithmetic. The code subtracts doubles: on
    values whose difference lies within a rounding error of [tol], or that
    overflow a double, its answer can differ from this one. No property
    below rests on the value of this test. *)
Definition numeric_equal (a b : str) : bool :=
  if negb (truthy a) || negb (truthy b) then false
  else
    let nums_a := extract_numbers a in
    let nums_b := extract_numbers b in
    if negb (truthy nums_a) || negb (truthy nums_b) then false
    else
      match parse_num (last nums_a []), parse_num (last nums_b []) with
      | Some va, Some vb => Qle_bool (Qabs (va - vb)) tol
      | _, _ => false
      end.

Fixpoint str_eqb (a b : str) : bool :=
  match a, b with
  | [], [] => true
  | x :: a', y :: b' => Ascii.eqb x y && str_eqb a' b'
  | _, _ => false
  end.

(** The three tests of the loop on a non-blank answer: whether it counts as
    a match, and the reason recorded. *)
Definition judge (ai_answer correct_answer : str) : bool * str :=
  let norm_ai := normalize_text ai_answer in
  let norm_gold := normalize_text correct_answer in
  if truthy norm_gold
     && (str_eqb norm_gold norm_ai || contains norm_gold norm_ai
         || contains norm_ai norm_gold)
  then (true, lit "text-eq")
  else
    let opt_ai := extract_first_option ai_answer in
    let opt_gold := extract_first_option correct_answer in
    if truthy opt_ai && truthy opt_gold && str_eqb opt_ai opt_gold
    then (true, lit "option-eq")
    else if numeric_equal ai_answer correct_answer
    then (true, lit "numeric-eq")
    else (false, []).

(** An entry of the dataset, as the loop reads it: [item.get("question",
    "")] and [str(item.get("answer", ""))]. *)
Record item : Type := mkItem {
  item_question : str;
  item_answer : str
}.

Record result : Type := mkResult {
  question : str;
  correct_answer : str;
  ai_answer : str;
  is_match : bool;
  match_reason : str;
  time_sec : Q
}.

Record report : Type := mkReport {
  total_tested : Z;
  correct : Z;
  accuracy_percent : Q;
  avg_response_time : Q;
  results : list result
}.

(** What the evaluation runs against: the dataset file ([None] when it is
    missing), which of the two ways to get an answer is used, the generator
    in evaluation mode, the HTTP backend (the [final_answer] entry of its
    reply), and the time measured for the item at each index. *)
Record EvalEnv : Type := mkEvalEnv {
  dataset : option (list item);
  DIRECT_GENERATOR_AVAILABLE : bool;
  generate_eval : str -> exn + str;
  post_ask : str -> exn + attr str;
  elapsed : nat -> Q
}.

Definition eval_prompt (q : str) : str :=
  lit "Question: " ++ q ++ [nl]
  ++ lit "EVALUATION MODE: Return ONLY THE FINAL ANSWER in one short line.".

(** The answer obtained for a question; every exception is swallowed. *)
Definition get_answer (env : EvalEnv) (q : str) : str :=
  if DIRECT_GENERATOR_AVAILABLE env then
    match generate_eval env (eval_prompt q) with
    | inr a => a
    | inl _ => []
    end
  else
    match post_ask env q with
    | inr a => or_empty (dict_get a)
    | inl _ => []
    end.

(** One turn of the loop: the entry appended to [results]. *)
Definition evaluate_item (env : EvalEnv) (i : nat) (it : item) : result :=
  let q := item_question it in
  let gold := strip (item_answer it) in
  let ai := get_answer env q in
  if negb (truthy (strip ai)) then
    mkResult q gold ai false (lit "empty-output") (elapsed env i)
  else
    let (m, reason) := judge ai gold in
    mkResult q gold ai m reason (elapsed env i).

Fixpoint evaluate_items (env : EvalEnv) (i : nat) (items : list item)
    : list result :=
  match items with
  | [] => []
  | it :: rest => evaluate_item env i it :: evaluate_items env (S i) rest
  end.

(** [l[:n]] *)
Definition slice_to {A} (n : Z) (l : list A) : list A :=
  if (0 <=? n)%Z then firstn (Z.to_nat n) l
  else firstn (length l - Z.to_nat (- n)) l.

(** [round(x, 2)] *)
Definition round2 (x : Q) : Q := (round_half_even (x * 100)%Q # 100)%Q.

Definition sum_Q (l : list Q) : Q := fold_right Qplus 0%Q l.

(** [evaluate_agent]: the report returned (and written to the report file),
    [None] when the function returns nothing. The accuracy is rounded from
    the exact quotient, where the code rounds the double
    [correct / total_to_test * 100]: at a tie the two can differ by one
    hundredth. The properties below only bound the accuracy or hold it
    at 0. *)
Definition evaluate_agent (env : EvalEnv) (limit : Z) : option report :=
  match dataset env with
  | None => None
  | Some data =>
      let total_to_test := Z.min limit (Z.of_nat (length data)) in
      if (total_to_test =? 0)%Z then None
      else
        let results := evaluate_items env 0 (slice_to total_to_test data) in
        let correct :=
          Z.of_nat (length (filter is_match results)) in
        let times := map time_sec results in
        let accuracy :=
          round2 (inject_Z correct / inject_Z total_to_test * 100)%Q in
        let avg_time :=
          if truthy times
          then round2 (sum_Q times / inject_Z (Z.of_nat (length times)))%Q
          else 0%Q in
        Some (mkReport total_to_test correct accuracy avg_time results)
  end.

End Evaluator.

(** ** backend/main.py: the evaluation endpoint *)

Module App.

Inductive failure : Type :=
| NameError (name : str).

Record evaluation : Type := mkEvaluation {
  message : str;
  report : Evaluator.report
}.

(** [evaluate]: [HTTPException] is raised by name in a module that does not
    import it. *)
Definition evaluate (env : Evaluator.EvalEnv) (limit : Z)
    : failure + evaluation :=
  match Evaluator.evaluate_agent env limit with
  | None => inl (NameError (lit "HTTPException"))
  | Some r => inr (mkEvaluation (lit "Evaluation completed") r)
  end.

End App.

(** ** backend/utils/core.py: what [generate_with_gemini] does with the
    text of the model *)

Module Core.

Definition STUDENT : str := lit "student".

(** The instructions put in front of the prompt. *)
Definition directive (mode : str) : str :=
  if Evaluator.str_eqb mode STUDENT then
    lit "INSTRUCTIONS: Return numbered steps and a single 'Final Answer:' line. "
    ++ lit "Do NOT include greetings or extra commentary. Example:" ++ [nl]
    ++ lit "1. Step one..." ++ [nl] ++ lit "2. Step two..." ++ [nl]
    ++ lit "Final Answer: <expression>" ++ [nl]
  else
    lit "You are evaluating a math problem. "
    ++ lit "Return only one line containing the FINAL ANSWER. "
    ++ lit "Do not explain or show steps. "
    ++ lit "For numeric answers, give just the number (e.g., 6, 1/2, 3.14). "
    ++ lit "For MCQs, give the option letter (A, B, C, or D). "
    ++ lit "If unsure, still attempt to give your best single answer.".

Definition full_prompt (mode prompt : str) : str :=
  directive mode ++ [nl; nl] ++ prompt.

Definition greetings : list str :=
  map lit [ "hi"; "hello"; "hey"; "dear student";
            "i'd be happy to help" ]%string.

(** The alternatives of a group under [re.I], tried in order against the
    head of [s]: what follows the first one that matches. *)
Fixpoint match_first_literal (alts : list str) (s : str) : option str :=
  match alts with
  | [] => None
  | a :: rest =>
      match Main.match_literal_nocase a s with
      | Some r => Some r
      | None => match_first_literal rest s
      end
  end.

(** The class [[\.,!\s:-]]. *)
Definition is_greeting_tail (c : ascii) : bool :=
  is_char 46 c || is_char 44 c || is_char 33 c || isspace c
  || is_char 58 c || is_char 45 c.

(** [re.sub] of the greeting pattern, anchored at the start of the text, by
    the empty string. *)
Definition remove_greeting (text : str) : str :=
  match match_first_literal greetings (dropWhile isspace text) with
  | Some r => dropWhile is_greeting_tail r
  | None => text
  end.

(** [re.match(r'^\d+\s*\.', ln)] *)
Definition match_numbered_dot (ln : str) : bool :=
  match takeWhile isdigit ln with
  | [] => false
  | _ :: _ =>
      match dropWhile isspace (dropWhile isdigit ln) with
      | c :: _ => is_char 46 c
      | [] => false
      end
  end.

Definition match_final_prefix_with (keyword ln : str) : bool :=
  match Main.match_literal_nocase keyword ln with
  | Some r =>
      match dropWhile isspace r with
      | c :: _ => is_char 58 c || is_char 45 c
      | [] => false
      end
  | None => false
  end.

(** [re.match(r'^(final answer|answer)\s*[:\-]', ln, flags=re.I)] *)
Definition match_final_prefix (ln : str) : bool :=
  match_final_prefix_with (lit "final answer") ln
  || match_final_prefix_with (lit "answer") ln.

(** The three tests of the first pass, on a stripped line. *)
Definition keep_line (ln_strip : str) : bool :=
  if match_numbered_dot ln_strip then true
  else if match_final_prefix ln_strip then true
  else Main.search_math ln_strip.

(** [re.search(r'\d|\+|\-|\=|\^|/|\*', ln)] *)
Definition looks_numeric (ln : str) : bool :=
  existsb (fun c => isdigit c || is_char 43 c || is_char 45 c || is_char 61 c
                    || is_char 94 c || is_char 47 c || is_char 42 c) ln.

(** The test of the second pass, on a line. *)
Definition salvage_line (ln : str) : bool :=
  (length (strip ln) <=? 120)%nat && looks_numeric ln.

(** The student mode: greeting removed, then the lines that look like
    steps, final answers or math; failing that the short lines with a digit
    or an operator; failing that the first six lines that are not blank. *)
Definition student_text (text : str) : str :=
  let text := remove_greeting text in
  let lines := map rstrip (splitlines text) in
  let first_pass := filter keep_line (map strip lines) in
  let filtered_lines :=
    if truthy first_pass then first_pass
    else
      let second_pass := map strip (filter salvage_line lines) in
      if truthy second_pass then second_pass
      else firstn 6 (map strip (filter (fun ln => truthy (strip ln)) lines)) in
  strip (join [nl] filtered_lines).

(** [s.strip('. ')] *)
Definition is_dot_or_space (c : ascii) : bool := is_char 46 c || is_char 32 c.

Definition strip_dots (s : str) : str :=
  rev (dropWhile is_dot_or_space (rev (dropWhile is_dot_or_space s))).

(** The first line with a final-answer pattern: group 2 of the match. *)
Fixpoint first_final (lines : list str) : option str :=
  match lines with
  | [] => None
  | ln :: rest =>
      match Main.match_final ln with
      | Some g => Some g
      | None => first_final rest
      end
  end.

(** The class [[\)\].:\s-]]. *)
Definition is_option_tail (c : ascii) : bool :=
  is_char 41 c || is_char 93 c || is_char 46 c || is_char 58 c || isspace c
  || is_char 45 c.

(** [re.match(r'^[\(\[]?([A-D])[\)\].:\s-]+', ln, flags=re.I)]: group 1. *)
Definition match_option_line (ln : str) : option ascii :=
  let body :=
    match ln with
    | c :: r => if is_char 40 c || is_char 91 c then r else ln
    | [] => []
    end in
  match body with
  | c :: d :: _ =>
      if Evaluator.is_option_letter c && is_option_tail d then Some c
      else None
  | _ => None
  end.

Fixpoint first_option (lines : list str) : option ascii :=
  match lines with
  | [] => None
  | ln :: rest =>
      match match_option_line ln with
      | Some c => Some c
      | None => first_option rest
      end
  end.

(** [\d*\.?\d+\/?\d*] at the head of [s]: the text matched. *)
Definition match_eval_unsigned (s : str) : option str :=
  let d1 := takeWhile isdigit s in
  let r1 := dropWhile isdigit s in
  let with_tail (body rest : str) : str :=
    match rest with
    | c :: r => if is_char 47 c then body ++ c :: takeWhile isdigit r
                else body
    | [] => body
    end in
  let integer : option str :=
    if truthy d1 then Some (with_tail d1 r1) else None in
  match r1 with
  | c :: r2 =>
      if is_char 46 c && truthy (takeWhile isdigit r2)
      then Some (with_tail (d1 ++ c :: takeWhile isdigit r2)
                   (dropWhile isdigit r2))
      else integer
  | [] => integer
  end.

(** [[-+]?\d*\.?\d+\/?\d*] at the head of [s]. *)
Definition match_eval_number (s : str) : option str :=
  match s with
  | c :: r =>
      if Evaluator.is_sign c then
        match match_eval_unsigned r with
        | Some m => Some (c :: m)
        | None => None
        end
      else match_eval_unsigned s
  | [] => None
  end.

(** [re.findall] of that pattern; [skip] as in the evaluator. *)
Fixpoint findall_eval_from (skip : nat) (s : str) : list str :=
  match s with
  | [] => []
  | _ :: r =>
      match skip with
      | S k => findall_eval_from k r
      | O =>
          match match_eval_number s with
          | Some m => m :: findall_eval_from (length m - 1) r
          | None => findall_eval_from 0 r
          end
      end
  end.

(** Every other mode: one short answer. *)
Definition eval_text (text : str) : str :=
  let lines := Main.lines_of text in
  if negb (truthy lines) then []
  else
    match first_final lines with
    | Some g => strip_dots (strip g)
    | None =>
        match first_option lines with
        | Some c => [Evaluator.upper_option c]
        | None =>
            let nums := findall_eval_from 0 text in
            if truthy nums then strip (last nums [])
            else firstn 200 (hd [] lines)
        end
    end.

(** From [text = text.strip()] to the end of the function. *)
Definition clean (mode text : str) : str :=
  let text := strip text in
  if Evaluator.str_eqb mode STUDENT then student_text text
  else eval_text text.

(** [generate_with_gemini(prompt, mode=mode)], the request to the model and
    the reading of its reply left to [call_model]. *)
Definition generate_with_gemini (call_model : str -> exn + str)
    (prompt mode : str) : exn + str :=
  match call_model (full_prompt mode prompt) with
  | inl e => inl e
  | inr text => inr (clean mode text)
  end.

End Core.
(** ** backend/backend/utils.py: the generator behind backend/backend/main.py *)

Module Utils.

(** [generate_with_gemini(prompt)]: the text of the model, stripped; the
    request to the model and the reading of its reply are left to
    [call_model]. *)
Definition generate_with_gemini (call_model : str -> exn + str)
    (prompt : str) : exn + str :=
  match call_model prompt with
  | inl e => inl e
  | inr text => inr (strip text)
  end.

End Utils.

(** ** Vocabulary of the specification *)

(** A keyword occurs in a text, letter case ignored. *)
Definition occurs_nocase (kw text : str) : Prop :=
  exists pre post, lower text = pre ++ kw ++ post.

(** The parsed text the output guardrail is run on holds a keyword of the
    deny-list, letter case ignored. *)
Definition unsafe_text (parsed : list str * str * Q) : Prop :=
  exists kw,
    In kw banned_keywords
    /\ occurs_nocase kw (str_of_list (fst (fst parsed)) ++ snd (fst parsed)).

(** A question that is empty or holds only blanks. *)
Definition blank (s : str) : Prop := forallb isspace s = true.

(** The retrieval client returned at least one hit and the score of the top
    hit reaches the configured threshold. *)
Definition good_hit (cfg : Config) (hits : list ScoredPoint) : Prop :=
  exists top rest,
    hits = top :: rest /\ (KB_THRESHOLD cfg <= top_score top)%Q.

(** The prompt the retrieval-hit branch of [backend/backend/main.py] sends
    to the generator. *)
Definition main_hit_prompt_for (req : AskIn) (q : str) (top : ScoredPoint)
    : str :=
  Main.hit_prompt q (explain_level req)
    (Main.hit_context (payload top)
       (or_empty (dict_get (p_steps (payload top))))
       (or_empty (dict_get (p_final_answer (payload top))))).

(** A text with no blank at its start. *)
Definition no_lead (s : str) : bool :=
  match s with
  | [] => true
  | c :: _ => negb (isspace c)
  end.

(** A text with no blank at either end: what [strip] leaves unchanged. *)
Definition trimmed (s : str) : bool := no_lead s && no_lead (rev s).

(** A text with no line boundary in it. *)
Definition one_line (s : str) : bool :=
  forallb (fun c => negb (is_linebreak c)) s.

Definition tidy (s : str) : bool := trimmed s && one_line s.

(** What the parser keeps: steps and final answer are single lines with no
    blank at either end. *)
Definition tidy_state (st : list str * str) : Prop :=
  Forall (fun s => tidy s = true) (fst st) /\ tidy (snd st) = true.

(** The step a line adds in the loop of [backend/backend/main.py], if any. *)
Definition step_of_line (ln : str) : option str :=
  match Main.match_numbered ln with
  | Some g => Some (strip g)
  | None =>
      match Main.match_final ln with
      | Some _ => None
      | None => if Main.search_math ln then Some ln else None
      end
  end.

Definition steps_of_lines (lines : list str) : list str :=
  flat_map (fun ln => match step_of_line ln with
                      | Some s => [s]
                      | None => []
                      end) lines.

(** The line is taken as a final-answer line by the loop of
    [backend/backend/main.py]. *)
Definition captures_final (ln : str) : bool :=
  match Main.match_numbered ln with
  | Some _ => false
  | None =>
      match Main.match_final ln with
      | Some _ => true
      | None => false
      end
  end.

(** The same for the loop of [routes/ask.py]. *)
Definition routes_captures_final (ln : str) : bool :=
  negb (Routes.match_numbered ln) && Routes.match_final ln.

(** A short closing expression: only letters, digits, the operators
    [- + / * ^], parentheses, blanks, periods and underscores, in at most
    eight blank-separated tokens. *)
Definition short_expression (s : str) : bool :=
  Main.match_final_class s && (count_tokens s <=? 8)%nat.

(** A generation with nothing the parser of [backend/backend/main.py]
    keeps: no numbered line, no final-answer line, no math marker. *)
Definition filler (txt : str) : Prop :=
  Forall (fun ln => Main.match_numbered ln = None
                    /\ Main.match_final ln = None
                    /\ Main.search_math ln = false) (Main.lines_of txt).

(** The same for the parser of [routes/ask.py]. *)
Definition routes_filler (txt : str) : Prop :=
  Forall (fun ln => Routes.match_numbered ln = false
                    /\ Routes.match_final ln = false) (Main.lines_of txt).

(** The steps written back as numbered lines, counting from [k]. *)
Fixpoint numbered_lines (k : nat) (steps : list str) : list str :=
  match steps with
  | [] => []
  | s :: rest => (str_of_nat k ++ lit ". " ++ s) :: numbered_lines (S k) rest
  end.

(** A parse result written back as text: the numbered steps, then the
    final-answer line. *)
Definition reconstruct (steps : list str) (final_answer : str) : str :=
  join [nl] (numbered_lines 1 steps ++ [lit "Final Answer: " ++ final_answer]).

(** ** Scenarios *)

(** A retrieval hit scored 0.91, and the generation of the worked example. *)
Definition scenario_env : Env :=
  mkEnv
    (fun _ _ =>
       inr [mkScoredPoint (IdInt 17) (Val (91 # 100)%Q)
              (mkPayload (Val (lit "Differentiate x^3"))
                         (Val (lit "Use the power rule"))
                         (Val (lit "3x^2")))])
    (fun _ => inr [])
    (fun _ _ _ =>
       inr (lit "1. Apply power rule" ++ [nl] ++ lit "2. d/dx(x^3)=3x^2"
            ++ [nl] ++ lit "Final Answer: 3x^2")).

Definition scenario_req : AskIn :=
  mkAskIn (lit "Differentiate f(x) = x^3") (lit "detailed") None.

(** No hit, no snippet, and a generator that answers with a given text. *)
Definition miss_env (gen_text : str) : Env :=
  mkEnv (fun _ _ => inr []) (fun _ => inr []) (fun _ _ _ => inr gen_text).

Definition solve_req : AskIn :=
  mkAskIn (lit "Solve x + 1 = 2") (lit "detailed") None.

Definition integrate_req : AskIn :=
  mkAskIn (lit "Integrate 2x dx") (lit "detailed") None.

Definition integrate_generation : str :=
  lit "1. Use power rule of integration." ++ [nl]
  ++ lit "Final Answer: x^2 + C".

Definition unsafe_generation : str :=
  lit "1. hack the exam server" ++ [nl] ++ lit "Final Answer: 42".

Definition filler_generation : str :=
  lit "Sure, I am happy to help with that.".

(** A retrieval hit whose stored steps hold a deny-listed keyword, and a
    generator that answers with filler. *)
Definition tainted_hit : ScoredPoint :=
  mkScoredPoint (IdInt 3) (Val (95 # 100)%Q)
    (mkPayload (Val (lit "Solve x + 1 = 2"))
               (Val (lit "hack the answer key"))
               (Val (lit "x = 1"))).

Definition tainted_env : Env :=
  mkEnv (fun _ _ => inr [tainted_hit]) (fun _ => inr [])
        (fun _ _ _ => inr filler_generation).

(** ** Vocabulary and scenarios of the feedback route, the evaluator and
    the generator *)

(** Every blank of the text is one space, none next to another;
    [prev_blank] tells that a blank comes just before. *)
Fixpoint single_spaced (prev_blank : bool) (s : str) : bool :=
  match s with
  | [] => true
  | c :: r =>
      if isspace c then negb prev_blank && is_char 32 c && single_spaced true r
      else single_spaced false r
  end.
(** The last character of a text, if any. *)
Definition last_char (s : str) : option ascii := hd_error (rev s).

(** An evaluation environment whose generator always fails. *)
Definition failing_eval_env (data : list Evaluator.item) : Evaluator.EvalEnv :=
  Evaluator.mkEvalEnv (Some data) true
    (fun _ => inl (CollaboratorError (lit "generation failed")))
    (fun _ => inl (CollaboratorError (lit "no backend")))
    (fun _ => 0%Q).

Definition two_items : list Evaluator.item :=
  [Evaluator.mkItem (lit "What is 2 + 2?") (lit "4");
   Evaluator.mkItem (lit "Solve x + 1 = 2") (lit "1")].

(** The characters of a number as the evaluation mode reads them. *)
Definition is_number_char (c : ascii) : bool :=
  isdigit c || Evaluator.is_sign c || is_char 46 c || is_char 47 c.

(** An evaluation whose generator answers every prompt with [a]. *)
Definition constant_eval_env (a : str) (data : list Evaluator.item)
    : Evaluator.EvalEnv :=
  Evaluator.mkEvalEnv (Some data) true (fun _ => inr a)
    (fun _ => inl (CollaboratorError (lit "no backend"))) (fun _ => 1%Q).

(** Two lists of lines that differ by blanks at the end of a line and by
    one blank line at the end: what a blank added at the end of a text
    does to its lines. *)
Fixpoint same_lines (a b : list str) : Prop :=
  match a, b with
  | [], [] => True
  | l1 :: r1, l2 :: r2 =>
      (exists blanks, l1 = l2 ++ blanks /\ forallb isspace blanks = true)
      /\ same_lines r1 r2
  | l1 :: r1, [] => forallb isspace l1 = true /\ r1 = []
  | [], _ :: _ => False
  end.

(** The first line of [splitlines (c :: r)] when [c] is no line boundary. *)
Definition prepend (c : ascii) (lines : list str) : list str :=
  match lines with
  | [] => [[c]]
  | l :: ls => (c :: l) :: ls
  end.

(** A retrieval hit stored without its steps and its final answer, and a
    generator that answers with a worked solution. *)
Definition bare_hit : ScoredPoint :=
  mkScoredPoint (IdInt 5) (Val (90 # 100)%Q)
    (mkPayload (Val (lit "Solve x + 1 = 2")) Absent Absent).

Definition bare_env : Env :=
  mkEnv (fun _ _ => inr [bare_hit]) (fun _ => inr [])
        (fun _ _ _ =>
           inr (lit "1. Subtract 1 on both sides" ++ [nl]
                ++ lit "Final Answer: x = 1")).

(** Ten feedbacks rated 5. *)
Definition ten_high_ratings : list (str * Feedback.FeedbackIn) :=
  repeat (lit "2024-01-01T00:00:00",
          Feedback.mkFeedbackIn (lit "u1") (lit "Solve x + 1 = 2") None 5)
    10.

(** A configuration with the threshold lowered to 0.5, and a retrieval hit
    scored 0.55, under the parser's 0.6. *)
Definition lenient_config : Config := mkConfig (1 # 2) 3.

Definition weak_hit : ScoredPoint :=
  mkScoredPoint (IdStr (lit "kb-9")) (Val (55 # 100)%Q)
    (mkPayload (Val (lit "Differentiate x^3"))
               (Val (lit "Use the power rule"))
               (Val (lit "3x^2"))).

Definition weak_hit_env : Env :=
  mkEnv (fun _ _ => inr [weak_hit]) (fun _ => inr [])
        (fun _ _ _ =>
           inr (lit "1. Apply power rule" ++ [nl]
                ++ lit "Final Answer: 3x^2")).
(** A reply with an empty final-answer line and a line the parser of
    [backend/backend/main.py] passes over. *)
Definition unanswered_generation : str :=
  lit "Final Answer:" ++ [nl] ++ lit "42".

Definition unanswered_env : Env :=
  mkEnv (fun _ _ => inr [tainted_hit]) (fun _ => inr [])
        (fun _ _ _ => inr unanswered_generation).

(** A retrieval hit stored with none of its three fields. *)
Definition empty_payload_hit : ScoredPoint :=
  mkScoredPoint (IdInt 6) (Val (90 # 100)%Q) (mkPayload Absent Absent Absent).

Definition empty_payload_env : Env :=
  mkEnv (fun _ _ => inr [empty_payload_hit]) (fun _ => inr [])
        (fun _ _ _ => inr unanswered_generation).
(** * Properties *)

Unset Implicit Arguments.

(** ** Lists *)

Lemma filter_all_true {A} (f : A -> bool) (l : list A) :
  Forall (fun x => f x = true) l -> filter f l = l.
Proof.
  induction l as [|a l IH]; intros H; [reflexivity|].
  inversion H as [|? ? Ha Hl]; subst. simpl. rewrite Ha. now rewrite IH.
Qed.

Lemma filter_all_false {A} (f : A -> bool) (l : list A) :
  (forall x, In x l -> f x = false) -> filter f l = [].
Proof.
  induction l as [|a l IH]; intros H; [reflexivity|].
  simpl. rewrite (H a (or_introl eq_refl)). apply IH.
  intros x Hx. apply H. now right.
Qed.

Lemma Forall_removelast {A} (P : A -> Prop) (l : list A) :
  Forall P l -> Forall P (removelast l).
Proof.
  induction l as [|a l IH]; intros H; [constructor|].
  inversion H; subst. simpl. destruct l; [constructor|].
  constructor; [assumption|]. now apply IH.
Qed.

Lemma Forall_last {A} (P : A -> Prop) (l : list A) (d : A) :
  Forall P l -> P d -> P (last l d).
Proof.
  induction l as [|a l IH]; intros H Hd; [exact Hd|].
  inversion H; subst. simpl. destruct l; [assumption|]. now apply IH.
Qed.

(** ** Characters *)

Ltac char_cases c :=
  destruct c as [[|] [|] [|] [|] [|] [|] [|] [|]];
  try reflexivity; try (vm_compute; discriminate).

Lemma digit_not_space (c : ascii) : isdigit c = true -> isspace c = false.
Proof. char_cases c. Qed.

Lemma space_not_digit (c : ascii) : isspace c = true -> isdigit c = false.
Proof. char_cases c. Qed.

Lemma digit_not_linebreak (c : ascii) :
  isdigit c = true -> is_linebreak c = false.
Proof. char_cases c. Qed.

Lemma is_char_eq (n : N) (c : ascii) : is_char n c = true -> c = chr n.
Proof.
  unfold is_char, ord, chr. intros H. apply N.eqb_eq in H. subst n.
  symmetry. apply ascii_N_embedding.
Qed.

Lemma step_mark_cases (p : ascii) :
  is_char 46 p || is_char 41 p = true -> p = chr 46 \/ p = chr 41.
Proof.
  intros H. apply orb_true_iff in H as [H|H]; apply is_char_eq in H; auto.
Qed.

Lemma repr_char_letter (c : ascii) :
  is_ascii_lower (lower_char c) = true ->
  repr_char squote c = [c] /\ repr_char dquote c = [c].
Proof.
  destruct c as [[|] [|] [|] [|] [|] [|] [|] [|]];
    try (intros _; split; reflexivity); vm_compute; discriminate.
Qed.

(** ** Substrings and lower case *)

Lemma starts_with_app (p s : str) :
  starts_with p s = true <-> exists post, s = p ++ post.
Proof.
  revert s; induction p as [|a p IH]; intros s; simpl.
  - split; [intros _; now exists s | reflexivity].
  - destruct s as [|b s].
    + split; [discriminate | intros [post H]; discriminate].
    + rewrite andb_true_iff, IH. split.
      * intros [Hab [post ->]]. apply Ascii.eqb_eq in Hab. subst. now exists post.
      * intros [post H]. injection H as -> ->. split.
        -- apply Ascii.eqb_refl.
        -- now exists post.
Qed.

(** [sub in s] holds exactly when [sub] is a contiguous part of [s]. *)
Lemma contains_substring (sub s : str) :
  contains sub s = true <-> exists pre post, s = pre ++ sub ++ post.
Proof.
  induction s as [|c s IH].
  - simpl. rewrite orb_false_r, starts_with_app. split.
    + intros [post H]. now exists [], post.
    + intros [pre [post H]]. destruct pre; [now exists post|discriminate].
  - simpl contains. rewrite orb_true_iff, starts_with_app, IH. split.
    + intros [[post H]|[pre [post H]]].
      * now exists [], post.
      * exists (c :: pre), post. now rewrite H.
    + intros [pre [post H]]. destruct pre as [|d pre].
      * left. now exists post.
      * right. injection H as _ H. now exists pre, post.
Qed.

Lemma lower_app (a b : str) : lower (a ++ b) = lower a ++ lower b.
Proof. apply map_app. Qed.

(** ** Stripping *)

Lemma dropWhile_suffix (p : ascii -> bool) (s : str) :
  exists pre, s = pre ++ dropWhile p s /\ forallb p pre = true.
Proof.
  induction s as [|c s [pre [IH1 IH2]]]; simpl.
  - now exists [].
  - destruct (p c) eqn:E.
    + exists (c :: pre). simpl. rewrite E, IH2. split; [now f_equal|reflexivity].
    + now exists [].
Qed.

Lemma dropWhile_nil_iff (p : ascii -> bool) (s : str) :
  dropWhile p s = [] <-> forallb p s = true.
Proof.
  induction s as [|c s IH]; simpl.
  - tauto.
  - destruct (p c); simpl; [exact IH|]. split; discriminate.
Qed.

Lemma dropWhile_app_all (p : ascii -> bool) (a x : str) :
  forallb p a = true -> dropWhile p (a ++ x) = dropWhile p x.
Proof.
  induction a as [|c a IH]; simpl; [trivial|].
  intros H. apply andb_true_iff in H as [H1 H2]. rewrite H1. now apply IH.
Qed.

Lemma dropWhile_app (p : ascii -> bool) (x y : str) :
  dropWhile p (x ++ y)
  = match dropWhile p x with
    | [] => dropWhile p y
    | d :: ds => (d :: ds) ++ y
    end.
Proof.
  induction x as [|c x IH]; simpl.
  - now destruct (dropWhile p y).
  - destruct (p c); [exact IH|reflexivity].
Qed.

Lemma forallb_rev (p : ascii -> bool) (s : str) :
  forallb p (rev s) = forallb p s.
Proof.
  induction s as [|c s IH]; simpl; [reflexivity|].
  rewrite forallb_app, IH. simpl. rewrite andb_true_r. apply andb_comm.
Qed.

Lemma forallb_dropWhile (q p : ascii -> bool) (s : str) :
  forallb q s = true -> forallb q (dropWhile p s) = true.
Proof.
  induction s as [|c s IH]; simpl; [trivial|].
  intros H. apply andb_true_iff in H as [H1 H2].
  destruct (p c); [now apply IH|]. simpl. now rewrite H1, H2.
Qed.

(** [rstrip] removes a run of blanks at the end. *)
Lemma rstrip_prefix (s : str) :
  exists post, s = rstrip s ++ post /\ forallb isspace post = true.
Proof.
  unfold rstrip. destruct (dropWhile_suffix isspace (rev s)) as [pre [H1 H2]].
  exists (rev pre). split.
  - rewrite <- rev_app_distr, <- H1. now rewrite rev_involutive.
  - rewrite forallb_forall in *. intros x Hx. apply H2. now apply in_rev.
Qed.

(** [strip] keeps a contiguous part of the text. *)
Lemma strip_infix (s : str) : exists pre post, s = pre ++ strip s ++ post.
Proof.
  unfold strip, lstrip.
  destruct (dropWhile_suffix isspace s) as [pre [H1 _]].
  destruct (rstrip_prefix (dropWhile isspace s)) as [post [H2 _]].
  exists pre, post. now rewrite <- H2.
Qed.

Lemma rstrip_nil_iff (s : str) : rstrip s = [] <-> forallb isspace s = true.
Proof.
  unfold rstrip. rewrite <- (forallb_rev isspace s), <- dropWhile_nil_iff.
  split; intros H.
  - apply (f_equal (@rev ascii)) in H. now rewrite rev_involutive in H.
  - now rewrite H.
Qed.

(** A question is rejected as empty exactly when it is empty or blank. *)
Lemma strip_nil_iff (s : str) : strip s = [] <-> blank s.
Proof.
  unfold strip, blank, lstrip. rewrite rstrip_nil_iff. split; intros H.
  - destruct (dropWhile_suffix isspace s) as [pre [H1 H2]].
    rewrite H1, forallb_app, H2, H. reflexivity.
  - now apply forallb_dropWhile.
Qed.

Lemma truthy_strip (s : str) : truthy (strip s) = true <-> ~ blank s.
Proof.
  rewrite <- strip_nil_iff. destruct (strip s); simpl; split; intros H;
    try discriminate; try reflexivity.
  now contradict H.
Qed.

Lemma no_lead_lstrip (s : str) : no_lead s = true -> lstrip s = s.
Proof.
  unfold lstrip. destruct s as [|c s]; simpl; [trivial|].
  intros H. apply negb_true_iff in H. now rewrite H.
Qed.

Lemma lstrip_no_lead (s : str) : no_lead (lstrip s) = true.
Proof.
  unfold lstrip. induction s as [|c s IH]; simpl; [reflexivity|].
  destruct (isspace c) eqn:E; [exact IH|]. simpl. now rewrite E.
Qed.

Lemma rstrip_id (s : str) : no_lead (rev s) = true -> rstrip s = s.
Proof.
  intros H. unfold rstrip. change (dropWhile isspace (rev s)) with (lstrip (rev s)).
  rewrite (no_lead_lstrip _ H). apply rev_involutive.
Qed.

Lemma rstrip_app_blank (x b : str) :
  forallb isspace b = true -> rstrip (x ++ b) = rstrip x.
Proof.
  intros H. unfold rstrip. rewrite rev_app_distr, dropWhile_app_all; trivial.
  now rewrite forallb_rev.
Qed.

Lemma rstrip_app_nonspace (a rest : str) (p : ascii) :
  isspace p = false -> rstrip (a ++ p :: rest) = a ++ p :: rstrip rest.
Proof.
  intros Hp. unfold rstrip.
  replace (rev (a ++ p :: rest)) with ((rev rest ++ [p]) ++ rev a)
    by (rewrite rev_app_distr; simpl; reflexivity).
  assert (E : dropWhile isspace (rev rest ++ [p])
              = dropWhile isspace (rev rest) ++ [p]).
  { rewrite dropWhile_app. destruct (dropWhile isspace (rev rest)); simpl;
      [now rewrite Hp | reflexivity]. }
  rewrite dropWhile_app, E.
  destruct (dropWhile isspace (rev rest) ++ [p]) eqn:F.
  - destruct (dropWhile isspace (rev rest)); discriminate.
  - rewrite <- F, !rev_app_distr, rev_involutive. simpl. reflexivity.
Qed.

Lemma strip_trimmed (s : str) : trimmed (strip s) = true.
Proof.
  unfold trimmed. apply andb_true_iff. split.
  - unfold strip. pose proof (lstrip_no_lead s) as H.
    destruct (rstrip_prefix (lstrip s)) as [post [E _]].
    destruct (rstrip (lstrip s)) as [|c x]; [reflexivity|].
    rewrite E in H. exact H.
  - unfold strip, rstrip. rewrite rev_involutive. apply lstrip_no_lead.
Qed.

Lemma strip_id (s : str) : trimmed s = true -> strip s = s.
Proof.
  unfold trimmed. intros H. apply andb_true_iff in H as [H1 H2].
  unfold strip. rewrite (no_lead_lstrip s H1). now apply rstrip_id.
Qed.

Lemma strip_app_blank_l (a x : str) :
  forallb isspace a = true -> strip (a ++ x) = strip x.
Proof. intros H. unfold strip, lstrip. now rewrite dropWhile_app_all. Qed.

Lemma strip_app_blank_r (x b : str) :
  forallb isspace b = true -> strip (x ++ b) = strip x.
Proof.
  intros H. unfold strip, lstrip. rewrite dropWhile_app.
  destruct (dropWhile isspace x) eqn:E.
  - apply dropWhile_nil_iff in H. now rewrite H.
  - now apply rstrip_app_blank.
Qed.

Lemma strip_lstrip (s : str) : strip (lstrip s) = strip s.
Proof.
  destruct (dropWhile_suffix isspace s) as [pre [E H]].
  rewrite E at 2. now rewrite strip_app_blank_l.
Qed.

Lemma strip_rstrip (s : str) : strip (rstrip s) = strip s.
Proof.
  destruct (rstrip_prefix s) as [post [E H]].
  rewrite E at 2. now rewrite strip_app_blank_r.
Qed.

Lemma forallb_rstrip (q : ascii -> bool) (s : str) :
  forallb q s = true -> forallb q (rstrip s) = true.
Proof.
  intros H. destruct (rstrip_prefix s) as [post [E _]].
  rewrite E, forallb_app in H. now apply andb_true_iff in H as [H _].
Qed.

Lemma forallb_strip (q : ascii -> bool) (s : str) :
  forallb q s = true -> forallb q (strip s) = true.
Proof.
  intros H. unfold strip, lstrip. now apply forallb_rstrip, forallb_dropWhile.
Qed.

Lemma strip_tidy (s : str) : one_line s = true -> tidy (strip s) = true.
Proof.
  intros H. unfold tidy. rewrite strip_trimmed. simpl.
  now apply forallb_strip.
Qed.

(** ** Splitting into lines *)

Lemma splitlines_break (l rest : str) :
  one_line l = true -> splitlines (l ++ nl :: rest) = l :: splitlines rest.
Proof.
  induction l as [|c l IH]; intros H.
  - simpl app. destruct rest; reflexivity.
  - simpl in H. apply andb_true_iff in H as [Hc Hl].
    apply negb_true_iff in Hc.
    simpl app. simpl splitlines. rewrite Hc.
    change (splitlines (l ++ nl :: rest)) with (splitlines (l ++ nl :: rest)).
    now rewrite (IH Hl).
Qed.

Lemma splitlines_single (l : str) :
  one_line l = true -> l <> [] -> splitlines l = [l].
Proof.
  induction l as [|c l IH]; intros H Hne; [congruence|].
  simpl in H. apply andb_true_iff in H as [Hc Hl].
  apply negb_true_iff in Hc. simpl. rewrite Hc.
  destruct l as [|d l]; [reflexivity|].
  now rewrite (IH Hl) by discriminate.
Qed.

Lemma splitlines_join (lines : list str) :
  Forall (fun l => one_line l = true /\ l <> []) lines ->
  splitlines (join [nl] lines) = lines.
Proof.
  induction lines as [|l rest IH]; intros H; [reflexivity|].
  inversion H as [|? ? [Hl Hne] Hrest]; subst.
  destruct rest as [|l2 rest].
  - simpl. now apply splitlines_single.
  - change (join [nl] (l :: l2 :: rest)) with (l ++ nl :: join [nl] (l2 :: rest)).
    rewrite (splitlines_break _ _ Hl). f_equal. now apply IH.
Qed.

Lemma splitlines_one_line (s : str) :
  Forall (fun l => one_line l = true) (splitlines s).
Proof.
  remember (length s) as n eqn:Hn.
  assert (Hle : (length s <= n)%nat) by lia. clear Hn. revert s Hle.
  induction n as [|n IH]; intros s Hle.
  - destruct s; [constructor|simpl in Hle; lia].
  - destruct s as [|c r]; [constructor|]. simpl in Hle.
    simpl. destruct (is_linebreak c) eqn:Hc.
    + destruct r as [|d r']; [repeat constructor|].
      destruct (is_char 13 c && is_char 10 d); constructor; try reflexivity;
        apply IH; simpl in *; lia.
    + assert (Hr : Forall (fun l => one_line l = true) (splitlines r))
        by (apply IH; lia).
      destruct (splitlines r) as [|l ls].
      * repeat constructor. simpl. now rewrite Hc.
      * inversion Hr; subst. constructor; trivial. simpl. rewrite Hc. assumption.
Qed.

(** ** Decimal numerals *)

Lemma string_of_uint_digits (u : Decimal.uint) :
  forallb isdigit (lit (NilEmpty.string_of_uint u)) = true.
Proof. induction u; simpl; trivial. Qed.

Lemma str_of_nat_digits (k : nat) :
  forallb isdigit (str_of_nat k) = true /\ str_of_nat k <> [].
Proof.
  split; [apply string_of_uint_digits|].
  unfold str_of_nat. intros H.
  assert (E : Nat.to_uint k = Decimal.Nil).
  { destruct (Nat.to_uint k); try discriminate. reflexivity. }
  pose proof (DecimalNat.Unsigned.of_to k) as Hk. rewrite E in Hk.
  simpl in Hk. subst k. discriminate.
Qed.

(** ** Floats *)

Lemma py_max_spec (a b : Q) :
  (a <= py_max a b)%Q /\ (b <= py_max a b)%Q
  /\ (py_max a b = a \/ py_max a b = b).
Proof.
  unfold py_max. destruct (a ?= b)%Q eqn:E.
  - apply Qeq_alt in E. repeat split; [apply Qle_refl | rewrite E; apply Qle_refl | now left].
  - apply Qlt_alt in E. repeat split; [now apply Qlt_le_weak | apply Qle_refl | now right].
  - apply Qgt_alt in E. repeat split; [apply Qle_refl | now apply Qlt_le_weak | now left].
Qed.

Lemma py_max_Qmax (a b : Q) : py_max a b = Qmax a b.
Proof. reflexivity. Qed.

Lemma round_half_even_close (y : Q) :
  (y - (1 # 2) <= inject_Z (round_half_even y) <= y + (1 # 2))%Q.
Proof.
  unfold round_half_even.
  pose proof (Qfloor_le y) as Hlo. pose proof (Qlt_floor y) as Hhi.
  rewrite inject_Z_plus in Hhi. change (inject_Z 1) with 1%Q in Hhi.
  destruct (y - inject_Z (Qfloor y) ?= 1 # 2)%Q eqn:E.
  - apply Qeq_alt in E. destruct (Z.even (Qfloor y));
      [|rewrite inject_Z_plus; change (inject_Z 1) with 1%Q]; lra.
  - apply Qlt_alt in E. lra.
  - apply Qgt_alt in E. rewrite inject_Z_plus. change (inject_Z 1) with 1%Q. lra.
Qed.

(** [round3 x] is a multiple of one thousandth, within half a thousandth of [x]. *)
Lemma round3_close (x : Q) :
  (x - (1 # 2000) <= round3 x <= x + (1 # 2000))%Q.
Proof.
  unfold round3. pose proof (round_half_even_close (x * 1000)) as H.
  set (r := round_half_even (x * 1000)) in *.
  rewrite (Qmake_Qdiv r 1000). 
  change (inject_Z (Z.pos 1000)) with 1000%Q.
  unfold Qdiv. change (/ 1000)%Q with (1 # 1000)%Q. lra.
Qed.

(** ** Guardrail filter *)

Lemma input_guardrail_spec (text : str) :
  input_guardrail text = true <->
  exists kw, In kw allowed_keywords /\ occurs_nocase kw text.
Proof.
  unfold input_guardrail, occurs_nocase. rewrite existsb_exists.
  split; intros [kw [Hin H]]; exists kw; split; trivial;
    now apply contains_substring.
Qed.

Lemma output_guardrail_spec (text : str) :
  output_guardrail text = false <->
  exists kw, In kw banned_keywords /\ occurs_nocase kw text.
Proof.
  unfold output_guardrail, occurs_nocase.
  rewrite negb_false_iff, existsb_exists.
  split; intros [kw [Hin H]]; exists kw; split; trivial;
    now apply contains_substring.
Qed.

(** [output_guardrail] rejects a text exactly when its lower-cased form
    contains a keyword of the deny-list as a substring. *)
Theorem output_guardrail_rejects_iff (text : str) :
  output_guardrail text = false <->
  exists kw pre post,
    In kw banned_keywords /\ lower text = pre ++ kw ++ post.
Proof.
  rewrite output_guardrail_spec. unfold occurs_nocase. split.
  - intros [kw [Hin [pre [post H]]]]. now exists kw, pre, post.
  - intros [kw [pre [post [Hin H]]]]. exists kw. split; [exact Hin|].
    now exists pre, post.
Qed.

Lemma occurs_nocase_strip (kw text : str) :
  occurs_nocase kw (strip text) -> occurs_nocase kw text.
Proof.
  intros [pre [post H]]. destruct (strip_infix text) as [a [b Hs]].
  exists (lower a ++ pre), (post ++ lower b).
  rewrite Hs at 1. rewrite !lower_app, H. now rewrite <- !app_assoc.
Qed.

Lemma occurs_nocase_infix (kw a t b : str) :
  occurs_nocase kw t -> occurs_nocase kw (a ++ t ++ b).
Proof.
  intros [pre [post H]]. exists (lower a ++ pre), (post ++ lower b).
  rewrite !lower_app, H. now rewrite <- !app_assoc.
Qed.

Lemma input_guardrail_no_keyword (text : str) :
  (forall kw, In kw allowed_keywords -> ~ occurs_nocase kw text) ->
  input_guardrail (strip text) = false.
Proof.
  intros H. destruct (input_guardrail (strip text)) eqn:E; [|reflexivity].
  apply input_guardrail_spec in E as [kw [Hin Hoc]].
  exfalso. apply (H kw Hin). now apply occurs_nocase_strip.
Qed.

Lemma repr_letters (q : ascii) (m : str) :
  q = squote \/ q = dquote ->
  forallb is_ascii_lower (lower m) = true ->
  flat_map (repr_char q) m = m.
Proof.
  intros Hq. induction m as [|c m IH]; intros H; [reflexivity|].
  simpl in H. apply andb_true_iff in H as [Hc Hm].
  cbn [flat_map]. rewrite (IH Hm).
  destruct (repr_char_letter c Hc) as [H1 H2].
  destruct Hq as [-> | ->]; [now rewrite H1 | now rewrite H2].
Qed.

(** [repr] keeps every run of letters of the string as it is. *)
Lemma repr_keeps_keyword (kw s : str) :
  forallb is_ascii_lower kw = true ->
  occurs_nocase kw s -> occurs_nocase kw (repr_str s).
Proof.
  intros Hkw [pre [post H]]. unfold lower in H.
  apply map_eq_app in H as [a [mb [-> [Ha H]]]].
  apply map_eq_app in H as [m [b [-> [Hm Hb]]]].
  unfold repr_str.
  set (q := if existsb (Ascii.eqb squote) (a ++ m ++ b)
               && negb (existsb (Ascii.eqb dquote) (a ++ m ++ b))
            then dquote else squote).
  assert (Hq : q = squote \/ q = dquote).
  { unfold q. destruct (_ && _); auto. }
  rewrite !flat_map_app, (repr_letters q m Hq) by (unfold lower; now rewrite Hm).
  change (q :: (flat_map (repr_char q) a ++ m ++ flat_map (repr_char q) b)
               ++ [q])
    with ((q :: flat_map (repr_char q) a ++ m ++ flat_map (repr_char q) b)
            ++ [q]).
  replace ((q :: flat_map (repr_char q) a ++ m ++ flat_map (repr_char q) b)
             ++ [q])
    with ((q :: flat_map (repr_char q) a) ++ m
          ++ (flat_map (repr_char q) b ++ [q]))
    by (simpl; now rewrite <- !app_assoc).
  apply occurs_nocase_infix. exists [], []. unfold lower.
  now rewrite Hm, app_nil_r.
Qed.

Lemma join_infix (sep x : str) (l : list str) :
  In x l -> exists pre post, join sep l = pre ++ x ++ post.
Proof.
  induction l as [|y l IH]; intros H; [destruct H|].
  destruct H as [-> | H].
  - destruct l as [|z l].
    + exists [], []. simpl. now rewrite app_nil_r.
    + exists [], (sep ++ join sep (z :: l)). reflexivity.
  - destruct (IH H) as [pre [post E]]. destruct l as [|z l]; [destruct H|].
    exists (y ++ sep ++ pre), post.
    change (join sep (y :: z :: l)) with (y ++ sep ++ join sep (z :: l)).
    rewrite E. now rewrite <- !app_assoc.
Qed.

Lemma banned_keywords_letters :
  forallb (forallb is_ascii_lower) banned_keywords = true.
Proof. reflexivity. Qed.

(** A deny-listed keyword inside a parsed step, or inside the final answer,
    is seen by the output guardrail in [str(steps) + final_answer]. *)
Lemma unsafe_step_or_answer (steps : list str) (fa : str) (conf : Q)
    (kw : str) :
  In kw banned_keywords ->
  (exists s, In s steps /\ occurs_nocase kw s) \/ occurs_nocase kw fa ->
  unsafe_text (steps, fa, conf).
Proof.
  intros Hkw H. exists kw. split; [exact Hkw|]. cbn [fst snd].
  destruct H as [[s [Hin Hoc]] | Hoc].
  - pose proof banned_keywords_letters as Hl. rewrite forallb_forall in Hl.
    apply (repr_keeps_keyword kw s (Hl kw Hkw)) in Hoc.
    destruct (join_infix (lit ", ") (repr_str s) (map repr_str steps))
      as [pre [post E]]; [now apply in_map|].
    unfold str_of_list. rewrite E.
    replace ((lit "[" ++ (pre ++ repr_str s ++ post) ++ lit "]") ++ fa)
      with ((lit "[" ++ pre) ++ repr_str s ++ (post ++ lit "]" ++ fa))
      by now rewrite <- !app_assoc.
    now apply occurs_nocase_infix.
  - rewrite <- (app_nil_r fa). now apply occurs_nocase_infix.
Qed.

(** ** Result parser: the numbered-step pattern *)

Lemma match_numbered_shape (ds sp : str) (p : ascii) (r : str) :
  ds <> [] -> forallb isdigit ds = true -> forallb isspace sp = true ->
  is_char 46 p || is_char 41 p = true ->
  Main.match_numbered (ds ++ sp ++ p :: r) = Some (lstrip r).
Proof.
  intros Hne Hds Hsp Hp.
  assert (Hpd : isdigit p = false /\ isspace p = false).
  { destruct (step_mark_cases p Hp) as [-> | ->]; split; reflexivity. }
  destruct Hpd as [Hpd Hps].
  unfold Main.match_numbered.
  destruct ds as [|d ds]; [congruence|].
  simpl in Hds. apply andb_true_iff in Hds as [Hd Hds].
  simpl app. simpl takeWhile. rewrite Hd.
  simpl dropWhile. rewrite Hd.
  rewrite (dropWhile_app_all isdigit ds _ Hds).
  assert (E : dropWhile isdigit (sp ++ p :: r) = sp ++ p :: r).
  { destruct sp as [|c sp]; simpl.
    - now rewrite Hpd.
    - simpl in Hsp. apply andb_true_iff in Hsp as [Hc _].
      now rewrite (space_not_digit c Hc). }
  rewrite E, (dropWhile_app_all isspace sp _ Hsp).
  simpl. rewrite Hps, Hp. reflexivity.
Qed.

(** A numbered line, as the loop meets it: group 2 is the text after the
    numeral and its mark, up to blanks. *)
Lemma match_numbered_line (ws ds sp rest : str) (p : ascii) :
  forallb isspace ws = true ->
  ds <> [] -> forallb isdigit ds = true ->
  forallb isspace sp = true ->
  is_char 46 p || is_char 41 p = true ->
  Main.match_numbered (strip (ws ++ ds ++ sp ++ p :: rest))
  = Some (lstrip (rstrip rest)).
Proof.
  intros Hws Hne Hds Hsp Hp.
  assert (Hps : isspace p = false).
  { destruct (step_mark_cases p Hp) as [-> | ->]; reflexivity. }
  assert (E : strip (ws ++ ds ++ sp ++ p :: rest)
              = ds ++ sp ++ p :: rstrip rest).
  { rewrite (strip_app_blank_l ws _ Hws). unfold strip.
    rewrite no_lead_lstrip.
    - rewrite app_assoc, (rstrip_app_nonspace (ds ++ sp) rest p Hps).
      now rewrite <- app_assoc.
    - destruct ds as [|d ds]; [congruence|]. simpl in Hds |- *.
      apply andb_true_iff in Hds as [Hd _].
      now rewrite (digit_not_space d Hd). }
  rewrite E. exact (match_numbered_shape ds sp p (rstrip rest) Hne Hds Hsp Hp).
Qed.

(** The step appended for it is that text, stripped. *)
Lemma main_parse_line_numbered (st : list str * str) (ws ds sp rest : str)
    (p : ascii) :
  forallb isspace ws = true ->
  ds <> [] -> forallb isdigit ds = true ->
  forallb isspace sp = true ->
  is_char 46 p || is_char 41 p = true ->
  Main.parse_line st (strip (ws ++ ds ++ sp ++ p :: rest))
  = (fst st ++ [strip rest], snd st).
Proof.
  intros Hws Hne Hds Hsp Hp. unfold Main.parse_line.
  rewrite (match_numbered_line ws ds sp rest p Hws Hne Hds Hsp Hp).
  now rewrite strip_lstrip, strip_rstrip.
Qed.

Lemma match_numbered_suffix (q : ascii -> bool) (ln g : str) :
  Main.match_numbered ln = Some g ->
  forallb q ln = true -> forallb q g = true.
Proof.
  unfold Main.match_numbered. intros H Hq.
  destruct (takeWhile isdigit ln); [discriminate|].
  pose proof (forallb_dropWhile q isspace _
                (forallb_dropWhile q isdigit ln Hq)) as Hd.
  destruct (dropWhile isspace (dropWhile isdigit ln)) as [|c r]; [discriminate|].
  destruct (is_char 46 c || is_char 41 c); [|discriminate].
  injection H as <-. simpl in Hd. apply andb_true_iff in Hd as [_ Hd].
  now apply forallb_dropWhile.
Qed.

(** ** Result parser: the final-answer pattern *)

Lemma match_literal_nocase_app (l r : str) :
  Main.match_literal_nocase (lower l) (l ++ r) = Some r.
Proof.
  induction l as [|c l IH]; simpl.
  - reflexivity.
  - now rewrite Ascii.eqb_refl.
Qed.

Lemma match_literal_nocase_suffix (q : ascii -> bool) (kw s r : str) :
  Main.match_literal_nocase kw s = Some r ->
  forallb q s = true -> forallb q r = true.
Proof.
  revert s. induction kw as [|a kw IH]; intros s H Hq.
  - simpl in H. now injection H as <-.
  - destruct s as [|b s]; simpl in H; [discriminate|].
    destruct (Ascii.eqb a (lower_char b)); [|discriminate].
    simpl in Hq. apply andb_true_iff in Hq as [_ Hq]. now apply (IH s).
Qed.

Lemma match_separator_suffix (q : ascii -> bool) (r g : str) :
  Main.match_separator r = Some g ->
  forallb q r = true -> forallb q g = true.
Proof.
  unfold Main.match_separator. intros H Hq.
  pose proof (forallb_dropWhile q isspace r Hq) as Hd.
  destruct (dropWhile isspace r) as [|c r']; [discriminate|].
  destruct (is_char 58 c || is_char 45 c); [|discriminate].
  injection H as <-. simpl in Hd. apply andb_true_iff in Hd as [_ Hd].
  now apply forallb_dropWhile.
Qed.

Lemma match_final_suffix (q : ascii -> bool) (ln g : str) :
  Main.match_final ln = Some g ->
  forallb q ln = true -> forallb q g = true.
Proof.
  unfold Main.match_final, Main.match_final_with. intros H Hq.
  destruct (Main.match_literal_nocase (lit "final answer") ln) as [r|] eqn:E1.
  - destruct (Main.match_separator r) as [g'|] eqn:E2.
    + injection H as <-.
      eapply match_separator_suffix; [exact E2|].
      eapply match_literal_nocase_suffix; [exact E1|exact Hq].
    + destruct (Main.match_literal_nocase (lit "answer") ln) as [r'|] eqn:E3;
        [|discriminate].
      eapply match_separator_suffix; [exact H|].
      eapply match_literal_nocase_suffix; [exact E3|exact Hq].
  - destruct (Main.match_literal_nocase (lit "answer") ln) as [r'|] eqn:E3;
      [|discriminate].
    eapply match_separator_suffix; [exact H|].
    eapply match_literal_nocase_suffix; [exact E3|exact Hq].
Qed.

(** The final-answer line of a reconstruction, as the loop meets it. *)
Lemma main_parse_line_final (st : list str * str) (fa : str) :
  Main.parse_line st (strip (lit "Final Answer: " ++ fa))
  = (fst st, strip fa).
Proof.
  assert (E : strip (lit "Final Answer: " ++ fa)
              = lit "Final Answer" ++ chr 58 :: rstrip (chr 32 :: fa)).
  { unfold strip. rewrite no_lead_lstrip by reflexivity.
    change (lit "Final Answer: " ++ fa)
      with (lit "Final Answer" ++ chr 58 :: (chr 32 :: fa)).
    now rewrite rstrip_app_nonspace by reflexivity. }
  rewrite E. unfold Main.parse_line.
  replace (Main.match_numbered
             (lit "Final Answer" ++ chr 58 :: rstrip (chr 32 :: fa)))
    with (@None str) by reflexivity.
  unfold Main.match_final, Main.match_final_with.
  change (lit "final answer") with (lower (lit "Final Answer")).
  rewrite match_literal_nocase_app.
  change (Main.match_separator (chr 58 :: rstrip (chr 32 :: fa)))
    with (Some (lstrip (rstrip (chr 32 :: fa)))).
  cbv beta iota.
  rewrite strip_lstrip, strip_rstrip.
  change (chr 32 :: fa) with ([chr 32] ++ fa).
  now rewrite (strip_app_blank_l [chr 32] fa) by reflexivity.
Qed.

(** ** Result parser: the loop over the lines *)

Lemma main_loop_steps (lines : list str) (st : list str * str) :
  fst (fold_left Main.parse_line lines st) = fst st ++ steps_of_lines lines.
Proof.
  revert st. induction lines as [|ln lines IH]; intros st.
  - simpl. now rewrite app_nil_r.
  - cbn [fold_left]. rewrite IH. unfold steps_of_lines. cbn [flat_map].
    unfold Main.parse_line, step_of_line.
    destruct (Main.match_numbered ln) as [g|].
    + cbn [fst]. now rewrite <- app_assoc.
    + destruct (Main.match_final ln) as [g|]; [reflexivity|].
      destruct (Main.search_math ln); [|reflexivity].
      cbn [fst]. now rewrite <- app_assoc.
Qed.

Lemma main_loop_final_kept (lines : list str) (st : list str * str) :
  Forall (fun ln => captures_final ln = false) lines ->
  snd (fold_left Main.parse_line lines st) = snd st.
Proof.
  revert st. induction lines as [|ln lines IH]; intros st H; [reflexivity|].
  inversion H as [|? ? Hln Hrest]; subst. cbn [fold_left]. rewrite (IH _ Hrest).
  unfold captures_final in Hln. unfold Main.parse_line.
  destruct (Main.match_numbered ln); [reflexivity|].
  destruct (Main.match_final ln); [discriminate|].
  now destruct (Main.search_math ln).
Qed.

Lemma routes_loop_steps (lines : list str) (st : list str * str) :
  fst (fold_left Routes.parse_line lines st)
  = fst st ++ filter Routes.match_numbered lines.
Proof.
  revert st. induction lines as [|ln lines IH]; intros st.
  - simpl. now rewrite app_nil_r.
  - cbn [fold_left filter]. rewrite IH. unfold Routes.parse_line.
    destruct (Routes.match_numbered ln).
    + cbn [fst]. now rewrite <- app_assoc.
    + now destruct (Routes.match_final ln).
Qed.

Lemma routes_loop_final_kept (lines : list str) (st : list str * str) :
  Forall (fun ln => routes_captures_final ln = false) lines ->
  snd (fold_left Routes.parse_line lines st) = snd st.
Proof.
  revert st. induction lines as [|ln lines IH]; intros st H; [reflexivity|].
  inversion H as [|? ? Hln Hrest]; subst. cbn [fold_left]. rewrite (IH _ Hrest).
  unfold routes_captures_final in Hln. unfold Routes.parse_line.
  destruct (Routes.match_numbered ln); [reflexivity|].
  destruct (Routes.match_final ln); [discriminate|reflexivity].
Qed.

Lemma parse_loop_numbered_lines (steps : list str) (k : nat)
    (st : list str * str) :
  Forall (fun s => trimmed s = true) steps ->
  fold_left Main.parse_line (map strip (numbered_lines k steps)) st
  = (fst st ++ steps, snd st).
Proof.
  revert k st. induction steps as [|s steps IH]; intros k st H.
  - simpl. rewrite app_nil_r. now destruct st.
  - inversion H as [|? ? Hs Hrest]; subst.
    cbn [numbered_lines map fold_left].
    destruct (str_of_nat_digits k) as [Hd Hne].
    assert (E : Main.parse_line st (strip (str_of_nat k ++ lit ". " ++ s))
                = (fst st ++ [s], snd st)).
    { pose proof (main_parse_line_numbered st [] (str_of_nat k) []
                    ([chr 32] ++ s) (chr 46) eq_refl Hne Hd eq_refl eq_refl)
        as E.
      rewrite (strip_app_blank_l [chr 32] s) in E by reflexivity.
      rewrite (strip_id s Hs) in E. exact E. }
    rewrite E, (IH (S k) _ Hrest). cbn [fst snd].
    now rewrite <- app_assoc.
Qed.

Lemma fold_parse_line_filler (lines : list str) (st : list str * str) :
  Forall (fun ln => Main.match_numbered ln = None
                    /\ Main.match_final ln = None
                    /\ Main.search_math ln = false) lines ->
  fold_left Main.parse_line lines st = st.
Proof.
  revert st. induction lines as [|ln lines IH]; intros st H; [reflexivity|].
  inversion H as [|? ? [H1 [H2 H3]] Hrest]; subst. cbn [fold_left].
  unfold Main.parse_line at 2. rewrite H1, H2, H3. now apply IH.
Qed.

(** The parser of [backend/backend/main.py] absorbs a generation it keeps
    nothing of: no step, an empty final answer, confidence 0.6. *)
Lemma main_parse_filler (txt : str) :
  filler txt -> Main.parse_generation_result txt = ([], [], (6 # 10)%Q).
Proof.
  intros H. unfold Main.parse_generation_result, Main.parse_loop.
  now rewrite (fold_parse_line_filler _ _ H).
Qed.

(** Empty input to the parser. *)
Lemma parse_empty :
  Main.parse_generation_result [] = ([], [], (6 # 10)%Q).
Proof. reflexivity. Qed.

Lemma main_parse_conf (g : str) : snd (Main.parse_generation_result g) = (6 # 10)%Q.
Proof. reflexivity. Qed.

Lemma routes_parse_conf (g : str) : snd (Routes.parse_generation_result g) = (6 # 10)%Q.
Proof. reflexivity. Qed.

(** C6, as the code has it. In [backend/backend/main.py], a line made of
    optional blanks, digits, optional blanks, a period or a closing
    parenthesis, and then any text adds to the steps exactly that text,
    stripped, and not the line with its numeral; the steps are what the lines
    add, in line order. The parser of [routes/ask.py] keeps whole lines: its
    steps are the stripped lines that start with digits directly followed by
    a period, numeral included, in line order. *)
Theorem numbered_line_content_appended :
  (forall (st : list str * str) (ws ds sp rest : str) (p : ascii),
      forallb isspace ws = true ->
      ds <> [] -> forallb isdigit ds = true ->
      forallb isspace sp = true ->
      is_char 46 p || is_char 41 p = true ->
      Main.parse_line st (strip (ws ++ ds ++ sp ++ p :: rest))
      = (fst st ++ [strip rest], snd st)
      /\ step_of_line (strip (ws ++ ds ++ sp ++ p :: rest))
         = Some (strip rest))
  /\ (forall txt : str,
        fst (Main.parse_loop (Main.lines_of txt))
        = steps_of_lines (Main.lines_of txt))
  /\ (forall txt : str,
        fst (fst (Routes.parse_generation_result txt))
        = filter Routes.match_numbered (Main.lines_of txt)).
Proof.
  split; [|split].
  - intros st ws ds sp rest p Hws Hne Hds Hsp Hp. split.
    + now apply main_parse_line_numbered.
    + unfold step_of_line.
      rewrite (match_numbered_line ws ds sp rest p Hws Hne Hds Hsp Hp).
      now rewrite strip_lstrip, strip_rstrip.
  - intros txt. unfold Main.parse_loop. now rewrite main_loop_steps.
  - intros txt. unfold Routes.parse_generation_result. cbn [fst].
    now rewrite routes_loop_steps.
Qed.

Lemma numbered_line_content_appended_witness :
  Main.parse_line ([lit "first"], lit "x") (strip (lit "  2)  add C  "))
  = ([lit "first"; lit "add C"], lit "x").
Proof.
  destruct numbered_line_content_appended as [H _].
  destruct (H ([lit "first"], lit "x") (lit "  ") (lit "2") []
              (lit "  add C  ") (chr 41)) as [E _];
    [reflexivity | discriminate | reflexivity | reflexivity | reflexivity |].
  exact E.
Defined.

(** C6 as stated fails on [routes/ask.py]: the line "1. Apply power rule"
    matches the pattern with content "Apply power rule", and that parser
    appends the whole line; the line "2) Simplify" matches the pattern too
    and is dropped. *)
Lemma routes_keeps_numeral :
  fst (fst (Routes.parse_generation_result (lit "1. Apply power rule")))
  = [lit "1. Apply power rule"]
  /\ fst (fst (Routes.parse_generation_result (lit "1. Apply power rule")))
     <> [lit "Apply power rule"]
  /\ fst (fst (Routes.parse_generation_result (lit "2) Simplify"))) = [].
Proof. repeat split; vm_compute; try reflexivity; discriminate. Qed.

(** ** Result parser: the guess after the loop *)

(** The guess made after the loop is made once: it leaves its own result
    unchanged. *)
Lemma post_pass_idempotent (st : list str * str) :
  Main.post_pass (Main.post_pass st) = Main.post_pass st.
Proof.
  unfold Main.post_pass at 2 3.
  destruct (negb (truthy (snd st)) && truthy (fst st)) eqn:E1.
  - destruct (Main.match_final_class (last (fst st) [])
              && (count_tokens (last (fst st) []) <=? 8)%nat) eqn:E2.
    + unfold Main.post_pass. simpl fst. simpl snd.
      apply andb_true_iff in E2 as [E2 _]. unfold Main.match_final_class in E2.
      apply andb_true_iff in E2 as [E2 _]. rewrite E2. reflexivity.
    + unfold Main.post_pass. now rewrite E1, E2.
  - unfold Main.post_pass. now rewrite E1.
Qed.

(** X7. The guess after the loop, applied to a parse result, changes
    nothing: a second pass never promotes a second step. *)
Theorem post_pass_runs_once (txt : str) :
  Main.post_pass
    (fst (fst (Main.parse_generation_result txt)),
     snd (fst (Main.parse_generation_result txt)))
  = (fst (fst (Main.parse_generation_result txt)),
     snd (fst (Main.parse_generation_result txt))).
Proof.
  unfold Main.parse_generation_result. cbn [fst snd].
  rewrite <- surjective_pairing. apply post_pass_idempotent.
Qed.

(** C7, as the code has it. In [backend/backend/main.py], when no line was
    taken as a final-answer line and the loop collected at least one step,
    the last step is made the final answer and removed from the steps
    exactly when it is a short closing expression (only letters, digits,
    [- + / * ^], parentheses, blanks, periods and underscores; at most eight
    tokens); otherwise steps and final answer are returned as the loop left
    them. The parser of [routes/ask.py] has no such pass: it returns the
    lines it kept as steps, and an empty final answer when no line was taken
    as a final-answer line. *)
Theorem last_step_promoted :
  (forall txt : str,
      Forall (fun ln => captures_final ln = false) (Main.lines_of txt) ->
      fst (Main.parse_loop (Main.lines_of txt)) <> [] ->
      Main.parse_generation_result txt
      = let steps := fst (Main.parse_loop (Main.lines_of txt)) in
        if short_expression (last steps [])
        then (removelast steps, last steps [], (6 # 10)%Q)
        else (steps, [], (6 # 10)%Q))
  /\ (forall txt : str,
        Forall (fun ln => routes_captures_final ln = false)
          (Main.lines_of txt) ->
        Routes.parse_generation_result txt
        = (filter Routes.match_numbered (Main.lines_of txt), [], (6 # 10)%Q)).
Proof.
  split.
  - intros txt Hf Hs. unfold Main.parse_generation_result, Main.post_pass.
    unfold Main.parse_loop in *.
    rewrite (main_loop_final_kept _ _ Hf). cbn [snd truthy negb andb].
    destruct (fst (fold_left Main.parse_line (Main.lines_of txt) ([], [])))
      as [|s steps] eqn:E; [congruence|].
    cbn [truthy]. unfold short_expression. cbv zeta.
    destruct (Main.match_final_class (last (s :: steps) [])
              && (count_tokens (last (s :: steps) []) <=? 8)%nat).
    + reflexivity.
    + cbn [fst snd]. rewrite E, (main_loop_final_kept _ _ Hf). reflexivity.
  - intros txt Hf. unfold Routes.parse_generation_result.
    rewrite routes_loop_steps, (routes_loop_final_kept _ _ Hf). reflexivity.
Qed.

Lemma last_step_promoted_witness :
  Main.parse_generation_result
    (lit "1. Add the exponents" ++ [nl] ++ lit "2. x^5")
  = ([lit "Add the exponents"], lit "x^5", (6 # 10)%Q).
Proof.
  destruct last_step_promoted as [H _].
  rewrite (H (lit "1. Add the exponents" ++ [nl] ++ lit "2. x^5")).
  - reflexivity.
  - repeat constructor.
  - discriminate.
Defined.

(** C7 as stated fails on [routes/ask.py]: for the text "1. 42" no
    final-answer line is captured, the only step "1. 42" is a short closing
    expression, and it is not promoted. *)
Lemma routes_never_promotes :
  short_expression (lit "1. 42") = true
  /\ Routes.parse_generation_result (lit "1. 42")
     = ([lit "1. 42"], [], (6 # 10)%Q)
  /\ Routes.parse_generation_result (lit "1. 42")
     <> ([], lit "1. 42", (6 # 10)%Q).
Proof. repeat split; vm_compute; try reflexivity; discriminate. Qed.

(** ** Result parser: what it returns is tidy *)

Lemma lines_of_tidy (txt : str) :
  Forall (fun ln => tidy ln = true) (Main.lines_of txt).
Proof.
  unfold Main.lines_of. apply Forall_map.
  apply Forall_forall. intros l Hl. apply filter_In in Hl as [Hl _].
  apply strip_tidy.
  pose proof (splitlines_one_line txt) as H.
  rewrite Forall_forall in H. now apply H.
Qed.

Lemma parse_line_tidy (st : list str * str) (ln : str) :
  tidy_state st -> tidy ln = true -> tidy_state (Main.parse_line st ln).
Proof.
  intros [Hs Hf] Hln. unfold Main.parse_line.
  assert (Hone : one_line ln = true).
  { unfold tidy in Hln. now apply andb_true_iff in Hln as [_ H]. }
  destruct (Main.match_numbered ln) as [g|] eqn:E1.
  - split; [|exact Hf]. simpl. apply Forall_app. split; [exact Hs|].
    constructor; [|constructor]. apply strip_tidy.
    exact (match_numbered_suffix _ ln g E1 Hone).
  - destruct (Main.match_final ln) as [g|] eqn:E2.
    + split; [exact Hs|]. simpl. apply strip_tidy.
      exact (match_final_suffix _ ln g E2 Hone).
    + destruct (Main.search_math ln); [|now split].
      split; [|exact Hf]. simpl. apply Forall_app. split; [exact Hs|].
      now repeat constructor.
Qed.

Lemma fold_parse_line_tidy (lines : list str) (st : list str * str) :
  Forall (fun ln => tidy ln = true) lines -> tidy_state st ->
  tidy_state (fold_left Main.parse_line lines st).
Proof.
  revert st. induction lines as [|ln lines IH]; intros st Hl Hst; [exact Hst|].
  inversion Hl; subst. simpl. apply IH; trivial. now apply parse_line_tidy.
Qed.

Lemma post_pass_tidy (st : list str * str) :
  tidy_state st -> tidy_state (Main.post_pass st).
Proof.
  intros [Hs Hf]. unfold Main.post_pass.
  destruct (negb (truthy (snd st)) && truthy (fst st)); [|now split].
  destruct (Main.match_final_class (last (fst st) [])
            && (count_tokens (last (fst st) []) <=? 8)%nat); [|now split].
  split; simpl.
  - now apply Forall_removelast.
  - now apply (Forall_last (fun s => tidy s = true)).
Qed.

Lemma parse_result_tidy (txt : str) :
  tidy_state (Main.post_pass (Main.parse_loop (Main.lines_of txt))).
Proof.
  apply post_pass_tidy, fold_parse_line_tidy.
  - apply lines_of_tidy.
  - split; [constructor|reflexivity].
Qed.

(** X4. Every step and the final answer returned by the parser of
    [backend/backend/main.py] is a single line with no blank at either end. *)
Theorem parsed_fields_are_stripped_lines (txt : str) :
  Forall (fun s => tidy s = true)
    (fst (fst (Main.parse_generation_result txt)))
  /\ tidy (snd (fst (Main.parse_generation_result txt))) = true.
Proof. exact (parse_result_tidy txt). Qed.

(** ** Result parser: reconstruction *)

Lemma numbered_lines_one_line (steps : list str) (k : nat) :
  Forall (fun s => tidy s = true) steps ->
  Forall (fun l => one_line l = true /\ l <> []) (numbered_lines k steps).
Proof.
  revert k. induction steps as [|s steps IH]; intros k H; [constructor|].
  inversion H as [|? ? Hs Hrest]; subst. simpl. constructor; [|now apply IH].
  destruct (str_of_nat_digits k) as [Hd Hne]. split.
  - unfold one_line. rewrite !forallb_app. apply andb_true_iff. split.
    + rewrite forallb_forall in Hd |- *. intros c Hc.
      now rewrite (digit_not_linebreak c (Hd c Hc)).
    + simpl. unfold tidy in Hs. now apply andb_true_iff in Hs as [_ Hs].
  - destruct (str_of_nat k); [congruence|discriminate].
Qed.

Lemma numbered_lines_not_blank (steps : list str) (k : nat) :
  Forall (fun l => truthy (strip l) = true) (numbered_lines k steps).
Proof.
  revert k. induction steps as [|s steps IH]; intros k; [constructor|].
  simpl. constructor; [|apply IH].
  apply truthy_strip. unfold blank.
  destruct (str_of_nat_digits k) as [Hd Hne].
  destruct (str_of_nat k) as [|d ds]; [congruence|].
  simpl in Hd |- *. apply andb_true_iff in Hd as [Hd _].
  rewrite (digit_not_space d Hd). discriminate.
Qed.

Lemma lines_of_reconstruct (steps : list str) (fa : str) :
  Forall (fun s => tidy s = true) steps -> tidy fa = true ->
  Main.lines_of (reconstruct steps fa)
  = map strip (numbered_lines 1 steps)
    ++ [strip (lit "Final Answer: " ++ fa)].
Proof.
  intros Hs Hf. unfold Main.lines_of, reconstruct.
  rewrite splitlines_join.
  - rewrite filter_all_true; [now rewrite map_app|].
    apply Forall_app. split; [apply numbered_lines_not_blank|].
    constructor; [|constructor]. apply truthy_strip. unfold blank. discriminate.
  - apply Forall_app. split; [now apply numbered_lines_one_line|].
    constructor; [|constructor]. split; [|discriminate].
    unfold one_line. rewrite forallb_app. apply andb_true_iff. split;
      [reflexivity|].
    unfold tidy in Hf. now apply andb_true_iff in Hf as [_ Hf].
Qed.

Lemma parse_loop_reconstruct (steps : list str) (fa : str) :
  Forall (fun s => tidy s = true) steps -> tidy fa = true ->
  Main.parse_loop (Main.lines_of (reconstruct steps fa)) = (steps, fa).
Proof.
  intros Hs Hf. unfold Main.parse_loop.
  rewrite (lines_of_reconstruct steps fa Hs Hf), fold_left_app.
  rewrite parse_loop_numbered_lines.
  - cbn [fold_left]. rewrite main_parse_line_final. cbn [fst snd app].
    f_equal. apply strip_id. unfold tidy in Hf.
    now apply andb_true_iff in Hf as [Hf _].
  - eapply Forall_impl; [|exact Hs]. intros s H. unfold tidy in H.
    now apply andb_true_iff in H as [H _].
Qed.

(** C8. The parser of [backend/backend/main.py] is idempotent under
    reconstruction: writing the steps of any parse result back as the lines
    "1. ...", "2. ...", followed by a "Final Answer: ..." line, and parsing
    that text yields the same steps, the same final answer (and the same
    confidence). *)
Theorem parse_reconstruct_idempotent (txt : str) :
  Main.parse_generation_result
    (reconstruct (fst (fst (Main.parse_generation_result txt)))
                 (snd (fst (Main.parse_generation_result txt))))
  = Main.parse_generation_result txt.
Proof.
  destruct (parse_result_tidy txt) as [Hs Hf].
  unfold Main.parse_generation_result. cbn [fst snd].
  rewrite (parse_loop_reconstruct _ _ Hs Hf).
  set (P := Main.post_pass (Main.parse_loop (Main.lines_of txt))).
  assert (E : Main.post_pass (fst P, snd P) = P).
  { rewrite <- surjective_pairing. apply post_pass_idempotent. }
  rewrite E. reflexivity.
Qed.

(** ** Orchestrator: validation *)

(** A request that passes validation goes on to the retrieval call, and
    [after_search] is what is done with the hits. *)
Lemma main_ask_valid (cfg : Config) (req : AskIn) :
  ~ blank (question req) ->
  input_guardrail (strip (question req)) = true ->
  Main.ask cfg req
  = Call_kb_search (strip (question req)) (KB_TOPK cfg)
      (Main.after_search cfg req (strip (question req))).
Proof.
  intros Hb Hg. apply truthy_strip in Hb. unfold Main.ask.
  now rewrite Hb, Hg.
Qed.

Lemma routes_ask_valid (cfg : Config) (req : AskIn) :
  ~ blank (question req) ->
  input_guardrail (strip (question req)) = true ->
  Routes.ask cfg req
  = Call_kb_search (strip (question req)) (KB_TOPK cfg)
      (Routes.after_search cfg (strip (question req))).
Proof.
  intros Hb Hg. apply truthy_strip in Hb. unfold Routes.ask.
  now rewrite Hb, Hg.
Qed.

(** C5. [input_guardrail] accepts a text exactly when its lower-cased form
    contains a keyword of the allow-list as a substring; and for every
    question that is not empty (nor blank: those are the empty-input case)
    and contains no allow-listed keyword, [ask] raises the off-domain error
    of its implementation without issuing a single external call. *)
Theorem off_domain_rejected_before_calls :
  (forall text : str,
      input_guardrail text = true <->
      exists kw, In kw allowed_keywords /\ occurs_nocase kw text)
  /\ (forall (cfg : Config) (req : AskIn),
        ~ blank (question req) ->
        (forall kw, In kw allowed_keywords ->
                    ~ occurs_nocase kw (question req)) ->
        Main.ask cfg req = Raise Main.off_domain
        /\ Routes.ask cfg req = Raise Routes.only_math
        /\ forall env : Env,
            run env (Main.ask cfg req) = ([], inl Main.off_domain)
            /\ run env (Routes.ask cfg req) = ([], inl Routes.only_math)).
Proof.
  split; [exact input_guardrail_spec|].
  intros cfg req Hne Hkw.
  apply truthy_strip in Hne. apply input_guardrail_no_keyword in Hkw.
  assert (HM : Main.ask cfg req = Raise Main.off_domain).
  { unfold Main.ask. now rewrite Hne, Hkw. }
  assert (HR : Routes.ask cfg req = Raise Routes.only_math).
  { unfold Routes.ask. now rewrite Hne, Hkw. }
  split; [exact HM|]. split; [exact HR|].
  intros env. rewrite HM, HR. split; reflexivity.
Qed.

Lemma off_domain_rejected_before_calls_witness :
  let req := mkAskIn (lit "Tell me a joke") (lit "simple") None in
  Main.ask default_config req = Raise Main.off_domain
  /\ Routes.ask default_config req = Raise Routes.only_math.
Proof.
  intros req.
  destruct (proj2 off_domain_rejected_before_calls default_config req)
    as [H1 [H2 _]].
  - intros H. vm_compute in H. discriminate.
  - intros kw Hin [pre [post H]].
    assert (E : contains kw (lower (question req)) = true).
    { apply contains_substring. now exists pre, post. }
    revert E. clear H.
    repeat (destruct Hin as [<- | Hin]; [vm_compute; discriminate|]).
    destruct Hin.
  - split; assumption.
Defined.

Lemma main_ask_blank (cfg : Config) (req : AskIn) :
  blank (question req) -> Main.ask cfg req = Raise Main.empty_question.
Proof.
  intros H. apply strip_nil_iff in H. unfold Main.ask. now rewrite H.
Qed.

Lemma routes_ask_blank (cfg : Config) (req : AskIn) :
  blank (question req) -> Routes.ask cfg req = Raise Routes.only_math.
Proof.
  intros H. apply strip_nil_iff in H. unfold Routes.ask. now rewrite H.
Qed.

(** C9, as the code has it. For every empty or blank question [ask] fails
    before any external call is made. In [backend/backend/main.py] the error
    is "Empty question provided.", distinct from the off-domain error; in
    [routes/ask.py] it is "Only math questions are allowed.", the very error
    that implementation raises for an off-domain question. *)
Theorem empty_question_rejected_before_calls
    (cfg : Config) (req : AskIn) (env : Env) :
  blank (question req) ->
  Main.ask cfg req = Raise Main.empty_question
  /\ run env (Main.ask cfg req) = ([], inl Main.empty_question)
  /\ Main.empty_question <> Main.off_domain
  /\ Routes.ask cfg req = Raise Routes.only_math
  /\ run env (Routes.ask cfg req) = ([], inl Routes.only_math).
Proof.
  intros H.
  rewrite (main_ask_blank cfg req H), (routes_ask_blank cfg req H).
  repeat split; trivial. discriminate.
Qed.

Lemma empty_question_rejected_before_calls_witness :
  let req := mkAskIn (lit "   ") (lit "detailed") None in
  Main.ask default_config req = Raise Main.empty_question
  /\ Routes.ask default_config req = Raise Routes.only_math.
Proof.
  intros req.
  destruct (empty_question_rejected_before_calls default_config req
              (mkEnv (fun _ _ => inr []) (fun _ => inr [])
                     (fun _ _ _ => inr [])))
    as [H1 [_ [_ [H2 _]]]].
  - reflexivity.
  - split; assumption.
Defined.

(** C9 as stated fails on [routes/ask.py]: the empty question and an
    off-domain question are answered with one and the same error. *)
Lemma routes_empty_error_not_distinct :
  exists e : exn,
    Routes.ask default_config (mkAskIn [] (lit "detailed") None) = Raise e
    /\ Routes.ask default_config
         (mkAskIn (lit "Tell me a joke") (lit "detailed") None) = Raise e.
Proof. exists Routes.only_math. split; vm_compute; reflexivity. Qed.

(** ** Orchestrator: retrieval threshold *)

Lemma good_hit_dec (cfg : Config) (hits : list ScoredPoint) :
  {good_hit cfg hits} + {~ good_hit cfg hits}.
Proof.
  destruct hits as [|top rest].
  - right. intros [t [r [H _]]]. discriminate.
  - destruct (Qle_bool (KB_THRESHOLD cfg) (top_score top)) eqn:E.
    + left. exists top, rest. split; [reflexivity|]. now apply Qle_bool_iff.
    + right. intros [t [r [H Hle]]]. injection H as <- <-.
      apply Qle_bool_iff in Hle. congruence.
Qed.

Lemma main_after_search_hit cfg req q top rest :
  (KB_THRESHOLD cfg <= top_score top)%Q ->
  Main.after_search cfg req q (top :: rest)
  = Main.retrieval_hit req q top (top_score top).
Proof.
  intros H. apply Qle_bool_iff in H. unfold Main.after_search. now rewrite H.
Qed.

Lemma main_after_search_miss cfg req q hits :
  ~ good_hit cfg hits ->
  Main.after_search cfg req q hits = Main.fallback q None.
Proof.
  intros H. destruct hits as [|top rest]; [reflexivity|].
  unfold Main.after_search.
  destruct (Qle_bool (KB_THRESHOLD cfg) (top_score top)) eqn:E; [|reflexivity].
  exfalso. apply H. exists top, rest. split; [reflexivity|].
  now apply Qle_bool_iff.
Qed.

Lemma routes_after_search_hit cfg q top rest :
  (KB_THRESHOLD cfg <= top_score top)%Q ->
  Routes.after_search cfg q (top :: rest)
  = Routes.retrieval_hit q top (top_score top).
Proof.
  intros H. apply Qle_bool_iff in H. unfold Routes.after_search. now rewrite H.
Qed.

Lemma routes_after_search_miss cfg q hits :
  ~ good_hit cfg hits ->
  Routes.after_search cfg q hits = Routes.fallback q.
Proof.
  intros H. destruct hits as [|top rest]; [reflexivity|].
  unfold Routes.after_search.
  destruct (Qle_bool (KB_THRESHOLD cfg) (top_score top)) eqn:E; [|reflexivity].
  exfalso. apply H. exists top, rest. split; [reflexivity|].
  now apply Qle_bool_iff.
Qed.

Lemma main_hit_not_fallback req q top s : 
  Main.retrieval_hit req q top s <> Main.fallback q None.
Proof. unfold Main.retrieval_hit, Main.fallback. discriminate. Qed.

Lemma routes_hit_not_fallback q top s : 
  Routes.retrieval_hit q top s <> Routes.fallback q.
Proof.
  unfold Routes.retrieval_hit, Routes.fallback.
  destruct (Routes.hit_context (payload top)); discriminate.
Qed.

Lemma top_score_val (top : ScoredPoint) (s : Q) :
  score top = Val s -> (top_score top == s)%Q.
Proof.
  intros H. unfold top_score. rewrite H.
  destruct (Qeq_bool s 0) eqn:E; [|reflexivity].
  apply Qeq_bool_iff in E. now symmetry.
Qed.

Lemma top_score_missing (top : ScoredPoint) :
  score top = Absent \/ score top = PyNone -> top_score top = 0%Q.
Proof. unfold top_score. now intros [-> | ->]. Qed.

(** The branch taken once the score has been read. *)
Lemma after_search_branch
    (cfg : Config) (req : AskIn) (q : str) (top : ScoredPoint)
    (rest : list ScoredPoint) (s : Q) :
  (top_score top == s)%Q ->
  ((KB_THRESHOLD cfg <= s)%Q <->
     exists s', (s' == s)%Q
       /\ Main.after_search cfg req q (top :: rest)
          = Main.retrieval_hit req q top s')
  /\ (~ (KB_THRESHOLD cfg <= s)%Q <->
        Main.after_search cfg req q (top :: rest) = Main.fallback q None)
  /\ ((KB_THRESHOLD cfg <= s)%Q <->
        exists s', (s' == s)%Q
          /\ Routes.after_search cfg q (top :: rest)
             = Routes.retrieval_hit q top s')
  /\ (~ (KB_THRESHOLD cfg <= s)%Q <->
        Routes.after_search cfg q (top :: rest) = Routes.fallback q).
Proof.
  intros Hs.
  assert (G : (KB_THRESHOLD cfg <= s)%Q <-> good_hit cfg (top :: rest)).
  { split.
    - intros H. exists top, rest. split; [reflexivity|]. now rewrite Hs.
    - intros [t [r [E H]]]. injection E as <- <-. now rewrite <- Hs. }
  assert (Hit : (KB_THRESHOLD cfg <= s)%Q ->
                (KB_THRESHOLD cfg <= top_score top)%Q)
    by (intros H; now rewrite Hs).
  repeat split.
  - intros H. exists (top_score top). split; [exact Hs|].
    now apply main_after_search_hit, Hit.
  - intros [s' [_ H]]. apply G.
    destruct (good_hit_dec cfg (top :: rest)) as [Y|N]; [exact Y|].
    rewrite (main_after_search_miss cfg req q _ N) in H.
    symmetry in H. now apply main_hit_not_fallback in H.
  - intros H. apply main_after_search_miss. now rewrite <- G.
  - intros H L.
    rewrite (main_after_search_hit cfg req q top rest (Hit L)) in H.
    now apply main_hit_not_fallback in H.
  - intros H. exists (top_score top). split; [exact Hs|].
    now apply routes_after_search_hit, Hit.
  - intros [s' [_ H]]. apply G.
    destruct (good_hit_dec cfg (top :: rest)) as [Y|N]; [exact Y|].
    rewrite (routes_after_search_miss cfg q _ N) in H.
    symmetry in H. now apply routes_hit_not_fallback in H.
  - intros H. apply routes_after_search_miss. now rewrite <- G.
  - intros H L.
    rewrite (routes_after_search_hit cfg q top rest (Hit L)) in H.
    now apply routes_hit_not_fallback in H.
Qed.

(** C2. In both implementations the branch is decided by the hits the
    retrieval client returned and by the score of the top hit alone. With
    no hit the web-search fallback branch is taken. With a top hit scored
    [s], the retrieval-hit branch is taken, on that hit and with that
    score, exactly when [s] is greater than or equal to the configured
    threshold, and the fallback branch exactly when it is not; a score
    equal to the threshold takes the hit branch. A top hit whose score is
    missing or [None] is treated as scored 0.0. The threshold is 0.78 when
    nothing configures it. *)
Theorem retrieval_hit_iff_threshold
    (cfg : Config) (req : AskIn) (q : str) (hits : list ScoredPoint) :
  (hits = [] ->
     Main.after_search cfg req q hits = Main.fallback q None
     /\ Routes.after_search cfg q hits = Routes.fallback q)
  /\ (forall top rest s,
        hits = top :: rest -> score top = Val s ->
        ((KB_THRESHOLD cfg <= s)%Q <->
           exists s', (s' == s)%Q
             /\ Main.after_search cfg req q hits
                = Main.retrieval_hit req q top s')
        /\ (~ (KB_THRESHOLD cfg <= s)%Q <->
              Main.after_search cfg req q hits = Main.fallback q None)
        /\ ((KB_THRESHOLD cfg <= s)%Q <->
              exists s', (s' == s)%Q
                /\ Routes.after_search cfg q hits
                   = Routes.retrieval_hit q top s')
        /\ (~ (KB_THRESHOLD cfg <= s)%Q <->
              Routes.after_search cfg q hits = Routes.fallback q)
        /\ ((s == KB_THRESHOLD cfg)%Q ->
              (exists s', (s' == s)%Q
                 /\ Main.after_search cfg req q hits
                    = Main.retrieval_hit req q top s')
              /\ (exists s', (s' == s)%Q
                    /\ Routes.after_search cfg q hits
                       = Routes.retrieval_hit q top s')))
  /\ (forall top rest,
        hits = top :: rest ->
        score top = Absent \/ score top = PyNone ->
        ((KB_THRESHOLD cfg <= 0)%Q <->
           exists s', (s' == 0)%Q
             /\ Main.after_search cfg req q hits
                = Main.retrieval_hit req q top s')
        /\ (~ (KB_THRESHOLD cfg <= 0)%Q <->
              Main.after_search cfg req q hits = Main.fallback q None)
        /\ ((KB_THRESHOLD cfg <= 0)%Q <->
              exists s', (s' == 0)%Q
                /\ Routes.after_search cfg q hits
                   = Routes.retrieval_hit q top s')
        /\ (~ (KB_THRESHOLD cfg <= 0)%Q <->
              Routes.after_search cfg q hits = Routes.fallback q))
  /\ KB_THRESHOLD default_config = (78 # 100)%Q.
Proof.
  split; [intros ->; split; reflexivity|].
  split; [|split; [|reflexivity]].
  - intros top rest s -> Hs.
    destruct (after_search_branch cfg req q top rest s (top_score_val top s Hs))
      as [M1 [M2 [R1 R2]]].
    split; [exact M1|]. split; [exact M2|]. split; [exact R1|].
    split; [exact R2|]. intros E.
    assert (L : (KB_THRESHOLD cfg <= s)%Q) by (rewrite E; apply Qle_refl).
    split; [now apply M1 | now apply R1].
  - intros top rest -> Hs. apply after_search_branch.
    now rewrite (top_score_missing top Hs).
Qed.

(** C10. In both implementations, when the top hit carries no score
    attribute, or a score of [None], the score is read as 0.0 without an
    exception and, for any positive threshold, the request continues on the
    fallback branch. *)
Theorem missing_score_takes_fallback
    (cfg : Config) (req : AskIn) (q : str) (top : ScoredPoint)
    (rest : list ScoredPoint) :
  (0 < KB_THRESHOLD cfg)%Q ->
  score top = Absent \/ score top = PyNone ->
  top_score top = 0%Q
  /\ Main.after_search cfg req q (top :: rest) = Main.fallback q None
  /\ Routes.after_search cfg q (top :: rest) = Routes.fallback q.
Proof.
  intros Hthr Hs.
  assert (Hz : top_score top = 0%Q).
  { unfold top_score. destruct Hs as [-> | ->]; reflexivity. }
  assert (G : ~ good_hit cfg (top :: rest)).
  { intros [t [r [H Hle]]]. injection H as <- <-. rewrite Hz in Hle.
    now apply Qle_not_lt in Hle. }
  repeat split; trivial.
  - now apply main_after_search_miss.
  - now apply routes_after_search_miss.
Qed.

Lemma missing_score_takes_fallback_witness :
  let top := mkScoredPoint (IdInt 7) PyNone (mkPayload Absent Absent Absent) in
  let req := mkAskIn (lit "solve x") (lit "detailed") None in
  top_score top = 0%Q
  /\ Main.after_search default_config req (lit "solve x") [top]
     = Main.fallback (lit "solve x") None
  /\ Routes.after_search default_config (lit "solve x") [top]
     = Routes.fallback (lit "solve x").
Proof.
  intros top req.
  apply (missing_score_takes_fallback default_config req (lit "solve x") top []).
  - reflexivity.
  - right. reflexivity.
Defined.

(** ** Orchestrator: confidence and sources on a retrieval hit *)

(** C4. In both implementations, a request whose top hit is scored [s], at
    or above the threshold, and that returns a response returns the
    confidence [round(max(conf, s), 3)], where [conf] is the 0.6 of the
    parser, and as sources the identifier of the top hit alone. *)
Theorem hit_confidence_and_sources
    (cfg : Config) (req : AskIn) (env : Env) (top : ScoredPoint)
    (rest : list ScoredPoint) (s : Q) (tr : list call) (out : AskOut) :
  kb_search env (strip (question req)) (KB_TOPK cfg) = inr (top :: rest) ->
  score top = Val s ->
  (KB_THRESHOLD cfg <= s)%Q ->
  run env (Main.ask cfg req) = (tr, inr out)
  \/ run env (Routes.ask cfg req) = (tr, inr out) ->
  confidence out = round3 (py_max (6 # 10) s)
  /\ sources out = [str_of_id (id top)].
Proof.
  intros Hkb Hs Hle Hrun.
  assert (Hthr : (KB_THRESHOLD cfg <= top_score top)%Q)
    by now rewrite (top_score_val top s Hs).
  assert (Hmax : round3 (py_max (6 # 10) (top_score top))
                 = round3 (py_max (6 # 10) s)).
  { unfold top_score. rewrite Hs.
    destruct (Qeq_bool s 0) eqn:E; [|reflexivity].
    apply Qeq_bool_iff in E. unfold py_max.
    assert (C : ((6 # 10) ?= s)%Q = Gt).
    { apply Qgt_alt. rewrite E. reflexivity. }
    now rewrite C. }
  rewrite <- Hmax. clear Hmax Hle Hs.
  destruct Hrun as [Hrun | Hrun].
  - unfold Main.ask in Hrun.
    destruct (truthy (strip (question req))); simpl negb in Hrun; cbn iota in Hrun;
      [|discriminate].
    destruct (input_guardrail (strip (question req))); simpl negb in Hrun;
      cbn iota in Hrun; [|discriminate].
    cbn [run] in Hrun. rewrite Hkb in Hrun.
    rewrite (main_after_search_hit cfg req _ top rest Hthr) in Hrun.
    unfold Main.retrieval_hit in Hrun. cbn [run] in Hrun.
    destruct (generate_with_gemini env _ None None) as [e|g]; [discriminate|].
    pose proof (main_parse_conf g) as Hc.
    destruct (Main.parse_generation_result g) as [[st fa] conf].
    simpl in Hc. subst conf.
    destruct (output_guardrail (str_of_list st ++ fa)); simpl negb in Hrun;
      cbn iota in Hrun; cbn [run] in Hrun; [|discriminate].
    injection Hrun as _ <-. split; reflexivity.
  - unfold Routes.ask in Hrun.
    destruct (truthy (strip (question req))); simpl negb in Hrun; simpl orb in Hrun; cbn iota in Hrun;
      [|discriminate].
    destruct (input_guardrail (strip (question req))); simpl negb in Hrun;
      cbn iota in Hrun; [|discriminate].
    cbn [run] in Hrun. rewrite Hkb in Hrun.
    rewrite (routes_after_search_hit cfg _ top rest Hthr) in Hrun.
    unfold Routes.retrieval_hit in Hrun.
    destruct (Routes.hit_context (payload top)) as [e|ctx]; cbn [run] in Hrun; [discriminate|].
    destruct (generate_with_gemini env _ None None) as [e|g]; [discriminate|].
    pose proof (routes_parse_conf g) as Hc.
    destruct (Routes.parse_generation_result g) as [[st fa] conf].
    simpl in Hc. subst conf.
    destruct (output_guardrail (str_of_list st ++ fa)); simpl negb in Hrun;
      cbn iota in Hrun; cbn [run] in Hrun; [|discriminate].
    injection Hrun as _ <-. split; reflexivity.
Qed.

Lemma hit_confidence_and_sources_witness :
  (let out :=
     mkAskOut [lit "Apply power rule"; lit "d/dx(x^3)=3x^2"] (lit "3x^2")
       [lit "17"] (910 # 1000)%Q in
   snd (run scenario_env (Main.ask default_config scenario_req)) = inr out
   /\ confidence out = round3 (py_max (6 # 10) (91 # 100))
   /\ sources out = [lit "17"])
  /\ (let out :=
        mkAskOut [lit "1. Apply power rule"] (lit "3x^2") [lit "kb-9"]
          (600 # 1000)%Q in
      snd (run weak_hit_env (Routes.ask lenient_config scenario_req))
      = inr out
      /\ confidence out = round3 (py_max (6 # 10) (55 # 100))
      /\ sources out = [lit "kb-9"]).
Proof.
  split.
  - intros out. split; [vm_compute; reflexivity|].
    apply (hit_confidence_and_sources default_config scenario_req scenario_env
             (mkScoredPoint (IdInt 17) (Val (91 # 100)%Q)
                (mkPayload (Val (lit "Differentiate x^3"))
                           (Val (lit "Use the power rule"))
                           (Val (lit "3x^2"))))
             [] (91 # 100)%Q
             (fst (run scenario_env (Main.ask default_config scenario_req)))
             out).
    + reflexivity.
    + reflexivity.
    + vm_compute. discriminate.
    + left. vm_compute. reflexivity.
  - intros out. split; [vm_compute; reflexivity|].
    apply (hit_confidence_and_sources lenient_config scenario_req weak_hit_env
             weak_hit [] (55 # 100)%Q
             (fst (run weak_hit_env (Routes.ask lenient_config scenario_req)))
             out).
    + reflexivity.
    + reflexivity.
    + vm_compute. discriminate.
    + right. vm_compute. reflexivity.
Defined.

(** ** Orchestrator: output guardrail *)

Lemma main_hit_guarded (env : Env) (req : AskIn) (q g : str)
    (top : ScoredPoint) (s : Q) :
  generate_with_gemini env (main_hit_prompt_for req q top) None None = inr g ->
  unsafe_text (Main.parse_generation_result g) ->
  run env (Main.retrieval_hit req q top s)
  = ([Generate (main_hit_prompt_for req q top) None None],
     inl Main.unsafe_output_hit).
Proof.
  unfold Main.retrieval_hit, main_hit_prompt_for. intros Hg Hu.
  cbn [run]. rewrite Hg.
  apply output_guardrail_spec in Hu.
  destruct (Main.parse_generation_result g) as [[st fa] conf].
  simpl fst in Hu. simpl snd in Hu. rewrite Hu. reflexivity.
Qed.

Lemma main_fallback_guarded (env : Env) (q ctx g : str) (gen : option str) :
  web_search_fallback env q = inr ctx ->
  generate_with_gemini env (Main.fallback_prompt q ctx) (Some 512%Z) (Some 0%Q)
  = inr g ->
  unsafe_text (Main.parse_generation_result g) ->
  run env (Main.fallback q gen)
  = ([WebSearch q;
      Generate (Main.fallback_prompt q ctx) (Some 512%Z) (Some 0%Q)],
     inl Main.unsafe_output_fallback).
Proof.
  intros Hw Hg Hu. unfold Main.fallback. cbn [run]. rewrite Hw. cbn [run].
  rewrite Hg.
  apply output_guardrail_spec in Hu.
  destruct (Main.parse_generation_result g) as [[st fa] conf].
  simpl fst in Hu. simpl snd in Hu. rewrite Hu. reflexivity.
Qed.

Lemma routes_hit_guarded (env : Env) (q ctx g : str) (top : ScoredPoint)
    (s : Q) :
  Routes.hit_context (payload top) = inr ctx ->
  generate_with_gemini env (Routes.hit_prompt q ctx) None None = inr g ->
  unsafe_text (Routes.parse_generation_result g) ->
  run env (Routes.retrieval_hit q top s)
  = ([Generate (Routes.hit_prompt q ctx) None None], inl Routes.unsafe_output).
Proof.
  intros Hc Hg Hu. unfold Routes.retrieval_hit. rewrite Hc. cbn [run].
  rewrite Hg.
  apply output_guardrail_spec in Hu.
  destruct (Routes.parse_generation_result g) as [[st fa] conf].
  simpl fst in Hu. simpl snd in Hu. rewrite Hu. reflexivity.
Qed.

(** The fallback branch of [routes/ask.py] returns whatever was parsed. *)
Lemma routes_fallback_unguarded (env : Env) (q ctx g : str) :
  web_search_fallback env q = inr ctx ->
  generate_with_gemini env (Routes.fallback_prompt q ctx) None None = inr g ->
  snd (run env (Routes.fallback q))
  = inr (mkAskOut (fst (fst (Routes.parse_generation_result g)))
           (snd (fst (Routes.parse_generation_result g))) []
           (round3 (6 # 10))).
Proof.
  intros Hw Hg. unfold Routes.fallback. cbn [run]. rewrite Hw. cbn [run].
  rewrite Hg.
  destruct (Routes.parse_generation_result g) as [[st fa] conf] eqn:E.
  pose proof (routes_parse_conf g) as Hc. rewrite E in Hc. simpl in Hc. subst conf.
  reflexivity.
Qed.

(** X1. In [backend/backend/main.py] both branches run the output guardrail: a
    generation with a deny-listed keyword, in any letter case, inside a
    parsed step or inside the final answer makes [ask] fail with the
    unsafe-output error of the branch, and nothing is returned. *)
Theorem main_rejects_unsafe_generation
    (env : Env) (req : AskIn) (q ctx g kw : str) (top : ScoredPoint) (s : Q)
    (gen : option str) :
  In kw banned_keywords ->
  (exists st, In st (fst (fst (Main.parse_generation_result g)))
              /\ occurs_nocase kw st)
  \/ occurs_nocase kw (snd (fst (Main.parse_generation_result g))) ->
  (generate_with_gemini env (main_hit_prompt_for req q top) None None = inr g ->
   snd (run env (Main.retrieval_hit req q top s)) = inl Main.unsafe_output_hit)
  /\ (web_search_fallback env q = inr ctx ->
      generate_with_gemini env (Main.fallback_prompt q ctx) (Some 512%Z)
        (Some 0%Q) = inr g ->
      snd (run env (Main.fallback q gen)) = inl Main.unsafe_output_fallback).
Proof.
  intros Hkw H.
  assert (Hu : unsafe_text (Main.parse_generation_result g)).
  { destruct (Main.parse_generation_result g) as [[st fa] conf].
    now apply (unsafe_step_or_answer st fa conf kw). }
  split.
  - intros Hg. now rewrite (main_hit_guarded env req q g top s Hg Hu).
  - intros Hw Hg. now rewrite (main_fallback_guarded env q ctx g gen Hw Hg Hu).
Qed.

Lemma main_rejects_unsafe_generation_witness :
  snd (run (miss_env unsafe_generation)
         (Main.fallback (lit "Solve x + 1 = 2") None))
  = inl Main.unsafe_output_fallback.
Proof.
  refine (proj2 (main_rejects_unsafe_generation (miss_env unsafe_generation)
                   solve_req (lit "Solve x + 1 = 2") [] unsafe_generation
                   (lit "hack")
                   (mkScoredPoint (IdInt 1) PyNone
                      (mkPayload Absent Absent Absent))
                   0%Q None _ _) eq_refl eq_refl).
  - right. right. right. left. reflexivity.
  - left. exists (lit "hack the exam server"). split.
    + left. reflexivity.
    + exists [], (lit " the exam server"). reflexivity.
Defined.

(** C1, at the failing input. On the fallback branch of [routes/ask.py] a
    generation that holds the deny-listed keyword "hack" is returned to the
    caller: the output guardrail, which rejects that very text, is not run.
    [backend/backend/main.py] rejects the same generation. *)
Theorem routes_fallback_returns_unsafe_output :
  snd (run (miss_env unsafe_generation) (Routes.ask default_config solve_req))
  = inr (mkAskOut [lit "1. hack the exam server"] (lit "42") []
           (600 # 1000)%Q)
  /\ output_guardrail
       (str_of_list [lit "1. hack the exam server"] ++ lit "42") = false
  /\ snd (run (miss_env unsafe_generation) (Main.ask default_config solve_req))
     = inl Main.unsafe_output_fallback.
Proof. repeat split; vm_compute; reflexivity. Qed.

(** ** Orchestrator: degenerate generations *)

Lemma main_fallback_no_steps_raises (env : Env) (q ctx g : str) :
  web_search_fallback env q = inr ctx ->
  generate_with_gemini env (Main.fallback_prompt q ctx) (Some 512%Z) (Some 0%Q)
  = inr g ->
  fst (fst (Main.parse_generation_result g)) = [] ->
  output_guardrail (lit "[]" ++ snd (fst (Main.parse_generation_result g)))
  = true ->
  snd (run env (Main.fallback q None)) = inl (UnboundLocalError (lit "gen")).
Proof.
  intros Hw Hg Hs Ho. unfold Main.fallback. cbn [run]. rewrite Hw. cbn [run].
  rewrite Hg.
  destruct (Main.parse_generation_result g) as [[st fa] conf].
  simpl fst in Hs, Ho. simpl snd in Ho. subst st.
  change (str_of_list [] ++ fa) with (lit "[]" ++ fa). rewrite Ho. reflexivity.
Qed.

(** C3, at the failing input. On the fallback branch of
    [backend/backend/main.py] a generation with no numbered line, no
    final-answer line and no math marker parses to no step and no final
    answer, and [ask] then raises [UnboundLocalError] on [gen] where an
    empty response was due. *)
Theorem main_fallback_filler_raises :
  Main.parse_generation_result filler_generation = ([], [], (6 # 10)%Q)
  /\ snd (run (miss_env filler_generation) (Main.ask default_config solve_req))
     = inl (UnboundLocalError (lit "gen")).
Proof. repeat split; vm_compute; reflexivity. Qed.

(** X2. On the fallback branch of [backend/backend/main.py], every
    generation the parser keeps nothing of ends in [UnboundLocalError]. *)
Theorem main_fallback_filler_unbound (env : Env) (q ctx g : str) :
  web_search_fallback env q = inr ctx ->
  generate_with_gemini env (Main.fallback_prompt q ctx) (Some 512%Z) (Some 0%Q)
  = inr g ->
  filler g ->
  snd (run env (Main.fallback q None)) = inl (UnboundLocalError (lit "gen")).
Proof.
  intros Hw Hg Hf.
  apply (main_fallback_no_steps_raises env q ctx g Hw Hg);
    rewrite (main_parse_filler g Hf); reflexivity.
Qed.

Lemma main_fallback_filler_unbound_witness :
  snd (run (miss_env filler_generation)
         (Main.fallback (lit "Solve x + 1 = 2") None))
  = inl (UnboundLocalError (lit "gen")).
Proof.
  apply (main_fallback_filler_unbound (miss_env filler_generation)
           (lit "Solve x + 1 = 2") [] filler_generation eq_refl eq_refl).
  repeat constructor.
Defined.

(** X3. On the fallback branch of [routes/ask.py], a generation with no line
    that parser keeps is answered with an empty, well-formed response. *)
Theorem routes_fallback_filler_empty (env : Env) (q ctx g : str) :
  web_search_fallback env q = inr ctx ->
  generate_with_gemini env (Routes.fallback_prompt q ctx) None None = inr g ->
  routes_filler g ->
  snd (run env (Routes.fallback q)) = inr (mkAskOut [] [] [] (600 # 1000)%Q).
Proof.
  intros Hw Hg Hf. rewrite (routes_fallback_unguarded env q ctx g Hw Hg).
  unfold Routes.parse_generation_result. cbn [fst snd].
  rewrite routes_loop_steps, routes_loop_final_kept.
  - rewrite filter_all_false; [reflexivity|].
    unfold routes_filler in Hf. rewrite Forall_forall in Hf.
    intros ln Hin. now destruct (Hf ln Hin).
  - unfold routes_filler in Hf. eapply Forall_impl; [|exact Hf].
    intros ln [H1 H2]. unfold routes_captures_final. now rewrite H1, H2.
Qed.

Lemma routes_fallback_filler_empty_witness :
  snd (run (miss_env filler_generation)
         (Routes.fallback (lit "Solve x + 1 = 2")))
  = inr (mkAskOut [] [] [] (600 # 1000)%Q).
Proof.
  apply (routes_fallback_filler_empty (miss_env filler_generation)
           (lit "Solve x + 1 = 2") [] filler_generation eq_refl eq_refl).
  repeat constructor.
Defined.

(** X8. On the retrieval-hit branch of [backend/backend/main.py], when the
    generation parses to no step and no final answer, the steps of the
    retrieved payload are returned as a single step (none when the payload
    has no steps) and its final answer as the final answer. *)
Theorem main_hit_substitutes_payload
    (env : Env) (req : AskIn) (q g : str) (top : ScoredPoint) (s : Q) :
  generate_with_gemini env (main_hit_prompt_for req q top) None None = inr g ->
  fst (fst (Main.parse_generation_result g)) = [] ->
  snd (fst (Main.parse_generation_result g)) = [] ->
  snd (run env (Main.retrieval_hit req q top s))
  = inr (mkAskOut
           (match dict_get (p_steps (payload top)) with
            | Some (c :: r) => [c :: r]
            | _ => []
            end)
           (or_empty (dict_get (p_final_answer (payload top))))
           [str_of_id (id top)]
           (round3 (py_max (6 # 10) s))).
Proof.
  intros Hg Hst Hfa. unfold Main.retrieval_hit. cbn [run].
  fold (main_hit_prompt_for req q top). rewrite Hg.
  pose proof (main_parse_conf g) as Hc.
  destruct (Main.parse_generation_result g) as [[st fa] conf].
  simpl in Hst, Hfa, Hc. subst st fa conf.
  change (output_guardrail (str_of_list [] ++ [])) with true.
  cbn [negb truthy run snd].
  destruct (dict_get (p_steps (payload top))) as [[|c r]|]; reflexivity.
Qed.

Lemma main_hit_substitutes_payload_witness :
  snd (run unanswered_env
         (Main.retrieval_hit solve_req (lit "Solve x + 1 = 2") tainted_hit
            (95 # 100)))
  = inr (mkAskOut [lit "hack the answer key"] (lit "x = 1") [lit "3"]
           (950 # 1000)%Q).
Proof.
  apply (main_hit_substitutes_payload unanswered_env solve_req
           (lit "Solve x + 1 = 2") unanswered_generation tainted_hit
           (95 # 100) eq_refl).
  - vm_compute. reflexivity.
  - vm_compute. reflexivity.
Defined.

(** ** Scenarios of the specification *)

(** "Integrate 2x dx" with no hit and no snippet, on
    [backend/backend/main.py]: the response of the specification, after one
    retrieval call, one web search and one generation, in that order. *)
Theorem scenario_integrate :
  snd (run (miss_env integrate_generation)
         (Main.ask default_config integrate_req))
  = inr (mkAskOut [lit "Use power rule of integration."] (lit "x^2 + C") []
           (600 # 1000)%Q)
  /\ map (fun c => match c with
                   | KbSearch _ _ => 1%nat
                   | WebSearch _ => 2%nat
                   | Generate _ _ _ => 3%nat
                   end)
       (fst (run (miss_env integrate_generation)
               (Main.ask default_config integrate_req)))
     = [1; 2; 3]%nat.
Proof. split; vm_compute; reflexivity. Qed.

(** ** Feedback log and the retraining trigger *)

Lemma high_ratings_app (a b : list Feedback.row) :
  Feedback.high_ratings (a ++ b)
  = (Feedback.high_ratings a + Feedback.high_ratings b)%Z.
Proof.
  unfold Feedback.high_ratings. rewrite filter_app, length_app. lia.
Qed.

Lemma high_ratings_nonneg (l : list Feedback.row) :
  (0 <= Feedback.high_ratings l)%Z.
Proof. unfold Feedback.high_ratings. lia. Qed.

(** X13. A feedback rated below 4 leaves the count of high ratings as it was, so
    it starts the retraining script whenever that count is a multiple of
    ten: on a log with no high rating at all (the first feedback ever
    included), and again after every tenth high rating. *)
Theorem low_rating_starts_retraining
    (now : str) (req : Feedback.FeedbackIn) (log : list Feedback.row) :
  (Feedback.in_rating req < 4)%Z ->
  (Feedback.high_ratings log mod 10 = 0)%Z ->
  snd (fst (Feedback.feedback now req log)) = true.
Proof.
  intros Hr Hc. unfold Feedback.feedback.
  rewrite high_ratings_app.
  assert (E : Feedback.high_ratings
                [Feedback.mkRow (Feedback.in_user_id req) (Feedback.in_question req)
                   (Feedback.in_feedback req) (Feedback.in_rating req) now] = 0%Z).
  { unfold Feedback.high_ratings. simpl.
    destruct (4 <=? Feedback.in_rating req)%Z eqn:E; [lia|reflexivity]. }
  rewrite E, Z.add_0_r. unfold Feedback.RETRAIN_TRIGGER_COUNT.
  rewrite Hc. reflexivity.
Qed.

Lemma low_rating_starts_retraining_witness :
  snd (fst (Feedback.feedback (lit "2024-01-01T00:00:00")
              (Feedback.mkFeedbackIn (lit "u1") (lit "Solve x") None 1) []))
  = true.
Proof.
  apply (low_rating_starts_retraining (lit "2024-01-01T00:00:00")
           (Feedback.mkFeedbackIn (lit "u1") (lit "Solve x") None 1) []).
  - reflexivity.
  - reflexivity.
Defined.

Lemma feedback_all_high (reqs : list (str * Feedback.FeedbackIn))
    (log : list Feedback.row) :
  Forall (fun r => (4 <= Feedback.in_rating (snd r))%Z) reqs ->
  let '(final, flags) := Feedback.feedback_all reqs log in
  final = log ++ map (fun r => Feedback.mkRow (Feedback.in_user_id (snd r))
                                 (Feedback.in_question (snd r))
                                 (Feedback.in_feedback (snd r))
                                 (Feedback.in_rating (snd r)) (fst r)) reqs
  /\ length flags = length reqs
  /\ forall k, (k < length reqs)%nat ->
       nth k flags false
       = ((Feedback.high_ratings log + Z.of_nat (S k)) mod 10 =? 0)%Z.
Proof.
  revert log. induction reqs as [|[now req] rest IH]; intros log H.
  - simpl. rewrite app_nil_r. repeat split; trivial. intros k Hk. simpl in Hk. lia.
  - inversion H as [|? ? Hreq Hrest]; subst. simpl in Hreq.
    cbn [Feedback.feedback_all].
    set (r := Feedback.mkRow (Feedback.in_user_id req) (Feedback.in_question req)
                (Feedback.in_feedback req) (Feedback.in_rating req) now).
    assert (Hr : Feedback.high_ratings (log ++ [r])
                 = (Feedback.high_ratings log + 1)%Z).
    { rewrite high_ratings_app. f_equal. unfold Feedback.high_ratings. simpl.
      destruct (4 <=? Feedback.in_rating req)%Z eqn:E; [reflexivity|lia]. }
    assert (Hf : Feedback.feedback now req log
                 = (log ++ [r],
                    ((Feedback.high_ratings log + 1) mod 10 =? 0)%Z,
                    if ((Feedback.high_ratings log + 1) mod 10 =? 0)%Z
                    then Feedback.RecordedRetrainingStarted
                    else Feedback.Recorded)).
    { unfold Feedback.feedback. fold r. rewrite Hr.
      unfold Feedback.RETRAIN_TRIGGER_COUNT.
      now destruct ((Feedback.high_ratings log + 1) mod 10 =? 0)%Z. }
    rewrite Hf. specialize (IH (log ++ [r]) Hrest).
    destruct (Feedback.feedback_all rest (log ++ [r])) as [final flags].
    destruct IH as [IH1 [IH2 IH3]]. repeat split.
    + rewrite IH1, <- app_assoc. reflexivity.
    + simpl. now rewrite IH2.
    + intros k Hk. destruct k as [|k].
      * reflexivity.
      * simpl in Hk. cbn [nth]. rewrite IH3 by lia. rewrite Hr.
        f_equal. f_equal. lia.
Qed.

(** X12. Starting from an empty log, a run of feedbacks all rated 4 or more
    starts the retraining script at every tenth call and at no other. *)
Theorem retraining_every_tenth_high_rating
    (reqs : list (str * Feedback.FeedbackIn)) (k : nat) :
  Forall (fun r => (4 <= Feedback.in_rating (snd r))%Z) reqs ->
  (k < length reqs)%nat ->
  nth k (snd (Feedback.feedback_all reqs [])) false = true
  <-> (S k mod 10 = 0)%nat.
Proof.
  intros H Hk. pose proof (feedback_all_high reqs [] H) as P.
  destruct (Feedback.feedback_all reqs []) as [final flags].
  destruct P as [_ [_ P]]. cbn [snd]. rewrite (P k Hk).
  change (Feedback.high_ratings []) with 0%Z. rewrite Z.add_0_l.
  rewrite Z.eqb_eq.
  rewrite <- (Nat2Z.inj_iff (S k mod 10) 0), Nat2Z.inj_mod. reflexivity.
Qed.

Lemma retraining_every_tenth_high_rating_witness :
  nth 9 (snd (Feedback.feedback_all ten_high_ratings [])) false = true
  <-> (10 mod 10 = 0)%nat.
Proof.
  apply (retraining_every_tenth_high_rating ten_high_ratings 9).
  - repeat constructor; simpl; lia.
  - simpl. lia.
Defined.

(** ** Evaluator: normalisation *)

Lemma lower_char_space (c : ascii) : isspace (lower_char c) = isspace c.
Proof. char_cases c. Qed.

Lemma lower_char_is_space (c : ascii) :
  isspace c = true -> lower_char c = c.
Proof. char_cases c. Qed.

Lemma lower_char_idempotent (c : ascii) :
  lower_char (lower_char c) = lower_char c.
Proof. char_cases c. Qed.

Lemma lower_idempotent (s : str) : lower (lower s) = lower s.
Proof.
  unfold lower. rewrite map_map. apply map_ext. exact lower_char_idempotent.
Qed.

Lemma collapse_single_spaced (b : bool) (s : str) :
  single_spaced b (Evaluator.collapse_blanks_from b s) = true.
Proof.
  revert b. induction s as [|c s IH]; intros b; simpl; [reflexivity|].
  destruct (isspace c) eqn:E.
  - destruct b; [apply IH|]. simpl. now rewrite IH.
  - simpl. rewrite E. apply IH.
Qed.

Lemma collapse_id (b : bool) (s : str) :
  single_spaced b s = true -> Evaluator.collapse_blanks_from b s = s.
Proof.
  revert b. induction s as [|c s IH]; intros b H; simpl in *; [reflexivity|].
  destruct (isspace c) eqn:E.
  - apply andb_true_iff in H as [H Hs]. apply andb_true_iff in H as [Hb Hc].
    apply negb_true_iff in Hb. subst b. apply is_char_eq in Hc.
    rewrite (IH true Hs). now rewrite Hc.
  - now rewrite (IH false H).
Qed.

Lemma single_spaced_lower (b : bool) (s : str) :
  single_spaced b (lower s) = single_spaced b s.
Proof.
  revert b. induction s as [|c s IH]; intros b; simpl; [reflexivity|].
  rewrite lower_char_space. destruct (isspace c) eqn:E.
  - rewrite (lower_char_is_space c E), IH. reflexivity.
  - apply IH.
Qed.

Lemma no_lead_lower (s : str) : no_lead (lower s) = no_lead s.
Proof. destruct s as [|c s]; simpl; [reflexivity|]. now rewrite lower_char_space. Qed.

Lemma trimmed_lower (s : str) : trimmed (lower s) = trimmed s.
Proof.
  unfold trimmed. rewrite no_lead_lower. f_equal.
  unfold lower. rewrite <- map_rev. apply no_lead_lower.
Qed.

Lemma collapse_app_nonspace (b : bool) (s : str) (c : ascii) :
  isspace c = false ->
  Evaluator.collapse_blanks_from b (s ++ [c])
  = Evaluator.collapse_blanks_from b s ++ [c].
Proof.
  intros Hc. revert b. induction s as [|d s IH]; intros b; simpl.
  - now rewrite Hc.
  - destruct (isspace d); [destruct b|]; simpl; now rewrite IH.
Qed.

Lemma trimmed_collapse (s : str) :
  trimmed s = true -> trimmed (Evaluator.collapse_blanks s) = true.
Proof.
  unfold trimmed, Evaluator.collapse_blanks. intros H.
  apply andb_true_iff in H as [H1 H2]. apply andb_true_iff. split.
  - destruct s as [|c s]; [reflexivity|]. simpl in H1 |- *.
    apply negb_true_iff in H1. rewrite H1. simpl. now rewrite H1.
  - destruct (rev s) as [|c r] eqn:E.
    + apply (f_equal (@rev ascii)) in E. rewrite rev_involutive in E.
      now subst s.
    + apply (f_equal (@rev ascii)) in E. rewrite rev_involutive in E.
      simpl in E. subst s. simpl in H2. apply negb_true_iff in H2.
      rewrite (collapse_app_nonspace false (rev r) c H2), rev_app_distr.
      simpl. now rewrite H2.
Qed.

(** X14. Normalising is stable: a normalised text has no blank at either end,
    single spaces only between words, no upper-case letter, and normalising
    it again changes nothing. *)
Theorem normalize_text_idempotent (s : str) :
  Evaluator.normalize_text (Evaluator.normalize_text s)
  = Evaluator.normalize_text s
  /\ trimmed (Evaluator.normalize_text s) = true
  /\ single_spaced false (Evaluator.normalize_text s) = true
  /\ lower (Evaluator.normalize_text s) = Evaluator.normalize_text s.
Proof.
  assert (Ht : trimmed (Evaluator.normalize_text s) = true).
  { unfold Evaluator.normalize_text. rewrite trimmed_lower.
    apply trimmed_collapse, strip_trimmed. }
  assert (Hs : single_spaced false (Evaluator.normalize_text s) = true).
  { unfold Evaluator.normalize_text. rewrite single_spaced_lower.
    apply collapse_single_spaced. }
  assert (Hl : lower (Evaluator.normalize_text s) = Evaluator.normalize_text s).
  { unfold Evaluator.normalize_text. apply lower_idempotent. }
  repeat split; trivial.
  unfold Evaluator.normalize_text at 1.
  rewrite (strip_id _ Ht). unfold Evaluator.collapse_blanks.
  rewrite (collapse_id false _ Hs). exact Hl.
Qed.

(** ** Evaluator: option letters *)

Lemma upper_option_range (c : ascii) :
  Evaluator.is_option_letter c = true ->
  In [Evaluator.upper_option c] [lit "A"; lit "B"; lit "C"; lit "D"].
Proof.
  destruct c as [[|] [|] [|] [|] [|] [|] [|] [|]];
    try (vm_compute; discriminate); intros _; vm_compute; tauto.
Qed.

Lemma search_option_letter (prev : option ascii) (s : str) (c : ascii) :
  Evaluator.search_option_from prev s = Some c ->
  Evaluator.is_option_letter c = true.
Proof.
  revert prev. induction s as [|d s IH]; intros prev H; simpl in H;
    [discriminate|].
  destruct (Evaluator.is_option_letter d && Main.not_word prev
            && Main.not_word (hd_error s)) eqn:E.
  - injection H as <-. apply andb_true_iff in E as [E _].
    now apply andb_true_iff in E as [E _].
  - now apply (IH (Some d)).
Qed.

Lemma last_char_cons (d : ascii) (a : str) :
  last_char (d :: a)
  = match last_char a with Some y => Some y | None => Some d end.
Proof.
  unfold last_char. simpl rev. destruct (rev a) as [|x r]; reflexivity.
Qed.

(** The search passes over a prefix in which no option letter stands
    between two non-word characters. *)
Lemma search_option_skip_words (prev : option ascii) (pre s : str) :
  (forall a x b,
      pre = a ++ x :: b ->
      Evaluator.is_option_letter x = true ->
      Main.not_word (match last_char a with Some y => Some y | None => prev end)
      = false
      \/ Main.not_word (hd_error (b ++ s)) = false) ->
  Evaluator.search_option_from prev (pre ++ s)
  = Evaluator.search_option_from
      (match last_char pre with Some c => Some c | None => prev end) s.
Proof.
  revert prev. induction pre as [|d pre IH]; intros prev H; [reflexivity|].
  simpl app. cbn [Evaluator.search_option_from].
  assert (E : Evaluator.is_option_letter d && Main.not_word prev
              && Main.not_word (hd_error (pre ++ s)) = false).
  { destruct (Evaluator.is_option_letter d) eqn:D; [|reflexivity].
    destruct (H [] d pre eq_refl D) as [F|F]; simpl in F; rewrite F;
      [reflexivity|apply andb_false_r]. }
  rewrite E, last_char_cons, (IH (Some d)).
  - destruct (last_char pre); reflexivity.
  - intros a x b -> Hx. specialize (H (d :: a) x b eq_refl Hx).
    rewrite last_char_cons in H.
    destruct (last_char a); exact H.
Qed.

(** X15. [extract_first_option] answers with nothing or with one of A, B, C,
    D. It answers with the first letter a-d, in either case, that stands
    between non-word characters, wherever that letter is in the text and
    not only at the start of a line; letters a-d inside words before it do
    not count. It answers with nothing when the text has no such letter. *)
Theorem extract_first_option_anywhere :
  (forall s : str,
      In (Evaluator.extract_first_option s)
         [[]; lit "A"; lit "B"; lit "C"; lit "D"])
  /\ (forall (pre post : str) (c : ascii),
        Evaluator.is_option_letter c = true ->
        Main.not_word (last_char pre) = true ->
        Main.not_word (hd_error post) = true ->
        (forall a x b,
            pre = a ++ x :: b ->
            Evaluator.is_option_letter x = true ->
            Main.not_word (last_char a) = false
            \/ Main.not_word (hd_error (b ++ c :: post)) = false) ->
        Evaluator.extract_first_option (pre ++ c :: post)
        = [Evaluator.upper_option c])
  /\ (forall s : str,
        (forall a x b,
            s = a ++ x :: b ->
            Evaluator.is_option_letter x = true ->
            Main.not_word (last_char a) = false
            \/ Main.not_word (hd_error b) = false) ->
        Evaluator.extract_first_option s = []).
Proof.
  split; [|split].
  - intros s. unfold Evaluator.extract_first_option.
    destruct (negb (truthy s)); [now left|].
    destruct (Evaluator.search_option_from None s) as [c|] eqn:E; [|now left].
    right. apply upper_option_range. exact (search_option_letter _ _ _ E).
  - intros pre post c Hc Hl Hp Hpre. unfold Evaluator.extract_first_option.
    assert (T : truthy (pre ++ c :: post) = true) by now destruct pre.
    rewrite T. cbn [negb]. rewrite (search_option_skip_words None pre).
    + replace (match last_char pre with Some x => Some x | None => None end)
        with (last_char pre) by (destruct (last_char pre); reflexivity).
      cbn [Evaluator.search_option_from]. rewrite Hc, Hl, Hp. reflexivity.
    + intros a x b E Hx. destruct (Hpre a x b E Hx) as [F|F]; [left|now right].
      destruct (last_char a); exact F.
  - intros s H. unfold Evaluator.extract_first_option.
    destruct (negb (truthy s)); [reflexivity|].
    rewrite <- (app_nil_r s) at 1.
    rewrite (search_option_skip_words None s []); [reflexivity|].
    intros a x b E Hx. rewrite app_nil_r.
    destruct (H a x b E Hx) as [F|F]; [left|now right].
    destruct (last_char a); exact F.
Qed.

Ltac walk_prefix a E Hx :=
  repeat (destruct a as [|? a];
          [ injection E as <- <-;
            first [ vm_compute in Hx; discriminate Hx
                  | left; vm_compute; reflexivity
                  | right; vm_compute; reflexivity ]
          | injection E as <- E ]);
  destruct a; discriminate E.

Lemma extract_first_option_anywhere_witness :
  Evaluator.extract_first_option (lit "The answer is b") = lit "B".
Proof.
  apply (proj1 (proj2 extract_first_option_anywhere)
           (lit "The answer is ") [] (chr 98) eq_refl eq_refl eq_refl).
  intros a x b E Hx. cbv in E. walk_prefix a E Hx.
Defined.

(** ** Evaluator: the report *)

Lemma length_evaluate_items (env : Evaluator.EvalEnv) (i : nat)
    (l : list Evaluator.item) :
  length (Evaluator.evaluate_items env i l) = length l.
Proof.
  revert i. induction l as [|it l IH]; intros i; simpl; [reflexivity|].
  now rewrite IH.
Qed.

Lemma length_slice_to_nonneg {A} (n : Z) (l : list A) :
  (0 <= n)%Z ->
  Z.of_nat (length (Evaluator.slice_to n l)) = Z.min n (Z.of_nat (length l)).
Proof.
  intros H. unfold Evaluator.slice_to.
  destruct (0 <=? n)%Z eqn:E; [|lia]. rewrite length_firstn. lia.
Qed.

Lemma length_slice_to_neg {A} (n : Z) (l : list A) :
  (n < 0)%Z ->
  length (Evaluator.slice_to n l) = (length l - Z.to_nat (- n))%nat.
Proof.
  intros H. unfold Evaluator.slice_to.
  destruct (0 <=? n)%Z eqn:E; [lia|]. rewrite length_firstn. lia.
Qed.

Lemma round_half_even_lower (x : Q) (lo : Z) :
  (inject_Z lo <= x)%Q -> (lo <= round_half_even x)%Z.
Proof.
  intros Hlo. pose proof (round_half_even_close x) as [H1 _].
  assert (H' : (inject_Z (lo - 1) < inject_Z (round_half_even x))%Q).
  { unfold Z.sub. rewrite inject_Z_plus.
    change (inject_Z (- (1))) with (-1 # 1)%Q. lra. }
  rewrite <- Zlt_Qlt in H'. lia.
Qed.

Lemma round_half_even_upper (x : Q) (hi : Z) :
  (x <= inject_Z hi)%Q -> (round_half_even x <= hi)%Z.
Proof.
  intros Hhi. pose proof (round_half_even_close x) as [_ H2].
  assert (H' : (inject_Z (round_half_even x) < inject_Z (hi + 1))%Q).
  { rewrite inject_Z_plus. change (inject_Z 1) with 1%Q. lra. }
  rewrite <- Zlt_Qlt in H'. lia.
Qed.

Lemma Qdiv_nonneg_pos (c t : Z) :
  (0 <= c <= t)%Z -> (0 < t)%Z ->
  (0 <= inject_Z c / inject_Z t <= 1)%Q.
Proof.
  intros Hc Ht. destruct t as [|p|p]; try lia.
  unfold Qdiv, Qinv, Qmult, Qle, inject_Z. simpl. split; nia.
Qed.

Lemma Qdiv_nonneg_neg (c t : Z) :
  (0 <= c)%Z -> (t < 0)%Z -> (inject_Z c / inject_Z t <= 0)%Q.
Proof.
  intros Hc Ht. destruct t as [|p|p]; try lia.
  unfold Qdiv, Qinv, Qmult, Qle, inject_Z. simpl. nia.
Qed.

Lemma filter_length_le {A} (f : A -> bool) (l : list A) :
  (length (filter f l) <= length l)%nat.
Proof.
  induction l as [|a l IH]; simpl; [lia|]. destruct (f a); simpl; lia.
Qed.

Lemma round2_percent_bounds (c t : Z) :
  (0 <= c <= t)%Z -> (0 < t)%Z ->
  (0 <= Evaluator.round2 (inject_Z c / inject_Z t * 100) <= 100)%Q.
Proof.
  intros Hc Ht. unfold Evaluator.round2.
  pose proof (Qdiv_nonneg_pos c t Hc Ht) as [Hd0 Hd1].
  assert (H0 : (inject_Z 0 <= inject_Z c / inject_Z t * 100 * 100)%Q).
  { change (inject_Z 0) with 0%Q. lra. }
  assert (H1 : (inject_Z c / inject_Z t * 100 * 100 <= inject_Z 10000)%Q).
  { change (inject_Z 10000) with 10000%Q. lra. }
  pose proof (round_half_even_lower _ 0 H0) as Hr0.
  pose proof (round_half_even_upper _ 10000 H1) as Hr1.
  unfold Qle. simpl. lia.
Qed.

(** X17. With a positive limit and a dataset that is not empty, the evaluation
    returns a report: it tests [min(limit, len(dataset))] questions, holds
    one result per tested question, counts as correct exactly the results
    marked as a match, and its accuracy lies between 0 and 100. *)
Theorem evaluate_agent_report
    (env : Evaluator.EvalEnv) (limit : Z) (data : list Evaluator.item) :
  Evaluator.dataset env = Some data ->
  (0 < limit)%Z -> data <> [] ->
  exists r,
    Evaluator.evaluate_agent env limit = Some r
    /\ Evaluator.total_tested r = Z.min limit (Z.of_nat (length data))
    /\ Z.of_nat (length (Evaluator.results r)) = Evaluator.total_tested r
    /\ Evaluator.correct r
       = Z.of_nat (length (filter Evaluator.is_match (Evaluator.results r)))
    /\ (0 <= Evaluator.correct r <= Evaluator.total_tested r)%Z
    /\ (0 <= Evaluator.accuracy_percent r <= 100)%Q.
Proof.
  intros Hd Hl Hne. unfold Evaluator.evaluate_agent. rewrite Hd.
  assert (Hlen : (0 < Z.of_nat (length data))%Z).
  { destruct data; [congruence|simpl; lia]. }
  set (t := Z.min limit (Z.of_nat (length data))).
  assert (Ht : (0 < t)%Z) by (unfold t; lia).
  destruct (t =? 0)%Z eqn:E; [lia|].
  eexists. split; [reflexivity|]. cbn [Evaluator.total_tested
    Evaluator.results Evaluator.correct Evaluator.accuracy_percent].
  assert (Hres : Z.of_nat (length (Evaluator.evaluate_items env 0
                                     (Evaluator.slice_to t data))) = t).
  { rewrite length_evaluate_items, length_slice_to_nonneg by lia.
    unfold t. lia. }
  pose proof (filter_length_le Evaluator.is_match
                (Evaluator.evaluate_items env 0 (Evaluator.slice_to t data)))
    as Hf.
  repeat split; trivial; try lia.
  - apply round2_percent_bounds; lia.
  - apply round2_percent_bounds; lia.
Qed.

Lemma evaluate_agent_report_witness :
  exists r,
    Evaluator.evaluate_agent (failing_eval_env two_items) 10 = Some r
    /\ Evaluator.total_tested r = 2%Z
    /\ Z.of_nat (length (Evaluator.results r)) = 2%Z.
Proof.
  destruct (evaluate_agent_report (failing_eval_env two_items) 10 two_items
              eq_refl eq_refl) as [r [H1 [H2 [H3 _]]]].
  - discriminate.
  - exists r. split; [exact H1|]. split; [exact H2|]. rewrite H3. exact H2.
Defined.

(** X18. A negative limit is not rejected: the report then states a negative
    number of tested questions, although every entry of the dataset but the
    last [-limit] ones is evaluated, and an accuracy that is not positive. *)
Theorem evaluate_agent_negative_limit
    (env : Evaluator.EvalEnv) (limit : Z) (data : list Evaluator.item) :
  Evaluator.dataset env = Some data ->
  (limit < 0)%Z ->
  exists r,
    Evaluator.evaluate_agent env limit = Some r
    /\ Evaluator.total_tested r = limit
    /\ length (Evaluator.results r)
       = (length data - Z.to_nat (- limit))%nat
    /\ (Evaluator.accuracy_percent r <= 0)%Q.
Proof.
  intros Hd Hl. unfold Evaluator.evaluate_agent. rewrite Hd.
  assert (Ht : Z.min limit (Z.of_nat (length data)) = limit) by lia.
  rewrite Ht. destruct (limit =? 0)%Z eqn:E; [lia|].
  eexists. split; [reflexivity|]. cbn [Evaluator.total_tested
    Evaluator.results Evaluator.accuracy_percent].
  split; [reflexivity|]. split.
  - now rewrite length_evaluate_items, length_slice_to_neg.
  - set (c := Z.of_nat (length (filter Evaluator.is_match
               (Evaluator.evaluate_items env 0
                  (Evaluator.slice_to limit data))))).
    assert (Hc : (0 <= c)%Z) by (unfold c; lia).
    unfold Evaluator.round2.
    pose proof (Qdiv_nonneg_neg c limit Hc Hl) as Hd0.
    assert (Hx : (inject_Z c / inject_Z limit * 100 * 100 <= inject_Z 0)%Q).
    { change (inject_Z 0) with 0%Q. lra. }
    pose proof (round_half_even_upper _ 0 Hx) as Hr.
    unfold Qle. simpl. lia.
Qed.

Lemma evaluate_agent_negative_limit_witness :
  exists r,
    Evaluator.evaluate_agent (failing_eval_env two_items) (-1) = Some r
    /\ Evaluator.total_tested r = (-1)%Z
    /\ length (Evaluator.results r) = 1%nat.
Proof.
  destruct (evaluate_agent_negative_limit (failing_eval_env two_items) (-1)
              two_items eq_refl eq_refl) as [r [H1 [H2 [H3 _]]]].
  exists r. split; [exact H1|]. split; [exact H2|]. exact H3.
Defined.

(** ** The evaluation endpoint *)

Lemma evaluate_agent_none (env : Evaluator.EvalEnv) (limit : Z) :
  Evaluator.evaluate_agent env limit = None <->
  Evaluator.dataset env = None
  \/ exists data,
       Evaluator.dataset env = Some data
       /\ (limit = 0%Z \/ (data = [] /\ (0 <= limit)%Z)).
Proof.
  unfold Evaluator.evaluate_agent.
  destruct (Evaluator.dataset env) as [data|]; [|split; auto].
  destruct (Z.min limit (Z.of_nat (length data)) =? 0)%Z eqn:E.
  - split; [intros _|reflexivity]. right. exists data. split; [reflexivity|].
    apply Z.eqb_eq in E.
    destruct data as [|it data]; [right; split; [reflexivity|simpl in E; lia]|].
    left. simpl length in E. lia.
  - split; [discriminate|]. intros [H|[d [Hd H]]]; [discriminate|].
    injection Hd as <-. apply Z.eqb_neq in E. exfalso.
    destruct H as [-> | [-> H]]; simpl in E; lia.
Qed.

(** X20. The endpoint [/evaluate] of [backend/main.py] never answers with the
    404 it names: when [evaluate_agent] returns nothing, which happens
    exactly when the dataset file is missing, the limit is 0, or the dataset
    is empty and the limit not negative, it fails with [NameError] on
    [HTTPException]; in every other case it returns the report. *)
Theorem evaluate_name_error (env : Evaluator.EvalEnv) (limit : Z) :
  (App.evaluate env limit = inl (App.NameError (lit "HTTPException")) <->
   Evaluator.dataset env = None
   \/ exists data,
        Evaluator.dataset env = Some data
        /\ (limit = 0%Z \/ (data = [] /\ (0 <= limit)%Z)))
  /\ (forall e, App.evaluate env limit = inl e ->
                e = App.NameError (lit "HTTPException"))
  /\ (forall r, Evaluator.evaluate_agent env limit = Some r ->
                App.evaluate env limit
                = inr (App.mkEvaluation (lit "Evaluation completed") r)).
Proof.
  unfold App.evaluate. repeat split.
  - intros H. apply evaluate_agent_none.
    destruct (Evaluator.evaluate_agent env limit); [discriminate|reflexivity].
  - intros H. apply evaluate_agent_none in H. now rewrite H.
  - intros e H. destruct (Evaluator.evaluate_agent env limit);
      [discriminate|]. now injection H as <-.
  - intros r H. now rewrite H.
Qed.

(** ** Evaluator: failures of the generator *)

Lemma evaluate_items_blank (env : Evaluator.EvalEnv) (i : nat)
    (items : list Evaluator.item) :
  (forall q, blank (Evaluator.get_answer env q)) ->
  Forall (fun x => Evaluator.is_match x = false
                   /\ Evaluator.match_reason x = lit "empty-output")
    (Evaluator.evaluate_items env i items).
Proof.
  intros H. revert i. induction items as [|it items IH]; intros i;
    [constructor|].
  simpl. constructor; [|apply IH].
  unfold Evaluator.evaluate_item.
  pose proof (H (Evaluator.item_question it)) as Hb.
  apply strip_nil_iff in Hb. rewrite Hb. split; reflexivity.
Qed.

Lemma filter_none {A} (f : A -> bool) (l : list A) :
  Forall (fun x => f x = false) l -> filter f l = [].
Proof.
  intros H. apply filter_all_false. now apply Forall_forall.
Qed.

(** X19. The evaluation swallows every failure of the generator: when each call
    to it raises, the evaluation still returns its report, with every
    tested question recorded as an "empty-output" miss, none counted as
    correct, and an accuracy of 0. *)
Theorem evaluate_agent_swallows_failures
    (env : Evaluator.EvalEnv) (limit : Z) (data : list Evaluator.item) :
  Evaluator.dataset env = Some data ->
  Evaluator.DIRECT_GENERATOR_AVAILABLE env = true ->
  (forall p, exists e, Evaluator.generate_eval env p = inl e) ->
  (0 < limit)%Z -> data <> [] ->
  exists r,
    Evaluator.evaluate_agent env limit = Some r
    /\ Evaluator.correct r = 0%Z
    /\ (Evaluator.accuracy_percent r == 0)%Q
    /\ Z.of_nat (length (Evaluator.results r))
       = Z.min limit (Z.of_nat (length data))
    /\ Forall (fun x => Evaluator.is_match x = false
                        /\ Evaluator.match_reason x = lit "empty-output")
         (Evaluator.results r).
Proof.
  intros Hd Hdir Hfail Hl Hne.
  assert (Hb : forall q, blank (Evaluator.get_answer env q)).
  { intros q. unfold Evaluator.get_answer. rewrite Hdir.
    destruct (Hfail (Evaluator.eval_prompt q)) as [e ->]. reflexivity. }
  unfold Evaluator.evaluate_agent. rewrite Hd.
  assert (Hlen : (0 < Z.of_nat (length data))%Z).
  { destruct data; [congruence|simpl; lia]. }
  set (t := Z.min limit (Z.of_nat (length data))).
  assert (Ht : (0 < t)%Z) by (unfold t; lia).
  destruct (t =? 0)%Z eqn:E; [lia|].
  eexists. split; [reflexivity|].
  cbn [Evaluator.results Evaluator.correct Evaluator.accuracy_percent].
  pose proof (evaluate_items_blank env 0 (Evaluator.slice_to t data) Hb)
    as Hres.
  assert (Hc0 : filter Evaluator.is_match
                  (Evaluator.evaluate_items env 0 (Evaluator.slice_to t data))
                = []).
  { apply filter_none. eapply Forall_impl; [|exact Hres].
    now intros x [H _]. }
  rewrite Hc0. split; [reflexivity|]. split; [reflexivity|].
  split; [|exact Hres].
  rewrite length_evaluate_items, length_slice_to_nonneg by lia.
  unfold t. lia.
Qed.

Lemma evaluate_agent_swallows_failures_witness :
  exists r,
    Evaluator.evaluate_agent (failing_eval_env two_items) 10 = Some r
    /\ Evaluator.correct r = 0%Z.
Proof.
  destruct (evaluate_agent_swallows_failures (failing_eval_env two_items) 10
              two_items eq_refl eq_refl) as [r [H1 [H2 _]]].
  - intros p. eexists. reflexivity.
  - reflexivity.
  - discriminate.
  - exists r. split; assumption.
Defined.

(** ** Generator output: lines written and read back *)

Lemma lines_of_nonempty (txt : str) :
  Forall (fun l => l <> []) (Main.lines_of txt).
Proof.
  unfold Main.lines_of. apply Forall_map, Forall_forall.
  intros l Hl. apply filter_In in Hl as [_ Hl]. now destruct (strip l).
Qed.

Lemma lines_of_filter (txt : str) :
  Main.lines_of txt = filter (@truthy ascii) (map strip (splitlines txt)).
Proof.
  unfold Main.lines_of. induction (splitlines txt) as [|l ls IH]; simpl;
    [reflexivity|].
  destruct (truthy (strip l)); simpl; now rewrite IH.
Qed.

Lemma map_strip_rstrip (ls : list str) :
  map strip (map rstrip ls) = map strip ls.
Proof. rewrite map_map. apply map_ext. exact strip_rstrip. Qed.

Lemma no_lead_rev_app (x s : str) :
  s <> [] -> no_lead (rev (x ++ s)) = no_lead (rev s).
Proof.
  intros H. rewrite rev_app_distr. destruct (rev s) as [|c r] eqn:E.
  - apply (f_equal (@rev ascii)) in E. rewrite rev_involutive in E.
    now subst s.
  - reflexivity.
Qed.

Lemma join_trimmed (F : list str) :
  Forall (fun l => tidy l = true /\ l <> []) F ->
  trimmed (join [nl] F) = true /\ (F <> [] -> join [nl] F <> []).
Proof.
  induction F as [|l F IH]; intros H; [split; [reflexivity|congruence]|].
  inversion H as [|? ? [Hl Hne] HF]; subst.
  unfold tidy, trimmed in Hl. apply andb_true_iff in Hl as [Hl _].
  apply andb_true_iff in Hl as [Hl1 Hl2].
  destruct F as [|l2 F].
  - simpl. split; [|intros _; exact Hne]. unfold trimmed. now rewrite Hl1, Hl2.
  - destruct (IH HF) as [IH1 IH2].
    change (join [nl] (l :: l2 :: F)) with (l ++ [nl] ++ join [nl] (l2 :: F)).
    split.
    + unfold trimmed in *. apply andb_true_iff in IH1 as [_ IH1].
      apply andb_true_iff. split.
      * destruct l; [congruence|exact Hl1].
      * rewrite app_assoc, no_lead_rev_app; [exact IH1|].
        apply IH2. discriminate.
    + intros _. destruct l; [congruence|discriminate].
Qed.

(** Lines that are stripped, single and not empty survive being joined by
    line feeds, stripped and split again. *)
Lemma lines_of_join (F : list str) :
  Forall (fun l => tidy l = true /\ l <> []) F ->
  Main.lines_of (strip (join [nl] F)) = F.
Proof.
  intros H. destruct (join_trimmed F H) as [Ht _].
  rewrite (strip_id _ Ht). unfold Main.lines_of.
  rewrite splitlines_join.
  - rewrite filter_all_true.
    + rewrite <- (map_id F) at 2. apply map_ext_in. intros l Hl.
      rewrite Forall_forall in H. destruct (H l Hl) as [Hl1 _].
      apply strip_id. unfold tidy in Hl1.
      now apply andb_true_iff in Hl1 as [Hl1 _].
    + eapply Forall_impl; [|exact H]. intros l [Hl1 Hl2].
      unfold tidy in Hl1. apply andb_true_iff in Hl1 as [Hl1 _].
      rewrite (strip_id l Hl1). now destruct l.
  - eapply Forall_impl; [|exact H]. intros l [Hl1 Hl2]. split; [|exact Hl2].
    unfold tidy in Hl1. now apply andb_true_iff in Hl1 as [_ Hl1].
Qed.

Lemma digit_or_operator_not_space (c : ascii) :
  isdigit c || is_char 43 c || is_char 45 c || is_char 61 c
  || is_char 94 c || is_char 47 c || is_char 42 c = true ->
  isspace c = false.
Proof. char_cases c. Qed.

Lemma looks_numeric_not_blank (ln : str) :
  Core.looks_numeric ln = true -> truthy (strip ln) = true.
Proof.
  intros H. apply truthy_strip. unfold blank. intros Hb.
  unfold Core.looks_numeric in H. apply existsb_exists in H as [c [Hin Hc]].
  rewrite forallb_forall in Hb. specialize (Hb c Hin).
  rewrite (digit_or_operator_not_space c Hc) in Hb. discriminate.
Qed.

Lemma keep_line_not_empty (ln : str) :
  Core.keep_line ln = true -> truthy ln = true.
Proof. destruct ln; [discriminate|reflexivity]. Qed.

(** What the student mode writes, read back line by line: the lines of the
    text that pass the first test when there are any, and otherwise some of
    the lines of the text, none of which passes it. *)
Lemma lines_of_student_text (text : str) :
  let L := Main.lines_of (Core.remove_greeting text) in
  (filter Core.keep_line L <> [] /\
   Main.lines_of (Core.student_text text) = filter Core.keep_line L)
  \/ (filter Core.keep_line L = [] /\
      incl (Main.lines_of (Core.student_text text)) L).
Proof.
  intros L. unfold Core.student_text.
  set (X := splitlines (Core.remove_greeting text)).
  assert (HL : L = filter (@truthy ascii) (map strip X))
    by apply lines_of_filter.
  assert (Ltidy : Forall (fun l => tidy l = true /\ l <> []) L).
  { apply Forall_forall. intros l Hl. split.
    - pose proof (lines_of_tidy (Core.remove_greeting text)) as H.
      rewrite Forall_forall in H. now apply H.
    - pose proof (lines_of_nonempty (Core.remove_greeting text)) as H.
      rewrite Forall_forall in H. now apply H. }
  rewrite map_strip_rstrip.
  assert (P1 : filter Core.keep_line (map strip X) = filter Core.keep_line L).
  { rewrite HL. clear. induction (map strip X) as [|l ls IH]; [reflexivity|].
    cbn [filter]. destruct (Core.keep_line l) eqn:K.
    - rewrite (keep_line_not_empty l K). cbn [filter]. rewrite K.
      now rewrite IH.
    - destruct (truthy l); cbn [filter]; [rewrite K|]; exact IH. }
  rewrite P1.
  assert (sub : forall F, incl F L ->
                 Forall (fun l => tidy l = true /\ l <> []) F).
  { intros F HF. apply Forall_forall. intros l Hl.
    rewrite Forall_forall in Ltidy. apply Ltidy, HF, Hl. }
  destruct (filter Core.keep_line L) as [|k ks] eqn:E.
  - right. split; [reflexivity|]. cbn [truthy].
    assert (P2 : incl (map strip (filter Core.salvage_line (map rstrip X))) L).
    { intros e He. apply in_map_iff in He as [y [<- Hy]].
      apply filter_In in Hy as [Hy Hs]. apply in_map_iff in Hy as [x [<- Hx]].
      rewrite HL. apply filter_In. rewrite strip_rstrip. split.
      - now apply in_map.
      - unfold Core.salvage_line in Hs. apply andb_true_iff in Hs as [_ Hs].
        apply looks_numeric_not_blank in Hs. now rewrite strip_rstrip in Hs. }
    assert (P3 : incl (firstn 6 (map strip
                   (filter (fun ln => truthy (strip ln)) (map rstrip X)))) L).
    { intros e He. apply firstn_In in He || idtac.
      assert (He' : In e (map strip
                 (filter (fun ln => truthy (strip ln)) (map rstrip X)))).
      { revert He. generalize (map strip
                 (filter (fun ln => truthy (strip ln)) (map rstrip X))).
        intros l. generalize 6%nat. intros n. revert l.
        induction n as [|n IHn]; intros [|a l] Hin; simpl in Hin;
          try contradiction.
        destruct Hin as [<- | Hin]; [now left|right; now apply IHn]. }
      apply in_map_iff in He' as [y [<- Hy]].
      apply filter_In in Hy as [Hy Hs]. apply in_map_iff in Hy as [x [<- Hx]].
      rewrite HL. apply filter_In. rewrite strip_rstrip in *. split.
      - now apply in_map.
      - exact Hs. }
    destruct (truthy (map strip (filter Core.salvage_line (map rstrip X)))).
    + rewrite (lines_of_join _ (sub _ P2)). exact P2.
    + rewrite (lines_of_join _ (sub _ P3)). exact P3.
  - left. split; [discriminate|]. cbn [truthy].
    apply lines_of_join. apply sub. rewrite <- E.
    intros e He. now apply filter_In in He as [He _].
Qed.

(** X9. Student mode writes no line of its own: read back line by line, its
    output holds only stripped lines of the reply (once the greeting is
    removed), and exactly those that look like a numbered step, a final
    answer or a formula as soon as one line does. *)
Theorem student_text_lines_from_model (text : str) :
  incl (Main.lines_of (Core.student_text text))
       (Main.lines_of (Core.remove_greeting text))
  /\ (forall ln,
        In ln (Main.lines_of (Core.remove_greeting text)) ->
        Core.keep_line ln = true ->
        Main.lines_of (Core.student_text text)
        = filter Core.keep_line (Main.lines_of (Core.remove_greeting text))).
Proof.
  destruct (lines_of_student_text text) as [[H1 H2] | [H1 H2]].
  - split.
    + rewrite H2. intros e He. now apply filter_In in He as [He _].
    + intros _ _ _. exact H2.
  - split; [exact H2|]. intros ln Hin Hk.
    assert (Hf : In ln (filter Core.keep_line
                          (Main.lines_of (Core.remove_greeting text))))
      by now apply filter_In.
    rewrite H1 in Hf. contradiction.
Qed.

(** ** Generator output: what the parser of routes/ask.py reads in it *)

Lemma fold_left_filter {S : Type} (step : S -> str -> S)
    (keep : str -> bool) (lines : list str) (st : S) :
  (forall s ln, In ln lines -> keep ln = false -> step s ln = s) ->
  fold_left step (filter keep lines) st = fold_left step lines st.
Proof.
  revert st. induction lines as [|l ls IH]; intros st H; [reflexivity|].
  cbn [filter fold_left]. destruct (keep l) eqn:K.
  - cbn [fold_left]. apply IH. intros s ln Hin. apply H. now right.
  - rewrite (H st l (or_introl eq_refl) K). apply IH.
    intros s ln Hin. apply H. now right.
Qed.

Lemma fold_left_skipped {S : Type} (step : S -> str -> S)
    (lines : list str) (st : S) :
  (forall s ln, In ln lines -> step s ln = s) ->
  fold_left step lines st = st.
Proof.
  revert st. induction lines as [|l ls IH]; intros st H; [reflexivity|].
  cbn [fold_left]. rewrite (H st l (or_introl eq_refl)). apply IH.
  intros s ln Hin. apply H. now right.
Qed.

Lemma filter_nil_all_false {A} (f : A -> bool) (l : list A) (x : A) :
  filter f l = [] -> In x l -> f x = false.
Proof.
  intros H Hin. destruct (f x) eqn:E; [|reflexivity].
  assert (Hf : In x (filter f l)) by now apply filter_In.
  rewrite H in Hf. contradiction.
Qed.

(** A loop over the lines that passes over every line the first test of
    the student mode rejects ends in the same state on the output of the
    student mode as on the reply itself. *)
Lemma student_text_fold {S : Type} (step : S -> str -> S) (text : str)
    (st : S) :
  (forall s ln, In ln (Main.lines_of (Core.remove_greeting text)) ->
                Core.keep_line ln = false -> step s ln = s) ->
  fold_left step (Main.lines_of (Core.student_text text)) st
  = fold_left step (Main.lines_of (Core.remove_greeting text)) st.
Proof.
  intros H. destruct (lines_of_student_text text) as [[H1 H2] | [H1 H2]].
  - rewrite H2. now apply fold_left_filter.
  - assert (K : forall ln, In ln (Main.lines_of (Core.remove_greeting text)) ->
                           Core.keep_line ln = false).
    { intros ln Hin. exact (filter_nil_all_false _ _ ln H1 Hin). }
    rewrite !fold_left_skipped; [reflexivity| |].
    + intros s ln Hin. apply H; [exact Hin|]. now apply K.
    + intros s ln Hin. apply H; [now apply H2|]. now apply K, H2.
Qed.

Lemma routes_numbered_kept (ln : str) :
  Routes.match_numbered ln = true -> Core.keep_line ln = true.
Proof.
  unfold Routes.match_numbered, Core.keep_line, Core.match_numbered_dot.
  destruct (takeWhile isdigit ln); [discriminate|].
  destruct (dropWhile isdigit ln) as [|c r]; [discriminate|].
  intros H. cbn [dropWhile].
  assert (Hs : isspace c = false) by (revert H; char_cases c).
  now rewrite Hs, H.
Qed.

(** X10. The answer path of routes/ask.py reads the output of the student mode.
    When every line of the reply that starts with "answer" or "final
    answer" also passes the first test of the student mode (a colon or a
    hyphen after the keyword, or a formula in the line), the parser finds in
    the filtered text the steps and the final answer it would find in the
    reply itself, less its greeting. *)
Theorem routes_parse_after_student_filter (raw : str) :
  (forall ln,
     In ln (Main.lines_of (Core.remove_greeting (strip raw))) ->
     Routes.match_final ln = true -> Core.keep_line ln = true) ->
  Routes.parse_generation_result (Core.clean Core.STUDENT raw)
  = Routes.parse_generation_result (Core.remove_greeting (strip raw)).
Proof.
  intros H. unfold Core.clean.
  change (Evaluator.str_eqb Core.STUDENT Core.STUDENT) with true. cbv iota.
  unfold Routes.parse_generation_result.
  rewrite (student_text_fold Routes.parse_line (strip raw)); [reflexivity|].
  intros s ln Hin Hk. unfold Routes.parse_line.
  destruct (Routes.match_numbered ln) eqn:E1.
  - apply routes_numbered_kept in E1. congruence.
  - destruct (Routes.match_final ln) eqn:E2; [|reflexivity].
    rewrite (H ln Hin E2) in Hk. discriminate.
Qed.

Lemma routes_parse_after_student_filter_witness :
  Routes.parse_generation_result
    (Core.clean Core.STUDENT
       (lit "Hello! Sure." ++ [nl] ++ lit "1. Differentiate x^3" ++ [nl]
        ++ lit "Final Answer: 3x^2"))
  = Routes.parse_generation_result
      (Core.remove_greeting
         (strip (lit "Hello! Sure." ++ [nl] ++ lit "1. Differentiate x^3"
                 ++ [nl] ++ lit "Final Answer: 3x^2"))).
Proof.
  apply (routes_parse_after_student_filter
           (lit "Hello! Sure." ++ [nl] ++ lit "1. Differentiate x^3" ++ [nl]
            ++ lit "Final Answer: 3x^2")).
  intros ln Hin.
  assert (E : Main.lines_of
                (Core.remove_greeting
                   (strip (lit "Hello! Sure." ++ [nl]
                           ++ lit "1. Differentiate x^3" ++ [nl]
                           ++ lit "Final Answer: 3x^2")))
              = [lit "Sure."; lit "1. Differentiate x^3";
                 lit "Final Answer: 3x^2"]) by (vm_compute; reflexivity).
  rewrite E in Hin.
  destruct Hin as [<- | [<- | [<- | []]]]; vm_compute; trivial; discriminate.
Defined.

(** Without a colon or a hyphen after the keyword the condition fails: the
    parser reads a final answer in the reply and none in the filtered
    text. *)
Example routes_answer_line_filtered_out :
  snd (fst (Routes.parse_generation_result
              (lit "1. Add the numbers" ++ [nl] ++ lit "Answer is five")))
  = lit "Answer is five"
  /\ snd (fst (Routes.parse_generation_result
                 (Core.clean Core.STUDENT
                    (lit "1. Add the numbers" ++ [nl]
                     ++ lit "Answer is five"))))
     = [].
Proof. split; vm_compute; reflexivity. Qed.

(** ** Generator output: the evaluation mode *)

Lemma forallb_takeWhile (q p : ascii -> bool) (s : str) :
  forallb q s = true -> forallb q (takeWhile p s) = true.
Proof.
  induction s as [|c s IH]; simpl; [reflexivity|]. intros H.
  apply andb_true_iff in H as [H1 H2].
  destruct (p c); simpl; [now rewrite H1, IH|reflexivity].
Qed.

Lemma takeWhile_all (p : ascii -> bool) (s : str) :
  forallb p (takeWhile p s) = true.
Proof.
  induction s as [|c s IH]; simpl; [reflexivity|].
  destruct (p c) eqn:E; simpl; [now rewrite E|reflexivity].
Qed.

Lemma forallb_firstn (q : ascii -> bool) (n : nat) (s : str) :
  forallb q s = true -> forallb q (firstn n s) = true.
Proof.
  revert s. induction n as [|n IH]; intros [|c s] H; simpl; trivial.
  simpl in H. apply andb_true_iff in H as [H1 H2]. now rewrite H1, IH.
Qed.

Lemma forallb_strip_dots (q : ascii -> bool) (s : str) :
  forallb q s = true -> forallb q (Core.strip_dots s) = true.
Proof.
  intros H. unfold Core.strip_dots.
  rewrite forallb_rev. apply forallb_dropWhile. rewrite forallb_rev.
  now apply forallb_dropWhile.
Qed.

Lemma first_final_in (lines : list str) (g : str) :
  Core.first_final lines = Some g ->
  exists ln, In ln lines /\ Main.match_final ln = Some g.
Proof.
  induction lines as [|l ls IH]; [discriminate|]. simpl.
  destruct (Main.match_final l) as [g'|] eqn:E.
  - intros H. injection H as <-. exists l. split; [now left|exact E].
  - intros H. destruct (IH H) as [ln [Hin Hm]]. exists ln.
    split; [now right|exact Hm].
Qed.

Lemma number_char_not_linebreak (c : ascii) :
  is_number_char c = true -> negb (is_linebreak c) = true.
Proof. unfold is_number_char, Evaluator.is_sign. char_cases c. Qed.

Lemma digits_number_chars (s : str) :
  forallb is_number_char (takeWhile isdigit s) = true.
Proof.
  induction s as [|c s IH]; simpl; [reflexivity|].
  destruct (isdigit c) eqn:E; simpl; [|reflexivity].
  unfold is_number_char at 1. now rewrite E, IH.
Qed.

Lemma match_eval_unsigned_chars (s m : str) :
  Core.match_eval_unsigned s = Some m -> forallb is_number_char m = true.
Proof.
  unfold Core.match_eval_unsigned.
  assert (T : forall body rest,
             forallb is_number_char body = true ->
             forallb is_number_char
               match rest with
               | c :: r => if is_char 47 c
                           then body ++ c :: takeWhile isdigit r else body
               | [] => body
               end = true).
  { intros body [|c r] Hb; [exact Hb|].
    destruct (is_char 47 c) eqn:E; [|exact Hb].
    rewrite forallb_app, Hb. simpl. rewrite digits_number_chars.
    unfold is_number_char. rewrite E. now rewrite !orb_true_r. }
  assert (I : forall o,
             (if truthy (takeWhile isdigit s)
              then Some match dropWhile isdigit s with
                        | c :: r => if is_char 47 c
                                    then takeWhile isdigit s
                                         ++ c :: takeWhile isdigit r
                                    else takeWhile isdigit s
                        | [] => takeWhile isdigit s
                        end
              else None) = Some o -> forallb is_number_char o = true).
  { intros o H. destruct (truthy (takeWhile isdigit s)); [|discriminate].
    injection H as <-. apply T, digits_number_chars. }
  destruct (dropWhile isdigit s) as [|c r2] eqn:E.
  - intros H. apply I. exact H.
  - destruct (is_char 46 c && truthy (takeWhile isdigit r2)) eqn:D.
    + intros H. injection H as <-. apply T.
      rewrite forallb_app, digits_number_chars. simpl.
      rewrite digits_number_chars. apply andb_true_iff in D as [D _].
      unfold is_number_char. rewrite D. now rewrite !orb_true_r.
    + intros H. apply I. exact H.
Qed.

Lemma match_eval_number_chars (s m : str) :
  Core.match_eval_number s = Some m -> forallb is_number_char m = true.
Proof.
  unfold Core.match_eval_number. destruct s as [|c r]; [discriminate|].
  destruct (Evaluator.is_sign c) eqn:E.
  - destruct (Core.match_eval_unsigned r) as [m'|] eqn:U; [|discriminate].
    intros H. injection H as <-. simpl.
    rewrite (match_eval_unsigned_chars r m' U).
    unfold is_number_char. rewrite E. now rewrite orb_true_r.
  - apply match_eval_unsigned_chars.
Qed.

Lemma findall_eval_chars (s : str) (skip : nat) :
  Forall (fun m => forallb is_number_char m = true)
    (Core.findall_eval_from skip s).
Proof.
  revert skip. induction s as [|c r IH]; intros skip; [constructor|].
  cbn [Core.findall_eval_from]. destruct skip as [|k]; [|apply IH].
  destruct (Core.match_eval_number (c :: r)) as [m|] eqn:E; [|apply IH].
  constructor; [|apply IH]. exact (match_eval_number_chars _ _ E).
Qed.

Lemma first_option_letter (lines : list str) (c : ascii) :
  Core.first_option lines = Some c -> Evaluator.is_option_letter c = true.
Proof.
  induction lines as [|l ls IH]; [discriminate|]. simpl.
  destruct (Core.match_option_line l) as [c'|] eqn:E; [|exact IH].
  intros H. injection H as <-. unfold Core.match_option_line in E.
  destruct (match l with
            | [] => []
            | c0 :: r => if is_char 40 c0 || is_char 91 c0 then r else l
            end) as [|a [|b rest]]; try discriminate.
  destruct (Evaluator.is_option_letter a) eqn:A; [|discriminate].
  destruct (Core.is_option_tail b); [|discriminate].
  simpl in E. now injection E as <-.
Qed.

Lemma eval_text_one_line (text : str) : one_line (Core.eval_text text) = true.
Proof.
  unfold Core.eval_text.
  pose proof (lines_of_tidy text) as Ht.
  destruct (Main.lines_of text) as [|l ls] eqn:L; [reflexivity|].
  cbn [truthy negb].
  assert (H1 : forall ln, In ln (l :: ls) -> one_line ln = true).
  { intros ln Hin. rewrite Forall_forall in Ht. specialize (Ht ln Hin).
    unfold tidy in Ht. now apply andb_true_iff in Ht as [_ Ht]. }
  destruct (Core.first_final (l :: ls)) as [g|] eqn:F.
  - apply first_final_in in F as [ln [Hin Hm]]. unfold one_line.
    apply forallb_strip_dots, forallb_strip.
    exact (match_final_suffix _ ln g Hm (H1 ln Hin)).
  - destruct (Core.first_option (l :: ls)) as [c|] eqn:O.
    + unfold one_line. cbn [forallb]. rewrite andb_true_r.
      destruct (upper_option_range c (first_option_letter _ c O))
        as [Hc | [Hc | [Hc | [Hc | []]]]];
        injection Hc as <-; reflexivity.
    + destruct (Core.findall_eval_from 0 text) as [|n ns] eqn:N.
      * cbn [truthy hd]. unfold one_line. apply forallb_firstn.
        apply (H1 l). now left.
      * cbn [truthy]. unfold one_line. apply forallb_strip.
        pose proof (findall_eval_chars text 0) as Hn. rewrite N in Hn.
        pose proof (Forall_last _ (n :: ns) [] Hn) as Hl.
        apply forallb_forall. intros x Hx.
        apply number_char_not_linebreak.
        assert (Hq : forallb is_number_char (last (n :: ns) []) = true).
        { apply Hl. reflexivity. }
        rewrite forallb_forall in Hq. now apply Hq.
Qed.

(** X11. The evaluation mode answers with a single line: whatever the model
    replies, in every mode but the student one the text returned by
    [generate_with_gemini] holds no line boundary. The mode "legacy",
    which the docstring describes as returning the raw reply, is one of
    them. *)
Theorem eval_mode_single_line
    (call_model : str -> exn + str) (prompt mode answer : str) :
  Evaluator.str_eqb mode Core.STUDENT = false ->
  Core.generate_with_gemini call_model prompt mode = inr answer ->
  one_line answer = true.
Proof.
  intros Hm. unfold Core.generate_with_gemini, Core.clean.
  destruct (call_model (Core.full_prompt mode prompt)) as [e|text];
    [discriminate|].
  rewrite Hm. intros H. injection H as <-. apply eval_text_one_line.
Qed.

Lemma eval_mode_single_line_witness :
  one_line (lit "3/4") = true.
Proof.
  apply (eval_mode_single_line
           (fun _ => inr (lit "The slope is 1/2." ++ [nl]
                          ++ lit "So the value is 3/4."))
           (lit "Question: slope?") (lit "legacy") (lit "3/4")).
  - reflexivity.
  - vm_compute. reflexivity.
Defined.

(** ** Evaluator: the first test of a match *)

Lemma strip_strip (s : str) : strip (strip s) = strip s.
Proof. apply strip_id, strip_trimmed. Qed.

Lemma normalize_text_strip (s : str) :
  Evaluator.normalize_text (strip s) = Evaluator.normalize_text s.
Proof. unfold Evaluator.normalize_text. now rewrite strip_strip. Qed.

Lemma normalize_text_truthy (s : str) :
  truthy (strip s) = true -> truthy (Evaluator.normalize_text s) = true.
Proof.
  unfold Evaluator.normalize_text, Evaluator.collapse_blanks.
  pose proof (strip_trimmed s) as Ht.
  destruct (strip s) as [|c r]; [discriminate|]. intros _.
  unfold trimmed in Ht. apply andb_true_iff in Ht as [Ht _].
  simpl in Ht. apply negb_true_iff in Ht.
  cbn [Evaluator.collapse_blanks_from]. rewrite Ht. reflexivity.
Qed.

(** X16. The first test of the evaluation accepts any fragment: an answer is
    recorded as a match as soon as its normal form occurs inside that of
    the expected answer. The expected answer itself passes, whatever its
    case and blanks, and so does "2" when "12" is expected. *)
Theorem fragment_answer_is_match
    (env : Evaluator.EvalEnv) (i : nat) (it : Evaluator.item)
    (pre post : str) :
  ~ blank (Evaluator.get_answer env (Evaluator.item_question it)) ->
  Evaluator.normalize_text (Evaluator.item_answer it)
  = pre
    ++ Evaluator.normalize_text
         (Evaluator.get_answer env (Evaluator.item_question it))
    ++ post ->
  Evaluator.is_match (Evaluator.evaluate_item env i it) = true
  /\ Evaluator.match_reason (Evaluator.evaluate_item env i it)
     = lit "text-eq".
Proof.
  intros Hb Hn. unfold Evaluator.evaluate_item.
  apply truthy_strip in Hb. rewrite Hb. cbn [negb].
  unfold Evaluator.judge. rewrite normalize_text_strip.
  pose proof (normalize_text_truthy _ Hb) as Ha.
  assert (Hc : contains
                 (Evaluator.normalize_text
                    (Evaluator.get_answer env (Evaluator.item_question it)))
                 (Evaluator.normalize_text (Evaluator.item_answer it))
               = true).
  { apply contains_substring. now exists pre, post. }
  assert (Hg : truthy (Evaluator.normalize_text (Evaluator.item_answer it))
               = true).
  { rewrite Hn. destruct pre; [|reflexivity]. simpl.
    destruct (Evaluator.normalize_text
                (Evaluator.get_answer env (Evaluator.item_question it)));
      [discriminate|reflexivity]. }
  rewrite Hg, Hc, !orb_true_r. split; reflexivity.
Qed.

Lemma fragment_answer_is_match_witness :
  Evaluator.is_match
    (Evaluator.evaluate_item (constant_eval_env (lit "2") []) 0
       (Evaluator.mkItem (lit "What is 3 * 4?") (lit "12")))
  = true.
Proof.
  apply (fragment_answer_is_match (constant_eval_env (lit "2") []) 0
           (Evaluator.mkItem (lit "What is 3 * 4?") (lit "12"))
           (lit "1") []).
  - unfold blank. vm_compute. discriminate.
  - vm_compute. reflexivity.
Defined.

(** ** Stripping a text and its lines *)

Lemma same_lines_refl (a : list str) : same_lines a a.
Proof.
  induction a as [|l ls IH]; [exact I|]. split; [|exact IH].
  exists []. now rewrite app_nil_r.
Qed.

Lemma same_lines_prepend (c : ascii) (a b : list str) :
  same_lines a b -> same_lines (prepend c a) (prepend c b).
Proof.
  destruct a as [|l1 r1], b as [|l2 r2]; simpl; intros H.
  - split; [|exact I]. now exists [].
  - contradiction.
  - destruct H as [H ->]. split; [|exact I]. now exists l1.
  - destruct H as [[bl [-> Hb]] H]. split; [|exact H]. now exists bl.
Qed.

Lemma splitlines_cons_other (c : ascii) (r : str) :
  is_linebreak c = false -> splitlines (c :: r) = prepend c (splitlines r).
Proof. intros H. simpl. now rewrite H. Qed.

Lemma splitlines_snoc_blank (x : str) (c : ascii) :
  isspace c = true -> same_lines (splitlines (x ++ [c])) (splitlines x).
Proof.
  intros Hc.
  assert (H0 : same_lines (splitlines [c]) []).
  { simpl. destruct (is_linebreak c); simpl; [now split|].
    rewrite Hc. now split. }
  remember (length x) as n eqn:Hn.
  assert (Hle : (length x <= n)%nat) by lia. clear Hn. revert x Hle.
  induction n as [|n IH]; intros x Hle.
  - destruct x; [exact H0|simpl in Hle; lia].
  - destruct x as [|a x']; [exact H0|]. simpl in Hle.
    destruct (is_linebreak a) eqn:Ha.
    + destruct x' as [|d x''].
      * change (([a] ++ [c])) with [a; c]. cbn [splitlines]. rewrite Ha.
        destruct (is_char 13 a && is_char 10 c).
        -- split; [now exists []|exact I].
        -- split; [now exists []|exact H0].
      * change ((a :: d :: x'') ++ [c]) with (a :: d :: (x'' ++ [c])).
        cbn [splitlines]. rewrite Ha.
        destruct (is_char 13 a && is_char 10 d).
        -- split; [now exists []|]. apply IH. simpl in Hle. lia.
        -- split; [now exists []|].
           apply (IH (d :: x'')). simpl in *. lia.
    + change ((a :: x') ++ [c]) with (a :: (x' ++ [c])).
      rewrite !(splitlines_cons_other a _ Ha).
      apply same_lines_prepend, IH. lia.
Qed.

Lemma same_lines_stripped (a b : list str) :
  same_lines a b ->
  map strip (filter (fun ln => truthy (strip ln)) a)
  = map strip (filter (fun ln => truthy (strip ln)) b).
Proof.
  revert b. induction a as [|l1 r1 IH]; intros [|l2 r2] H; simpl in H;
    try contradiction; [reflexivity| |].
  - destruct H as [Hb ->]. cbn [filter].
    assert (E : strip l1 = []) by now apply strip_nil_iff.
    rewrite E. reflexivity.
  - destruct H as [[bl [-> Hb]] H]. cbn [filter].
    rewrite (strip_app_blank_r l2 bl Hb).
    destruct (truthy (strip l2)); cbn [map];
      rewrite ?(strip_app_blank_r l2 bl Hb); now rewrite (IH r2 H).
Qed.

Lemma lines_of_app_blank (x b : str) :
  forallb isspace b = true -> Main.lines_of (x ++ b) = Main.lines_of x.
Proof.
  revert x. induction b as [|c b IH]; intros x H.
  - now rewrite app_nil_r.
  - simpl in H. apply andb_true_iff in H as [Hc Hb].
    change (x ++ c :: b) with (x ++ [c] ++ b). rewrite app_assoc.
    rewrite (IH (x ++ [c]) Hb). unfold Main.lines_of.
    apply same_lines_stripped, splitlines_snoc_blank, Hc.
Qed.

Lemma lines_of_cons_blank (c : ascii) (r : str) :
  isspace c = true -> Main.lines_of (c :: r) = Main.lines_of r.
Proof.
  intros Hc. unfold Main.lines_of.
  destruct (is_linebreak c) eqn:Hl.
  - cbn [splitlines]. rewrite Hl. destruct r as [|d r']; [reflexivity|].
    destruct (is_char 13 c && is_char 10 d) eqn:E.
    + apply andb_true_iff in E as [_ E]. apply is_char_eq in E. subst d.
      cbn [splitlines]. change (is_linebreak (chr 10)) with true. cbv iota.
      destruct r' as [|e r'']; [reflexivity|].
      change (is_char 13 (chr 10)) with false. cbn [andb]. reflexivity.
    + reflexivity.
  - rewrite (splitlines_cons_other c r Hl).
    destruct (splitlines r) as [|l ls]; cbn [prepend filter].
    + assert (E : strip [c] = []).
      { apply strip_nil_iff. unfold blank. simpl. now rewrite Hc. }
      rewrite E. reflexivity.
    + assert (E : strip (c :: l) = strip l).
      { apply (strip_app_blank_l [c] l). simpl. now rewrite Hc. }
      rewrite E. destruct (truthy (strip l)); cbn [map]; now rewrite ?E.
Qed.

(** Blanks at either end of a text do not show in its lines. *)
Lemma lines_of_strip (t : str) : Main.lines_of (strip t) = Main.lines_of t.
Proof.
  unfold strip. destruct (rstrip_prefix (lstrip t)) as [post [E H]].
  rewrite <- (lines_of_app_blank (rstrip (lstrip t)) post H), <- E.
  clear E H post. unfold lstrip. induction t as [|c r IH]; [reflexivity|].
  cbn [dropWhile]. destruct (isspace c) eqn:Hc; [|reflexivity].
  now rewrite IH, (lines_of_cons_blank c r Hc).
Qed.

(** X6. What backend/backend/main.py parses is the reply of the model stripped
    by [generate_with_gemini]; the stripping changes nothing of what the
    parser returns. *)
Theorem plain_generator_transparent
    (call_model : str -> exn + str) (prompt gen : str) :
  Utils.generate_with_gemini call_model prompt = inr gen ->
  exists text,
    call_model prompt = inr text
    /\ Main.parse_generation_result gen = Main.parse_generation_result text.
Proof.
  unfold Utils.generate_with_gemini.
  destruct (call_model prompt) as [e|text]; [discriminate|].
  intros H. injection H as <-. exists text. split; [reflexivity|].
  unfold Main.parse_generation_result. now rewrite lines_of_strip.
Qed.

Lemma plain_generator_transparent_witness :
  exists text,
    inr (lit "  1. Add" ++ [nl] ++ lit "Final Answer: 4 " ++ [nl])
    = @inr exn str text
    /\ Main.parse_generation_result
         (lit "1. Add" ++ [nl] ++ lit "Final Answer: 4")
       = Main.parse_generation_result text.
Proof.
  apply (plain_generator_transparent
           (fun _ => inr (lit "  1. Add" ++ [nl] ++ lit "Final Answer: 4 "
                          ++ [nl]))
           (lit "Solve 2 + 2")
           (lit "1. Add" ++ [nl] ++ lit "Final Answer: 4")).
  vm_compute. reflexivity.
Defined.

(** ** Orchestrator: a retrieved payload with a field missing *)

(** X5. On a retrieval hit, [routes/ask.py] subscripts the payload of the
    top hit: when the question, the steps or the final answer is missing
    from it, the request fails with [KeyError] on the first missing key, in
    the order question, steps, final answer, right after the retrieval call,
    and the generator is never called. [backend/backend/main.py] reads the
    same payload with [get] and goes on to the generator. *)
Theorem routes_hit_missing_field
    (cfg : Config) (req : AskIn) (env : Env) (top : ScoredPoint)
    (rest : list ScoredPoint) (s : Q) :
  ~ blank (question req) ->
  input_guardrail (strip (question req)) = true ->
  kb_search env (strip (question req)) (KB_TOPK cfg) = inr (top :: rest) ->
  score top = Val s ->
  (KB_THRESHOLD cfg <= s)%Q ->
  p_question (payload top) = Absent
  \/ p_steps (payload top) = Absent
  \/ p_final_answer (payload top) = Absent ->
  run env (Routes.ask cfg req)
  = ([KbSearch (strip (question req)) (KB_TOPK cfg)],
     inl (KeyError
            match p_question (payload top), p_steps (payload top) with
            | Absent, _ => lit "question"
            | _, Absent => lit "steps"
            | _, _ => lit "final_answer"
            end))
  /\ (exists tr r,
        run env (Main.ask cfg req)
        = (KbSearch (strip (question req)) (KB_TOPK cfg)
           :: Generate (main_hit_prompt_for req (strip (question req)) top)
                None None :: tr, r)).
Proof.
  intros Hb Hin Hkb Hs Hle Hmiss. apply truthy_strip in Hb.
  assert (Hthr : (KB_THRESHOLD cfg <= top_score top)%Q)
    by now rewrite (top_score_val top s Hs).
  split.
  - unfold Routes.ask. rewrite Hb, Hin. cbn [negb orb run]. rewrite Hkb.
    rewrite (routes_after_search_hit cfg _ top rest Hthr).
    unfold Routes.retrieval_hit, Routes.hit_context, Routes.subscript.
    destruct (p_question (payload top)) eqn:Q; [reflexivity| |];
      (destruct (p_steps (payload top)) eqn:S; [reflexivity| |]);
      (destruct (p_final_answer (payload top)) eqn:F; [reflexivity| |]);
      exfalso; destruct Hmiss as [H|[H|H]]; discriminate.
  - unfold Main.ask. rewrite Hb, Hin. cbn [negb run]. rewrite Hkb.
    rewrite (main_after_search_hit cfg req _ top rest Hthr).
    unfold Main.retrieval_hit. cbn [run].
    fold (main_hit_prompt_for req (strip (question req)) top).
    destruct (generate_with_gemini env
                (main_hit_prompt_for req (strip (question req)) top)
                None None) as [e|g].
    + exists [], (inl e). reflexivity.
    + destruct (run env _) as [tr r]. exists tr, r. reflexivity.
Qed.

Lemma routes_hit_missing_field_witness :
  run bare_env (Routes.ask default_config solve_req)
  = ([KbSearch (strip (question solve_req)) (KB_TOPK default_config)],
     inl (KeyError (lit "steps")))
  /\ run empty_payload_env (Routes.ask default_config solve_req)
     = ([KbSearch (strip (question solve_req)) (KB_TOPK default_config)],
        inl (KeyError (lit "question"))).
Proof.
  split.
  - destruct (routes_hit_missing_field default_config solve_req bare_env
                bare_hit [] (90 # 100)%Q) as [H _].
    + unfold blank. vm_compute. discriminate.
    + vm_compute. reflexivity.
    + reflexivity.
    + reflexivity.
    + vm_compute. discriminate.
    + right. left. reflexivity.
    + exact H.
  - destruct (routes_hit_missing_field default_config solve_req
                empty_payload_env empty_payload_hit [] (90 # 100)%Q)
      as [H _].
    + unfold blank. vm_compute. discriminate.
    + vm_compute. reflexivity.
    + reflexivity.
    + reflexivity.
    + vm_compute. discriminate.
    + left. reflexivity.
    + exact H.
Defined.
